(** * gobooklist: the catalog search coordinator and its caller

    A shallow embedding of [booklist/catalog.go], of the media-type
    handling of [booklist/config.go] and of [printSearchResults] from
    [cmd/booklist], followed by the properties of the search that the
    specification states.

    The program talks to a remote catalog and reads the wall clock.  Both
    are made explicit: an environment [Env] fixes what the clock and the
    catalog answer, a [World] holds the package-level counter
    [timestampIncrement] and the history of HTTP exchanges, and every
    function that performs I/O is a computation in the monad [M]. *)

From Stdlib Require Import ZArith String List Sorted Lia.
From stdpp Require Import base strings gmap list pretty.

Open Scope string_scope.
Open Scope list_scope.
Open Scope Z_scope.

(** ** A small model of the Go runtime pieces the package relies on *)

Module Go.

(** A slice is either [nil] or backed by a list of elements. *)
Definition slice (A : Type) : Type := option (list A).

Definition elems {A} (s : slice A) : list A :=
  match s with
  | Some l => l
  | None => []
  end.

Definition len {A} (s : slice A) : Z := Z.of_nat (length (elems s)).

(** [append(s, x)]: the result is never [nil]. *)
Definition append {A} (s : slice A) (x : A) : slice A := Some (elems s ++ [x]).

(** Two's-complement wrap-around of [int64] arithmetic. *)
Definition wrap64 (z : Z) : Z := (z + 2 ^ 63) mod 2 ^ 64 - 2 ^ 63.

Definition int64 (z : Z) : Prop := - 2 ^ 63 <= z < 2 ^ 63.

(** [fmt.Sprintf("%d", z)]. *)
Definition sprintf_d (z : Z) : string := pretty z.

(** [url.Values.Encode] for parameters whose keys and values need no
    escaping, as "_" and a decimal number do not: the pairs [key=value],
    joined by "&".  The program encodes a single parameter, so that the
    order of the keys plays no part. *)
Definition Values_Encode (params : list (string * string)) : string :=
  String.concat "&" (map (fun p => fst p +:+ "=" +:+ snd p) params).

(** A value of type [interface{}] as [encoding/json] produces it. *)
#[warnings="-register-all"] Inductive value : Type :=
| VNil
| VBool (b : bool)
| VNumber (literal : string)
| VString (s : string)
| VArray (l : list value)
| VObject (m : gmap string value).

(** The type assertion [v.(string)] on the result of a map lookup: a
    missing key yields the nil interface, on which the assertion fails
    as on any value that is not a string. *)
Definition assertString (v : option value) : string * bool :=
  match v with
  | Some (VString s) => (s, true)
  | _ => ("", false)
  end.

End Go.

(** ** Package [booklist] *)

Module Booklist.

Import Go.

(** *** catalog.go: constants and data *)

(** Timeout in seconds for HTTP connect and read. *)
Definition timeout : Z := 5.

(** Maximum number of publications returned in a response. *)
Definition maxHitsPerPage : Z := 30.

(** [PublicationInfo]: media type and name of one publication. *)
Module PublicationInfo.
Record t : Type := mk { Media : string; Publication : string }.
End PublicationInfo.

(** [CatalogInfo]: what is needed to search for an author and a media
    type.  The [Log] field only receives debug messages and is left out. *)
Module CatalogInfo.
Record t : Type := mk { URL : string; Author : string; Media : string }.
End CatalogInfo.

(** [facetFilter] is a [map[string]string]. *)
Abbreviation facetFilter := (gmap string string).

(** [searchFilter]: the JSON data of a POST request. *)
Module searchFilter.
Record t : Type := mk {
  AddToHistory : bool;
  DbCodes : slice string;
  HitsPerPage : Z;
  SortCriteria : string;
  StartIndex : Z;
  TargetAudience : string;
  FacetFilters : slice facetFilter;
  SearchTerm : string
}.
End searchFilter.

(** [resourceInfo] is a [map[string]interface{}]. *)
Abbreviation resourceInfo := (gmap string value).

(** The two response shapes, local types of [publicationsCount] and of
    [publications].  The unexported fields [totalHits] and [facetFilters]
    of [searchResults] are invisible to the JSON decoder and never read,
    so only [Resources] is kept. *)
Module hitResults.
Record t : Type := mk { Success : bool; Count : Z }.
Definition zero : t := mk false 0.
End hitResults.

Module searchResults.
Record t : Type := mk { Resources : slice resourceInfo }.
Definition zero : t := mk None.
End searchResults.

(** *** The network and the clock *)

(** What [json.NewDecoder(body).Decode(&results)] does to [results], a
    pointer to a struct: it reports an error, or it leaves a pointer in
    [results], which is [nil] when the document is the literal [null]. *)
Inductive Decoded (T : Type) : Type :=
| DecodeError (cause : string)
| DecodedTo (p : option T).
Arguments DecodeError {T} cause.
Arguments DecodedTo {T} p.

(** The program observes a response body only by decoding it into one of
    the two response shapes; a body is represented by what each decoding
    yields. *)
Record Body : Type := mkBody {
  asHitResults : Decoded hitResults.t;
  asSearchResults : Decoded searchResults.t
}.

(** A [url.URL] as the program uses it: [issueRequest] parses a string,
    overwrites the field [RawQuery] and calls [String].  [String] writes
    the scheme, the authority and the escaped path, then "?" and
    [RawQuery] when [ForceQuery] is set or [RawQuery] is not empty, then
    "#" and the escaped fragment when there is a fragment.  [beforeQuery]
    is what [String] writes before the query and [escapedFragment] what
    it writes after the "#", which is empty exactly when the fragment
    is. *)
Module URL.
Record t : Type := mk {
  beforeQuery : string;
  ForceQuery : bool;
  RawQuery : string;
  escapedFragment : string
}.

(** The assignment [u.RawQuery = q]. *)
Definition withRawQuery (u : t) (q : string) : t :=
  mk (beforeQuery u) (ForceQuery u) q (escapedFragment u).

(** [u.String()]. *)
Definition toString (u : t) : string :=
  beforeQuery u
  +:+ (if ForceQuery u || negb (String.eqb (RawQuery u) "")
       then "?" +:+ RawQuery u else "")
  +:+ (if negb (String.eqb (escapedFragment u) "")
       then "#" +:+ escapedFragment u else "").
End URL.

(** The request [issueRequest] builds and hands to [client.Do]:
    [rawurl] is the string it hands to [url.Parse], the catalog URL
    followed by the endpoint, which tells the two endpoints apart;
    [urlString] is the URL the request is created with, [u.String()]
    after the query of the parsed URL has been overwritten; then the
    query parameters, the headers in the order they are set, and the
    [searchFilter] that is encoded as the JSON body. *)
Record Request : Type := mkRequest {
  method : string;
  rawurl : string;
  urlString : string;
  query : list (string * string);
  header : list (string * string);
  payload : searchFilter.t
}.

(** What [client.Do] returns: a non-nil error (connection failure,
    timeout), or a response with a status code and a body. *)
Inductive Reply : Type :=
| DoFailed (cause : string)
| Response (StatusCode : Z) (body : Body).

Definition Exchange : Type := Request * Reply.

(** The values of type [error] the package produces. *)
Inductive Error : Type :=
| Errorf (msg : string)
| ParseFailed (cause : string)
| PostFailed (req : Request) (cause : string)
| PostStatus (req : Request) (StatusCode : Z)
| DecodeFailed (url : string) (reply : Reply) (cause : string).

(** The environment of a run.  [yearFilter] is the package variable
    computed once when the process starts; [now k] is the [k]-th reading
    of [time.Now().UTC().UnixNano()]; [urlError s] is the error of
    [url.Parse s], if any, and [urlParsed s] the URL it returns when
    there is none; [catalog h r] is the catalog's answer to the request
    [r] after the exchanges [h]. *)
Record Env : Type := mkEnv {
  yearFilter : string;
  now : nat -> Z;
  urlError : string -> option string;
  urlParsed : string -> URL.t;
  catalog : list Exchange -> Request -> Reply
}.

(** The mutable state: the package variable [timestampIncrement], the
    number of clock readings made, and the exchanges so far, oldest
    first. *)
Record World : Type := mkWorld {
  timestampIncrement : Z;
  clockReads : nat;
  log : list Exchange
}.

(** [timestampIncrement int64 = 1] when the process starts. *)
Definition initialWorld : World := mkWorld 1 0 [].

(** The requests issued so far. *)
Definition requests (w : World) : list Request := map fst (log w).

(** A computation returns a value, panics (nil pointer dereference) or is
    still running when its loop budget is used up. *)
Inductive Outcome (A : Type) : Type :=
| Returns (a : A)
| Panics
| Unfinished.
Arguments Returns {A} a.
Arguments Panics {A}.
Arguments Unfinished {A}.

Definition M (A : Type) : Type := World -> Outcome A * World.

Definition ret {A} (a : A) : M A := fun w => (Returns a, w).

Definition bind {A B} (m : M A) (f : A -> M B) : M B :=
  fun w =>
    match m w with
    | (Returns a, w') => f a w'
    | (Panics, w') => (Panics, w')
    | (Unfinished, w') => (Unfinished, w')
    end.

Definition panic {A} : M A := fun w => (Panics, w).

#[export] Instance M_ret : MRet M := @ret.
#[export] Instance M_bind : MBind M := fun A B f m => bind m f.

(** The decoders of the two targets [issueRequest] is called with. *)
Class Target (T : Type) : Type := decode : Body -> Decoded T.
#[export] Instance hitResults_Target : Target hitResults.t := asHitResults.
#[export] Instance searchResults_Target : Target searchResults.t := asSearchResults.

(** *** catalog.go: the functions *)

Section Catalog.

Context (env : Env).

(** The value a token is printed from: [utcTime] is the clock reading in
    nanoseconds and [increment] the counter after its increment.
    [int64(time.Millisecond) / int64(time.Nanosecond)] is [1000000 / 1];
    Go's integer division truncates toward zero. *)
Definition timestampValue (utcTime increment : Z) : Z :=
  let timestamp := Z.quot utcTime (Z.quot 1000000 1) in
  wrap64 (timestamp + increment).

(** [makeTimestamp]: returns a 13-digit timestamp used as a cache buster. *)
Definition makeTimestamp : M string :=
  fun w =>
    let increment := wrap64 (timestampIncrement w + 1) in
    let utcTime := now env (clockReads w) in
    (Returns (sprintf_d (timestampValue utcTime increment)),
     mkWorld increment (S (clockReads w)) (log w)).

(** [client.Do(req)]: the catalog answers and the exchange is recorded.
    A request that runs into the client's timeout of ten seconds ends
    like any other failed request, with [DoFailed]. *)
Definition clientDo (req : Request) : M Reply :=
  fun w =>
    let reply := catalog env (log w) req in
    (Returns reply,
     mkWorld (timestampIncrement w) (clockReads w) (log w ++ [(req, reply)])).

Definition requestHeader (c : CatalogInfo.t) : list (string * string) :=
  [ ("X-Requested-With", "XMLHttpRequest");
    ("Content-Type", "application/json; charset=utf-8");
    ("Accept", "application/json, text/javascript, */*; q=0.01");
    ("Accept-Language", "en-US,en;q=0.8");
    ("Ls2pac-config-type", "pac");
    ("Ls2pac-config-name", "default - Go Live load");
    ("Referer", CatalogInfo.URL c) ].

(** [issueRequest]: issues a POST request and checks for an error in the
    response.  [target] is the pointer the caller passes by address; the
    function returns its value after the call next to the error.
    Encoding a [searchFilter] (strings, integers, a boolean and maps of
    strings) as JSON cannot fail, so that error branch is absent; when
    decoding fails the caller returns without reading [target].
    [http.NewRequest] parses [u.String()] once more; the program does
    not look at its error, and the string comes from a URL that
    [url.Parse] has accepted. *)
Definition issueRequest {T} `{Target T} (c : CatalogInfo.t) (endpt : string)
    (filters : slice facetFilter) (target : option T) : M (option T * option Error) :=
  match urlError env (CatalogInfo.URL c +:+ endpt) with
  | Some cause => mret (target, Some (ParseFailed cause))
  | None =>
    let u := urlParsed env (CatalogInfo.URL c +:+ endpt) in
    ts ← makeTimestamp;
    let params := [("_", ts)] in
    let u := URL.withRawQuery u (Values_Encode params) in
    let search :=
      searchFilter.mk true None maxHitsPerPage "NewlyAdded" 0 "" filters
        (CatalogInfo.Author c) in
    let req :=
      mkRequest "POST" (CatalogInfo.URL c +:+ endpt) (URL.toString u) params
        (requestHeader c) search in
    resp ← clientDo req;
    match resp with
    | DoFailed cause => mret (target, Some (PostFailed req cause))
    | Response StatusCode body =>
      if negb (StatusCode =? 200) then mret (target, Some (PostStatus req StatusCode))
      else
        match decode body with
        | DecodeError cause =>
          mret (target, Some (DecodeFailed (CatalogInfo.URL c) resp cause))
        | DecodedTo p => mret (p, None)
        end
    end
  end.

(** [publicationsCount]: requests the total number of publications for
    the given author.  [results.Success] dereferences the pointer the
    decoder left, which panics when it is [nil]. *)
Definition publicationsCount (c : CatalogInfo.t) (filters : slice facetFilter)
    : M (Z * option Error) :=
  '(results, err) ← issueRequest c "search/count" filters (Some hitResults.zero);
  match err with
  | Some e => mret (0, Some e)
  | None =>
    match results with
    | None => panic
    | Some r =>
      if negb (hitResults.Success r)
      then mret (0, Some (Errorf
             "failed to retrieve total number of matches on author, media and year"))
      else mret (hitResults.Count r, None)
    end
  end.

(** [publications]: requests a page of publications for the given author. *)
Definition publications (c : CatalogInfo.t) (filters : slice facetFilter)
    : M (slice resourceInfo * option Error) :=
  '(results, err) ← issueRequest c "search" filters (Some searchResults.zero);
  match err with
  | Some e => mret (None, Some e)
  | None =>
    match results with
    | None => panic
    | Some r => mret (searchResults.Resources r, None)
    end
  end.

(** One iteration of the [range] loop of [applyLocalFilters]. *)
Definition applyLocalFilter (c : CatalogInfo.t) (filteredResults : slice PublicationInfo.t)
    (publication : resourceInfo) : slice PublicationInfo.t :=
  let '(author, ok) := assertString (publication !! "shortAuthor") in
  if negb ok then filteredResults
  else
    let '(format, ok) := assertString (publication !! "format") in
    let format := if negb ok then "Unknown" else format in
    let '(title, ok) := assertString (publication !! "shortTitle") in
    let title := if negb ok then "Unknown" else title in
    if String.eqb (CatalogInfo.Author c) author
    then append filteredResults (PublicationInfo.mk format title)
    else filteredResults.

(** [applyLocalFilters]: applies the additional, local filters on a page
    of publications; the slice behind the pointer [filteredResults] is
    returned. *)
Definition applyLocalFilters (c : CatalogInfo.t) (pubs : slice resourceInfo)
    (filteredResults : slice PublicationInfo.t) : slice PublicationInfo.t :=
  fold_left (applyLocalFilter c) (elems pubs) filteredResults.

(** How the loop [for currentCount < totalCount] is left: by its
    condition, or by the [return nil, err] in its body. *)
Inductive LoopEnd : Type :=
| LoopExit (currentCount : Z) (filteredPubs : slice PublicationInfo.t)
| LoopReturn (err : Error).

(** The loop that issues requests until all the publications have been
    retrieved; [fuel] bounds the number of iterations that are run.  The
    counts of type [int] are integers without a bound: [currentCount]
    stays below [totalCount] until the last page is added, and a page
    holds no more resources than memory does. *)
Fixpoint retrieveLoop (fuel : nat) (c : CatalogInfo.t) (filters : slice facetFilter)
    (totalCount currentCount : Z) (filteredPubs : slice PublicationInfo.t) : M LoopEnd :=
  if negb (currentCount <? totalCount) then mret (LoopExit currentCount filteredPubs)
  else
    match fuel with
    | O => fun w => (Unfinished, w)
    | S fuel' =>
      '(pubs, err) ← publications c filters;
      match err with
      | Some e => mret (LoopReturn e)
      | None =>
        let currentCount := currentCount + len pubs in
        retrieveLoop fuel' c filters totalCount currentCount
          (applyLocalFilters c pubs filteredPubs)
      end
    end.

(** The filters built for one year. *)
Definition yearFilters (c : CatalogInfo.t) (year : string) : slice facetFilter :=
  Some [ ({[ "facetDisplay" := year; "facetValue" := year; "facetName" := "Year" ]}
            : facetFilter);
         ({[ "facetDisplay" := CatalogInfo.Media c; "facetValue" := CatalogInfo.Media c;
             "facetName" := "Format" ]} : facetFilter) ].

(** How one iteration of the loop [for _, year := range ...] ends: the
    loop goes on with the publications kept so far ([continue], or the
    end of the body), or [PublicationSearch] returns. *)
Inductive YearEnd : Type :=
| NextYear (filteredPubs : slice PublicationInfo.t)
| Return (result : slice PublicationInfo.t * option Error).

(** The body of the loop over the years. *)
Definition yearBody (fuel : nat) (c : CatalogInfo.t) (year : string)
    (filteredPubs : slice PublicationInfo.t) : M YearEnd :=
  let filters := yearFilters c year in
  '(totalCount, err) ← publicationsCount c filters;
  match err with
  | Some e => mret (Return (None, Some e))
  | None =>
    if totalCount =? 0 then mret (NextYear filteredPubs)
    else
      r ← retrieveLoop fuel c filters totalCount 0 filteredPubs;
      match r with
      | LoopReturn e => mret (Return (None, Some e))
      | LoopExit currentCount filteredPubs =>
        if currentCount >? totalCount
        then mret (Return (None, Some (Errorf
               ("Received more publications than expected; expected "
                +:+ sprintf_d totalCount +:+ " currently have "
                +:+ sprintf_d currentCount))))
        else mret (NextYear filteredPubs)
      end
  end.

(** The loop over the years, followed by [return filteredPubs, nil]. *)
Fixpoint rangeYears (fuel : nat) (c : CatalogInfo.t) (years : list string)
    (filteredPubs : slice PublicationInfo.t)
    : M (slice PublicationInfo.t * option Error) :=
  match years with
  | [] => mret (filteredPubs, None)
  | year :: years' =>
    r ← yearBody fuel c year filteredPubs;
    match r with
    | Return result => mret result
    | NextYear filteredPubs => rangeYears fuel c years' filteredPubs
    end
  end.

(** [PublicationSearch]: coordinates the catalog search and the parsing
    of the responses. *)
Definition PublicationSearch (fuel : nat) (c : CatalogInfo.t)
    : M (slice PublicationInfo.t * option Error) :=
  if String.eqb (CatalogInfo.Author c) "" || String.eqb (CatalogInfo.Media c) ""
  then mret (None, Some (Errorf
         ("arguments must be non-null:  author=" +:+ CatalogInfo.Author c
          +:+ ", media=" +:+ CatalogInfo.Media c +:+ "'")))
  else rangeYears fuel c ["unknown"; yearFilter env] None.

End Catalog.

(** *** config.go: the configuration the caller works from *)

(** [DefaultMediaType] is the default media type. *)
Definition DefaultMediaType : string := "Book".

(** [AuthorInfo]: the sub fields of the [Authors] field. *)
Module AuthorInfo.
Record t : Type := mk { Firstname : string; Lastname : string; Media : string }.
End AuthorInfo.

(** [Config]: the high level structure of the YAML config file. *)
Module Config.
Record t : Type := mk { URL : string; Media : string; Authors : list AuthorInfo.t }.
End Config.

(** [MediaTypes]: media type config name to the name used in requests. *)
Definition MediaTypes : gmap string string :=
  list_to_map
    [ ("book", "Book");
      ("electronic resource", "Electronic Resource");
      ("ebook", "eBook");
      ("eaudiobook", "eAudioBook");
      ("book on cd", "Book on CD");
      ("large print", "Large Print");
      ("music cd", "Music CD");
      ("dvd", "DVD");
      ("blu-ray", "Blu-Ray") ].

(** What [ValidateConfig] leaves in a media type field when it succeeds:
    the field is absent (empty), or [convertMediaType] has replaced it by
    a value of [MediaTypes]. *)
Definition convertedMedia (media : string) : Prop :=
  media = "" \/ exists name, MediaTypes !! name = Some media.

(** A configuration as [ValidateConfig] returns it without an error: the
    schema requires the URL and non-empty author names, and the media
    types have been converted. *)
Definition validated (config : Config.t) : Prop :=
  Config.URL config <> "" /\
  convertedMedia (Config.Media config) /\
  Forall (fun a => AuthorInfo.Firstname a <> "" /\ AuthorInfo.Lastname a <> "" /\
                   convertedMedia (AuthorInfo.Media a))
         (Config.Authors config).

End Booklist.

(** ** Package [main] of [cmd/booklist] *)

Module Main.

Import Go Booklist.

Section PrintSearchResults.

Context (env : Env).

(** The default type computed at the top of [printSearchResults]. *)
Definition defaultMediaOf (config : Config.t) : string :=
  let defaultMedia := DefaultMediaType in
  if String.eqb (Config.Media config) "" then Config.Media config else defaultMedia.

(** The [CatalogInfo] built for one author in the loop of
    [printSearchResults]. *)
Definition catalogInfoFor (config : Config.t) (defaultMedia : string)
    (authorInfo : AuthorInfo.t) : CatalogInfo.t :=
  let authorName :=
    AuthorInfo.Lastname authorInfo +:+ ", " +:+ AuthorInfo.Firstname authorInfo in
  let media := defaultMedia in
  let media :=
    if negb (String.eqb (AuthorInfo.Media authorInfo) "")
    then AuthorInfo.Media authorInfo else media in
  CatalogInfo.mk (Config.URL config) authorName media.

(** The loop over the authors.  What the function writes to standard
    output (a heading per author and a line per publication) is not
    modelled; the searches and the returned error are. *)
Fixpoint rangeAuthors (fuel : nat) (config : Config.t) (defaultMedia : string)
    (authors : list AuthorInfo.t) : M (option Error) :=
  match authors with
  | [] => mret None
  | authorInfo :: authors' =>
    let c := catalogInfoFor config defaultMedia authorInfo in
    '(results, err) ← PublicationSearch env fuel c;
    match err with
    | Some e => mret (Some e)
    | None => rangeAuthors fuel config defaultMedia authors'
    end
  end.

(** [printSearchResults]: retrieves the author publications for the
    current year. *)
Definition printSearchResults (fuel : nat) (config : Config.t) : M (option Error) :=
  rangeAuthors fuel config (defaultMediaOf config) (Config.Authors config).

(** The media type each author of the configuration is searched with. *)
Definition searchedMedia (config : Config.t) : list string :=
  map (fun a => CatalogInfo.Media (catalogInfoFor config (defaultMediaOf config) a))
      (Config.Authors config).

End PrintSearchResults.

End Main.

(** ** The vocabulary of the properties *)

Module Run.

Import Go Booklist.

(** The publication the local filter keeps for a raw resource, in the
    words of the specification: nothing without an author field, nothing
    when the author is not the one searched for, and otherwise the format
    and the title, each replaced by "Unknown" when it is missing. *)
Definition stringField (publication : resourceInfo) (key default : string) : string :=
  match publication !! key with
  | Some (VString s) => s
  | _ => default
  end.

Definition keep (c : CatalogInfo.t) (publication : resourceInfo)
    : option PublicationInfo.t :=
  match publication !! "shortAuthor" with
  | Some (VString author) =>
    if decide (author = CatalogInfo.Author c)
    then Some (PublicationInfo.mk (stringField publication "format" "Unknown")
                                  (stringField publication "shortTitle" "Unknown"))
    else None
  | _ => None
  end.

Section WithEnv.

Context (env : Env).

(** [generate n]: [n] successive calls of the token generator. *)
Fixpoint generate (n : nat) : M (list string) :=
  match n with
  | O => mret []
  | S n' =>
    t ← makeTimestamp env;
    ts ← generate n';
    mret (t :: ts)
  end.

(** The values of the tokens of [n] successive calls, the first of which
    finds the counter at [increment] and makes the clock reading number
    [reads]. *)
Fixpoint tokenValues (n : nat) (increment : Z) (reads : nat) : list Z :=
  match n with
  | O => []
  | S n' =>
    timestampValue (now env reads) (wrap64 (increment + 1))
      :: tokenValues n' (wrap64 (increment + 1)) (S reads)
  end.

(** The clock never runs backwards, and its readings are [int64] values
    as [UnixNano] returns them. *)
Definition steadyClock : Prop :=
  (forall i j, (i <= j)%nat -> now env i <= now env j) /\ (forall i, int64 (now env i)).

(** The token [makeTimestamp] hands out in world [w]. *)
Definition tokenAt (w : World) : string :=
  sprintf_d (timestampValue (now env (clockReads w)) (wrap64 (timestampIncrement w + 1))).

(** The request [issueRequest] builds in world [w]. *)
Definition requestAt (c : CatalogInfo.t) (endpt : string) (filters : slice facetFilter)
    (w : World) : Request :=
  mkRequest "POST" (CatalogInfo.URL c +:+ endpt)
    (URL.toString (URL.withRawQuery (urlParsed env (CatalogInfo.URL c +:+ endpt))
                     (Values_Encode [("_", tokenAt w)])))
    [("_", tokenAt w)] (requestHeader c)
    (searchFilter.mk true None maxHitsPerPage "NewlyAdded" 0 "" filters
       (CatalogInfo.Author c)).

(** The exchange that request leads to, and the world after it. *)
Definition exchangeAt (c : CatalogInfo.t) (endpt : string) (filters : slice facetFilter)
    (w : World) : Exchange :=
  let req := requestAt c endpt filters w in (req, catalog env (log w) req).

Definition worldAfter (ex : Exchange) (w : World) : World :=
  mkWorld (wrap64 (timestampIncrement w + 1)) (S (clockReads w)) (log w ++ [ex]).

(** What [issueRequest] returns for an exchange. *)
Definition replyResult {T} `{Target T} (c : CatalogInfo.t) (target : option T)
    (ex : Exchange) : option T * option Error :=
  match snd ex with
  | DoFailed cause => (target, Some (PostFailed (fst ex) cause))
  | Response StatusCode body =>
    if negb (StatusCode =? 200) then (target, Some (PostStatus (fst ex) StatusCode))
    else
      match decode body with
      | DecodeError cause =>
        (target, Some (DecodeFailed (CatalogInfo.URL c) (snd ex) cause))
      | DecodedTo p => (p, None)
      end
  end.

(** What [publicationsCount] makes of the count exchange. *)
Definition countResult (c : CatalogInfo.t) (ex : Exchange) : Outcome (Z * option Error) :=
  match replyResult c (Some hitResults.zero) ex with
  | (_, Some e) => Returns (0, Some e)
  | (None, None) => Panics
  | (Some r, None) =>
    if negb (hitResults.Success r)
    then Returns (0, Some (Errorf
           "failed to retrieve total number of matches on author, media and year"))
    else Returns (hitResults.Count r, None)
  end.

(** What [publications] makes of a fetch exchange. *)
Definition fetchResult (c : CatalogInfo.t) (ex : Exchange)
    : Outcome (slice resourceInfo * option Error) :=
  match replyResult c (Some searchResults.zero) ex with
  | (_, Some e) => Returns (None, Some e)
  | (None, None) => Panics
  | (Some r, None) => Returns (searchResults.Resources r, None)
  end.

(** [Issued c w exs w']: starting in world [w], the search for [c] issues
    the requests of [exs], one after the other, and ends in world [w'].
    Each request goes to one of the two endpoints with the filters of
    one of the two years, is built in the world its predecessor left, and
    is answered by the catalog. *)
Inductive Issued (c : CatalogInfo.t) : World -> list Exchange -> World -> Prop :=
| Issued_nil w : Issued c w [] w
| Issued_cons w endpt year exs w' :
    endpt = "search/count" \/ endpt = "search" ->
    year = "unknown" \/ year = yearFilter env ->
    urlError env (CatalogInfo.URL c +:+ endpt) = None ->
    Issued c (worldAfter (exchangeAt c endpt (yearFilters c year) w) w) exs w' ->
    Issued c w (exchangeAt c endpt (yearFilters c year) w :: exs) w'.

End WithEnv.

(** A count exchange and a fetch exchange of the bucket [year]. *)
Definition isCount (c : CatalogInfo.t) (year : string) (ex : Exchange) : Prop :=
  rawurl (fst ex) = CatalogInfo.URL c +:+ "search/count" /\
  searchFilter.FacetFilters (payload (fst ex)) = yearFilters c year.

Definition isFetch (c : CatalogInfo.t) (year : string) (ex : Exchange) : Prop :=
  rawurl (fst ex) = CatalogInfo.URL c +:+ "search" /\
  searchFilter.FacetFilters (payload (fst ex)) = yearFilters c year.

#[export] Instance isCount_dec c year ex : Decision (isCount c year ex).
Proof. unfold isCount. apply _. Defined.

(** The count endpoint reports the total [n]: a 200 response that decodes
    to a result with the success flag set. *)
Definition reportsTotal (ex : Exchange) (n : Z) : Prop :=
  exists body r, snd ex = Response 200 body /\
    asHitResults body = DecodedTo (Some r) /\
    hitResults.Success r = true /\ hitResults.Count r = n.

(** The page a fetch exchange delivers: the resources of a 200 response
    that decodes; nothing otherwise. *)
Definition pageOf (ex : Exchange) : slice resourceInfo :=
  match snd ex with
  | Response 200 body =>
    match asSearchResults body with
    | DecodedTo (Some r) => searchResults.Resources r
    | _ => None
    end
  | _ => None
  end.

(** The publications of a page that pass the local filter, in the order
    of the page. *)
Definition keptOfPage (c : CatalogInfo.t) (ex : Exchange) : list PublicationInfo.t :=
  omap (keep c) (elems (pageOf ex)).

(** A URL without a query and without a fragment that [String] writes
    back as the string [s]. *)
Definition plainURL (s : string) : URL.t := URL.mk s false "" "".

(** A request as the search for [c] sends it: a POST built from the
    catalog URL followed by one of the two endpoints, to the URL that
    [url.Parse] makes of that string with the cache-bust token as its
    only query parameter, and with the fixed search filter around the two
    facet filters of a year bucket. *)
Definition sentBySearch (env : Env) (c : CatalogInfo.t) (req : Request) : Prop :=
  exists endpt year token,
    (endpt = "search/count" \/ endpt = "search") /\
    (year = "unknown" \/ year = yearFilter env) /\
    method req = "POST" /\
    rawurl req = CatalogInfo.URL c +:+ endpt /\
    urlString req
      = URL.toString (URL.withRawQuery (urlParsed env (CatalogInfo.URL c +:+ endpt))
                        ("_=" +:+ token)) /\
    query req = [("_", token)] /\
    header req = requestHeader c /\
    payload req =
      searchFilter.mk true None 30 "NewlyAdded" 0 ""
        (Some [ {[ "facetDisplay" := year; "facetValue" := year; "facetName" := "Year" ]};
                {[ "facetDisplay" := CatalogInfo.Media c;
                   "facetValue" := CatalogInfo.Media c; "facetName" := "Format" ]} ])
        (CatalogInfo.Author c).

(** The statement that a request targets the catalog URL followed by the
    endpoint path, with the token as its single query parameter. *)
Definition targetsEndpoint (c : CatalogInfo.t) (endpt : string) (req : Request) : Prop :=
  exists token,
    query req = [("_", token)] /\
    urlString req = (CatalogInfo.URL c +:+ endpt) +:+ "?_=" +:+ token.

(** The statement that two successive calls of the token generator, the
    first of them made in the world [w], return different tokens. *)
Definition successiveTokensDiffer (env : Env) (w : World) : Prop :=
  forall t1 w1 t2 w2,
    makeTimestamp env w = (Returns t1, w1) ->
    makeTimestamp env w1 = (Returns t2, w2) ->
    t1 <> t2.

(** No fetch request is answered by a page without resources. *)
Definition noEmptyPage (env : Env) (c : CatalogInfo.t) : Prop :=
  forall h req body r,
    rawurl req = CatalogInfo.URL c +:+ "search" ->
    catalog env h req = Response 200 body ->
    asSearchResults body = DecodedTo (Some r) ->
    1 <= len (searchResults.Resources r).

(** The list of a returned pair; a run that does not return has none. *)
Definition returnedList (o : Outcome (slice PublicationInfo.t * option Error))
    : slice PublicationInfo.t :=
  match o with
  | Returns (res, _) => res
  | _ => Some []
  end.

(** The cache-bust tokens that the requests of [exs] carry. *)
Definition tokensOf (exs : list Exchange) : list string :=
  flat_map (fun ex => map snd (query (fst ex))) exs.

(** The number of requests to the count endpoint among [exs]. *)
Definition countRequests (c : CatalogInfo.t) (exs : list Exchange) : nat :=
  length (filter (fun ex => rawurl (fst ex) = CatalogInfo.URL c +:+ "search/count") exs).

(** The statement that a search issues exactly one count request for each
    of the two buckets. *)
Definition oneCountRequestPerBucket (env : Env) (fuel : nat) (c : CatalogInfo.t)
    (w : World) : Prop :=
  let exs := drop (length (log w)) (log (snd (PublicationSearch env fuel c w))) in
  forall year, year = "unknown" \/ year = yearFilter env ->
    length (filter (isCount c year) exs) = 1%nat.

(** The requests of one year bucket: none at all, or one count request
    followed by fetch requests, and no fetch request when the count
    endpoint reported a total of 0. *)
Definition bucketRequests (c : CatalogInfo.t) (year : string) (exs : list Exchange) : Prop :=
  exs = [] \/
  exists cnt fetches,
    exs = cnt :: fetches /\ isCount c year cnt /\ Forall (isFetch c year) fetches /\
    (reportsTotal cnt 0 -> fetches = []).

End Run.

(** ** Concrete catalogs, queries and configurations *)

Module Scenarios.

Import Go Booklist.

Definition baseURL : string := "https://catalog.library.loudoun.gov/".

Definition grafton : CatalogInfo.t := CatalogInfo.mk baseURL "Grafton, Sue" "Book".

(** Raw resources as the catalog returns them. *)
Definition resource (author format title : string) : resourceInfo :=
  {[ "shortAuthor" := VString author; "format" := VString format;
     "shortTitle" := VString title ]}.

Definition xBook : resourceInfo := resource "Grafton, Sue" "Book" "X".
Definition yLargePrint : resourceInfo := resource "Grafton, Sue" "Large Print" "Y is for yesterday".
Definition cookbook : resourceInfo :=
  {[ "format" := VString "Book";
     "shortTitle" := VString "The Mystery Writers of America cookbook" ]}.
Definition lowerCase : resourceInfo := resource "grafton, sue" "Book" "X".
Definition coAuthored : resourceInfo := resource "Grafton, Sue; King, Stephen" "Book" "Z".
Definition untitled : resourceInfo :=
  {[ "shortAuthor" := VString "Grafton, Sue"; "format" := VNumber "7" ]}.

(** The bodies [{"success":s,"totalHits":n}] and [{"resources":[...]}];
    each decodes into the other shape as well, leaving it at its zero
    value. *)
Definition hitsBody (success : bool) (totalHits : Z) : Body :=
  mkBody (DecodedTo (Some (hitResults.mk success totalHits)))
         (DecodedTo (Some searchResults.zero)).

Definition pageBody (resources : list resourceInfo) : Body :=
  mkBody (DecodedTo (Some hitResults.zero))
         (DecodedTo (Some (searchResults.mk (Some resources)))).

(** The year a request filters on. *)
Definition requestYear (req : Request) : string :=
  match searchFilter.FacetFilters (payload req) with
  | Some (f :: _) => default "" (f !! "facetValue")
  | _ => ""
  end.

(** A catalog that answers by endpoint and year, whatever came before. *)
Definition scripted (counts pages : string -> Reply) : list Exchange -> Request -> Reply :=
  fun _ req =>
    if String.eqb (rawurl req) (baseURL +:+ "search/count")
    then counts (requestYear req)
    else pages (requestYear req).

(** A clock that stands still in June 2024. *)
Definition june2024 : nat -> Z := fun _ => 1718000000000000000.

(** The string before the first [sep] and, when there is one, the string
    after it. *)
Fixpoint cut (sep : Ascii.ascii) (s : string) : string * option string :=
  match s with
  | EmptyString => (EmptyString, None)
  | String a s' =>
    if Ascii.eqb a sep then (EmptyString, Some s')
    else let (before, after) := cut sep s' in (String a before, after)
  end.

(** What [url.Parse] makes of a string whose scheme, authority, path and
    fragment [String] writes back as they are: the fragment is what
    follows the first "#" (character 35), and of what precedes it the
    query is what follows the first "?" (character 63); a "?" with
    nothing after it sets [ForceQuery]. *)
Definition splitURL (rawurl : string) : URL.t :=
  let (u, frag) := cut (Ascii.ascii_of_nat 35) rawurl in
  let (rest, rawQuery) := cut (Ascii.ascii_of_nat 63) u in
  URL.mk rest
    (match rawQuery with Some EmptyString => true | _ => false end)
    (default "" rawQuery) (default "" frag).

Definition envOf (counts pages : string -> Reply) : Env :=
  mkEnv "2024" june2024 (fun _ => None) splitURL (scripted counts pages).

(** Nothing of unknown year, two publications of 2024 of which one is by
    another author. *)
Definition envTwoHits : Env :=
  envOf (fun year => Response 200 (hitsBody true (if String.eqb year "unknown" then 0 else 2)))
        (fun _ => Response 200 (pageBody [xBook; resource "King, Stephen" "Book" "It"])).

(** The catalog cannot be reached. *)
Definition envDown : Env :=
  envOf (fun _ => DoFailed "connection refused") (fun _ => DoFailed "connection refused").

(** One publication of unknown year; the count for 2024 fails. *)
Definition envCountFails : Env :=
  envOf (fun year => Response 200 (hitsBody (String.eqb year "unknown") 1))
        (fun _ => Response 200 (pageBody [xBook])).

(** One publication of unknown year; for 2024 the count says one and the
    page holds two. *)
Definition envTooMany : Env :=
  envOf (fun _ => Response 200 (hitsBody true 1))
        (fun year => Response 200
           (pageBody (if String.eqb year "unknown" then [xBook] else [xBook; yLargePrint]))).

(** Three publications per bucket in pages of two and of one. *)
Definition envPages : Env :=
  mkEnv "2024" june2024 (fun _ => None) splitURL
    (fun h req =>
       if String.eqb (rawurl req) (baseURL +:+ "search/count")
       then Response 200 (hitsBody true 3)
       else Response 200
              (pageBody (if Nat.even (length h) then [yLargePrint]
                         else [xBook; lowerCase]))).

(** Every count reports failure. *)
Definition envNoSuccess : Env :=
  envOf (fun _ => Response 200 (hitsBody false 0)) (fun _ => Response 200 (pageBody [xBook])).

(** A clock that is set back by one millisecond after its first reading. *)
Definition envClockSetBack : Env :=
  mkEnv "2024"
    (fun k => match k with O => 1718000000001000000 | _ => 1718000000000000000 end)
    (fun _ => None) splitURL (scripted (fun _ => DoFailed "") (fun _ => DoFailed "")).

(** The count says one and every page is empty. *)
Definition envEmptyPages : Env :=
  envOf (fun _ => Response 200 (hitsBody true 1)) (fun _ => Response 200 (pageBody [])).

(** Configurations as [ValidateConfig] returns them. *)
Definition king : AuthorInfo.t := AuthorInfo.mk "Stephan" "King" "".

Definition configEBook : Config.t := Config.mk baseURL "eBook" [king].

Definition configNoDefault : Config.t := Config.mk baseURL "" [king].

End Scenarios.

(** ** The runs of a search, request by request *)

Module Trace.

Import Go Booklist Run.

(** The error [issueRequest] returns for an exchange, if any: the
    transport failed, the status is not 200, or the body does not decode
    into the target of the exchange's endpoint. *)
Definition exchangeError (c : CatalogInfo.t) (ex : Exchange) : option Error :=
  if decide (rawurl (fst ex) = CatalogInfo.URL c +:+ "search/count")
  then snd (replyResult c (Some hitResults.zero) ex)
  else snd (replyResult c (Some searchResults.zero) ex).

(** The body of a 200 response is the JSON literal [null] for the target
    of its endpoint: decoding succeeds and leaves a nil pointer. *)
Definition nullBody (c : CatalogInfo.t) (ex : Exchange) : Prop :=
  exists body, snd ex = Response 200 body /\
    if decide (rawurl (fst ex) = CatalogInfo.URL c +:+ "search/count")
    then asHitResults body = DecodedTo None
    else asSearchResults body = DecodedTo None.

(** How the search ends at an exchange, when it ends there: with the
    error [publicationsCount] or [publications] returns for it, or with
    the panic of dereferencing the nil pointer the decoder left. *)
Definition endOf (c : CatalogInfo.t) (ex : Exchange)
    : option (Outcome (slice PublicationInfo.t * option Error)) :=
  if decide (rawurl (fst ex) = CatalogInfo.URL c +:+ "search/count")
  then match countResult c ex with
       | Returns (_, Some e) => Some (Returns (None, Some e))
       | Panics => Some Panics
       | _ => None
       end
  else match fetchResult c ex with
       | Returns (_, Some e) => Some (Returns (None, Some e))
       | Panics => Some Panics
       | _ => None
       end.

(** The number of resources in the pages of fetch exchanges. *)
Definition retrieved (exs : list Exchange) : Z :=
  foldr (fun ex n => len (pageOf ex) + n) 0 exs.

Section WithEnv.

Context (env : Env).

(** The runs of the loop [for currentCount < totalCount]: the fetch
    exchanges of a run and how it ends, from the current count and the
    publications kept so far. *)
Inductive LoopRun (c : CatalogInfo.t) (year : string) (totalCount : Z)
  : Z -> slice PublicationInfo.t -> list Exchange -> Outcome LoopEnd -> Prop :=
| LoopRun_exit currentCount filteredPubs :
    totalCount <= currentCount ->
    LoopRun c year totalCount currentCount filteredPubs []
      (Returns (LoopExit currentCount filteredPubs))
| LoopRun_unparsed currentCount filteredPubs cause :
    currentCount < totalCount ->
    urlError env (CatalogInfo.URL c +:+ "search") = Some cause ->
    LoopRun c year totalCount currentCount filteredPubs []
      (Returns (LoopReturn (ParseFailed cause)))
| LoopRun_error currentCount filteredPubs ex pubs e :
    currentCount < totalCount ->
    isFetch c year ex ->
    fetchResult c ex = Returns (pubs, Some e) ->
    LoopRun c year totalCount currentCount filteredPubs [ex] (Returns (LoopReturn e))
| LoopRun_panic currentCount filteredPubs ex :
    currentCount < totalCount ->
    isFetch c year ex ->
    fetchResult c ex = Panics ->
    LoopRun c year totalCount currentCount filteredPubs [ex] Panics
| LoopRun_page currentCount filteredPubs ex pubs exs o :
    currentCount < totalCount ->
    isFetch c year ex ->
    fetchResult c ex = Returns (pubs, None) ->
    LoopRun c year totalCount (currentCount + len pubs)
      (applyLocalFilters c pubs filteredPubs) exs o ->
    LoopRun c year totalCount currentCount filteredPubs (ex :: exs) o
| LoopRun_unfinished currentCount filteredPubs :
    currentCount < totalCount ->
    LoopRun c year totalCount currentCount filteredPubs [] Unfinished.

(** What the body of the year loop does once the loop over the pages has
    ended. *)
Definition afterLoop (totalCount : Z) (r : Outcome LoopEnd) : Outcome YearEnd :=
  match r with
  | Returns (LoopReturn e) => Returns (Return (None, Some e))
  | Returns (LoopExit currentCount filteredPubs) =>
    if currentCount >? totalCount
    then Returns (Return (None, Some (Errorf
           ("Received more publications than expected; expected "
            +:+ sprintf_d totalCount +:+ " currently have "
            +:+ sprintf_d currentCount))))
    else Returns (NextYear filteredPubs)
  | Panics => Panics
  | Unfinished => Unfinished
  end.

(** The runs of the body of the year loop. *)
Inductive BucketRun (c : CatalogInfo.t) (year : string) (filteredPubs : slice PublicationInfo.t)
  : list Exchange -> Outcome YearEnd -> Prop :=
| BucketRun_unparsed cause :
    urlError env (CatalogInfo.URL c +:+ "search/count") = Some cause ->
    BucketRun c year filteredPubs [] (Returns (Return (None, Some (ParseFailed cause))))
| BucketRun_error cnt n e :
    isCount c year cnt ->
    countResult c cnt = Returns (n, Some e) ->
    BucketRun c year filteredPubs [cnt] (Returns (Return (None, Some e)))
| BucketRun_panic cnt :
    isCount c year cnt ->
    countResult c cnt = Panics ->
    BucketRun c year filteredPubs [cnt] Panics
| BucketRun_none cnt :
    isCount c year cnt ->
    countResult c cnt = Returns (0, None) ->
    BucketRun c year filteredPubs [cnt] (Returns (NextYear filteredPubs))
| BucketRun_pages cnt totalCount fetches r :
    isCount c year cnt ->
    countResult c cnt = Returns (totalCount, None) ->
    totalCount <> 0 ->
    LoopRun c year totalCount 0 filteredPubs fetches r ->
    BucketRun c year filteredPubs (cnt :: fetches) (afterLoop totalCount r).

(** How [PublicationSearch] ends when the year loop ends with [r]. *)
Definition afterYears (r : Outcome YearEnd)
    : Outcome (slice PublicationInfo.t * option Error) :=
  match r with
  | Returns (NextYear filteredPubs) => Returns (filteredPubs, None)
  | Returns (Return result) => Returns result
  | Panics => Panics
  | Unfinished => Unfinished
  end.

(** The runs of [PublicationSearch] for valid arguments: the body of the
    year loop runs for the unknown year, and when it does not return, for
    the current year. *)
Inductive SearchRun (c : CatalogInfo.t)
  : list Exchange -> Outcome (slice PublicationInfo.t * option Error) -> Prop :=
| SearchRun_first seg1 r1 :
    BucketRun c "unknown" None seg1 r1 ->
    (forall filteredPubs, r1 <> Returns (NextYear filteredPubs)) ->
    SearchRun c seg1 (afterYears r1)
| SearchRun_both seg1 filteredPubs seg2 r2 :
    BucketRun c "unknown" None seg1 (Returns (NextYear filteredPubs)) ->
    BucketRun c (yearFilter env) filteredPubs seg2 r2 ->
    SearchRun c (seg1 ++ seg2) (afterYears r2).

(** Why a search for a valid query returns an error, in terms of the
    exchanges it has made: [url.Parse] rejects the URL of an endpoint;
    the last request fails (transport, status or decoding); the last
    count response reports failure; or the pages of the last bucket hold
    more resources than its count response announced, the last page
    having taken the count above the total. *)
Inductive FailsBy (c : CatalogInfo.t) : list Exchange -> Error -> Prop :=
| FailsBy_parse exs endpt cause :
    endpt = "search/count" \/ endpt = "search" ->
    urlError env (CatalogInfo.URL c +:+ endpt) = Some cause ->
    FailsBy c exs (ParseFailed cause)
| FailsBy_request pre ex e :
    exchangeError c ex = Some e ->
    FailsBy c (pre ++ [ex]) e
| FailsBy_count pre ex body r :
    rawurl (fst ex) = CatalogInfo.URL c +:+ "search/count" ->
    snd ex = Response 200 body ->
    asHitResults body = DecodedTo (Some r) ->
    hitResults.Success r = false ->
    FailsBy c (pre ++ [ex])
      (Errorf "failed to retrieve total number of matches on author, media and year")
| FailsBy_mismatch pre cnt fetches totalCount :
    rawurl (fst cnt) = CatalogInfo.URL c +:+ "search/count" ->
    reportsTotal cnt totalCount ->
    Forall (fun ex => rawurl (fst ex) = CatalogInfo.URL c +:+ "search") fetches ->
    totalCount < retrieved fetches ->
    (forall init last, fetches = init ++ [last] -> retrieved init < totalCount) ->
    FailsBy c (pre ++ cnt :: fetches)
      (Errorf ("Received more publications than expected; expected "
               +:+ sprintf_d totalCount +:+ " currently have "
               +:+ sprintf_d (retrieved fetches))).

End WithEnv.

End Trace.

(** ** config.go: the media types of a configuration *)

Module BooklistConfig.

Import Go Booklist.

(** What [strings.ToLower] does to a string of ASCII characters: the
    letters A to Z are replaced by a to z. *)
Definition lowerByte (a : Ascii.ascii) : Ascii.ascii :=
  let n := Ascii.N_of_ascii a in
  if (65 <=? n)%N && (n <=? 90)%N then Ascii.ascii_of_N (n + 32) else a.

Fixpoint asciiLower (s : string) : string :=
  match s with
  | EmptyString => EmptyString
  | String a s' => String (lowerByte a) (asciiLower s')
  end.

Fixpoint isASCII (s : string) : bool :=
  match s with
  | EmptyString => true
  | String a s' => (Ascii.N_of_ascii a <? 128)%N && isASCII s'
  end.

Section MediaTypes.

(** [strings.ToLower], which maps every Unicode letter to its lower
    case. *)
Context (ToLower : string -> string).

(** [mediaFormatChecker.IsFormat]: the logic that validates the custom
    format type 'media'. *)
Definition IsFormat (input : string) : bool :=
  if String.eqb input "" then true
  else
    match MediaTypes !! ToLower input with
    | Some _ => true
    | None => false
    end.

(** [convertMediaType]: converts the media type fields to the values
    needed by the requests.  Indexing [MediaTypes] with a key it does not
    hold yields the empty string. *)
Definition convertMediaType (config : Config.t) : Config.t :=
  let Media :=
    if negb (String.eqb (Config.Media config) "")
    then default "" (MediaTypes !! ToLower (Config.Media config))
    else Config.Media config in
  let Authors :=
    map (fun a =>
           let lcMediaType := ToLower (AuthorInfo.Media a) in
           if negb (String.eqb lcMediaType "")
           then AuthorInfo.mk (AuthorInfo.Firstname a) (AuthorInfo.Lastname a)
                  (default "" (MediaTypes !! lcMediaType))
           else a)
        (Config.Authors config) in
  Config.mk (Config.URL config) Media Authors.

End MediaTypes.

(** The names under which [MediaTypes] knows the media types. *)
Definition mediaTypeNames : list string :=
  [ "book"; "electronic resource"; "ebook"; "eaudiobook"; "book on cd";
    "large print"; "music cd"; "dvd"; "blu-ray" ].

End BooklistConfig.

(** ** Package [unicode/utf8]: counting the runes of a string *)

Module Utf8.

(** The byte [s[i]]; 0 beyond the end of the string, where the program
    does not read. *)
Definition byteAt (s : string) (i : nat) : N :=
  match String.get i s with
  | Some a => Ascii.N_of_ascii a
  | None => 0%N
  end.

(** The string [s[n:]]. *)
Fixpoint dropBytes (n : nat) (s : string) : string :=
  match n, s with
  | O, _ => s
  | S n', String _ s' => dropBytes n' s'
  | S _, EmptyString => EmptyString
  end.

(** The tables [first] and [acceptRanges] for a leading byte that is not
    ASCII: the size of the encoding and the range of its second byte, or
    nothing for a byte that starts no encoding. *)
Definition first (c : N) : option (nat * N * N) :=
  if (c <? 0xC2)%N then None
  else if (c <? 0xE0)%N then Some (2%nat, 0x80%N, 0xBF%N)
  else if (c =? 0xE0)%N then Some (3%nat, 0xA0%N, 0xBF%N)
  else if (c <? 0xED)%N then Some (3%nat, 0x80%N, 0xBF%N)
  else if (c =? 0xED)%N then Some (3%nat, 0x80%N, 0x9F%N)
  else if (c <? 0xF0)%N then Some (3%nat, 0x80%N, 0xBF%N)
  else if (c =? 0xF0)%N then Some (4%nat, 0x90%N, 0xBF%N)
  else if (c <? 0xF4)%N then Some (4%nat, 0x80%N, 0xBF%N)
  else if (c =? 0xF4)%N then Some (4%nat, 0x80%N, 0x8F%N)
  else None.

(** The bounds [locb] and [hicb] of a continuation byte. *)
Definition locb : N := 0x80.
Definition hicb : N := 0xBF.

(** One iteration of the loop of [RuneCountInString] on the rest [s] of
    the string, which is not empty: the number of bytes by which the
    index advances. *)
Definition runeSize (s : string) : nat :=
  let c := byteAt s 0 in
  if (c <? 0x80)%N then 1%nat
  else
    match first c with
    | None => 1%nat
    | Some (size, lo, hi) =>
      if (String.length s <? size)%nat then 1%nat
      else
        let c1 := byteAt s 1 in
        if (c1 <? lo)%N || (hi <? c1)%N then 1%nat
        else if (size =? 2)%nat then size
        else
          let c2 := byteAt s 2 in
          if (c2 <? locb)%N || (hicb <? c2)%N then 1%nat
          else if (size =? 3)%nat then size
          else
            let c3 := byteAt s 3 in
            if (c3 <? locb)%N || (hicb <? c3)%N then 1%nat else size
    end.

(** The loop of [RuneCountInString]: [s] is the rest of the string and
    [n] the number of runes counted so far; every iteration advances by
    at least one byte, so that as many iterations as the string has
    bytes are enough. *)
Fixpoint runeCountLoop (fuel : nat) (s : string) (n : nat) : nat :=
  match fuel with
  | O => n
  | S fuel' =>
    match s with
    | EmptyString => n
    | _ => runeCountLoop fuel' (dropBytes (runeSize s) s) (S n)
    end
  end.

(** [utf8.RuneCountInString]: the number of runes in [s]; a byte that is
    no part of a valid encoding counts as one rune. *)
Definition RuneCountInString (s : string) : nat :=
  runeCountLoop (String.length s) s 0.

End Utf8.

(** ** Package [main]: what [printSearchResults] writes *)

Module Stdout.

Import Go Booklist Main Utf8.

Definition newline : string := String (Ascii.ascii_of_nat 10) EmptyString.

Fixpoint spaces (n : nat) : string :=
  match n with
  | O => EmptyString
  | S n' => String (Ascii.ascii_of_nat 32) (spaces n')
  end.

(** The verb [%-*s] of [fmt]: the string, followed by as many spaces as
    its number of runes is short of the width; a width of 0 is no width.
    [fmt] takes no width above 10^6 from an argument and writes
    "%!(BADWIDTH)" in its place; the model leaves this out, so that it
    follows [fmt] as long as no title is longer than 10^6 runes. *)
Definition padRight (width : nat) (s : string) : string :=
  if (width =? 0)%nat then s
  else s +:+ spaces (width - RuneCountInString s).

(** [fmt.Printf("%s -- %ss:\n", authorName, media)]. *)
Definition heading (c : CatalogInfo.t) : string :=
  CatalogInfo.Author c +:+ " -- " +:+ CatalogInfo.Media c +:+ "s:" +:+ newline.

(** The loop that finds [maxWidth]. *)
Definition maxWidthOf (results : slice PublicationInfo.t) : nat :=
  fold_left (fun maxWidth info =>
               let l := String.length (PublicationInfo.Media info) in
               if (maxWidth <? l)%nat then l else maxWidth)
            (elems results) 0%nat.

(** [fmt.Printf("  [%-*s]  %s\n", maxWidth, pubInfo.Media,
    pubInfo.Publication)]. *)
Definition resultLine (maxWidth : nat) (pubInfo : PublicationInfo.t) : string :=
  "  [" +:+ padRight maxWidth (PublicationInfo.Media pubInfo) +:+ "]  "
  +:+ PublicationInfo.Publication pubInfo +:+ newline.

(** The lines printed for the results of one author. *)
Definition resultLines (results : slice PublicationInfo.t) : list string :=
  let maxWidth := maxWidthOf results in
  map (resultLine maxWidth) (elems results).

Section PrintSearchResults.

Context (env : Env).

(** The loop over the authors of [printSearchResults], with the writes
    to standard output so far in [stdout], one entry per call of
    [fmt.Printf]. *)
Fixpoint rangeAuthors (fuel : nat) (config : Config.t) (defaultMedia : string)
    (authors : list AuthorInfo.t) (stdout : list string) (w : World)
    : Outcome (option Error) * World * list string :=
  match authors with
  | [] => (Returns None, w, stdout)
  | authorInfo :: authors' =>
    let c := catalogInfoFor config defaultMedia authorInfo in
    let stdout := stdout ++ [heading c] in
    match PublicationSearch env fuel c w with
    | (Returns (results, Some err), w') => (Returns (Some err), w', stdout)
    | (Returns (results, None), w') =>
      match results with
      | None => rangeAuthors fuel config defaultMedia authors' stdout w'
      | Some _ =>
        rangeAuthors fuel config defaultMedia authors' (stdout ++ resultLines results) w'
      end
    | (Panics, w') => (Panics, w', stdout)
    | (Unfinished, w') => (Unfinished, w', stdout)
    end
  end.

(** [printSearchResults]: retrieves and prints the author publications
    for the current year. *)
Definition printSearchResults (fuel : nat) (config : Config.t) (w : World)
    : Outcome (option Error) * World * list string :=
  rangeAuthors fuel config (defaultMediaOf config) (Config.Authors config) [] w.

(** The authors of [authors] have been searched one after the other,
    each search returning a list and no error: the lists, and the worlds
    before and after. *)
Inductive Searched (fuel : nat) (config : Config.t)
  : list AuthorInfo.t -> World -> list (slice PublicationInfo.t) -> World -> Prop :=
| Searched_nil w : Searched fuel config [] w [] w
| Searched_cons authorInfo authors w results w1 rest w' :
    PublicationSearch env fuel
      (catalogInfoFor config (defaultMediaOf config) authorInfo) w
      = (Returns (results, None), w1) ->
    Searched fuel config authors w1 rest w' ->
    Searched fuel config (authorInfo :: authors) w (results :: rest) w'.

(** What is written for an author whose search has returned [results]. *)
Definition written (config : Config.t) (authorInfo : AuthorInfo.t)
    (results : slice PublicationInfo.t) : list string :=
  heading (catalogInfoFor config (defaultMediaOf config) authorInfo)
    :: resultLines results.

End PrintSearchResults.

End Stdout.

(** ** Further catalogs and configurations *)

Module FurtherScenarios.

Import Go Booklist Scenarios.

(** The count says one and the page request is answered with status 503. *)
Definition envFetchFails : Env :=
  envOf (fun _ => Response 200 (hitsBody true 1)) (fun _ => Response 503 (pageBody [])).

(** The body [null]. *)
Definition nullDocument : Body := mkBody (DecodedTo None) (DecodedTo None).

(** The count says one and the page request is answered with [null]. *)
Definition envNull : Env :=
  envOf (fun _ => Response 200 (hitsBody true 1)) (fun _ => Response 200 nullDocument).

(** The count says minus one. *)
Definition envNegative : Env :=
  envOf (fun _ => Response 200 (hitsBody true (-1)))
        (fun _ => Response 200 (pageBody [xBook])).

(** A configuration as it is parsed, before the media types are
    converted. *)
Definition configParsed : Config.t :=
  Config.mk baseURL "EBOOK"
    [ AuthorInfo.mk "Sue" "Grafton" "large PRINT";
      AuthorInfo.mk "Stephan" "King" "";
      AuthorInfo.mk "Lee" "Child" "vinyl" ].

(** A configuration without a default media type whose second author
    has no media type either. *)
Definition sue : AuthorInfo.t := AuthorInfo.mk "Sue" "Grafton" "Large Print".
Definition lee : AuthorInfo.t := AuthorInfo.mk "Lee" "Child" "eBook".

Definition configThree : Config.t := Config.mk baseURL "" [sue; king; lee].

(** The same authors with all media types given. *)
Definition configAll : Config.t :=
  Config.mk baseURL "DVD" [sue; AuthorInfo.mk "Stephan" "King" "Book"; lee].

End FurtherScenarios.

(** ** Facts about the runtime model and the local filter *)

Module GoFacts.

Import Go.

Lemma wrap64_range z : int64 (wrap64 z).
Proof.
  unfold int64, wrap64.
  pose proof (Z.mod_pos_bound (z + 2 ^ 63) (2 ^ 64) ltac:(lia)). lia.
Qed.

Lemma wrap64_id z : int64 z -> wrap64 z = z.
Proof.
  unfold int64, wrap64. intros Hz.
  rewrite Z.mod_small by lia. lia.
Qed.

Lemma wrap64_succ_neq a b : wrap64 (a + wrap64 (b + 1)) <> wrap64 (a + b).
Proof.
  unfold wrap64. intros Heq.
  assert (Hm : (a + ((b + 1 + 2 ^ 63) mod 2 ^ 64 - 2 ^ 63) + 2 ^ 63) mod 2 ^ 64
               = (a + b + 2 ^ 63) mod 2 ^ 64) by lia.
  clear Heq.
  replace (a + ((b + 1 + 2 ^ 63) mod 2 ^ 64 - 2 ^ 63) + 2 ^ 63)
    with (a + (b + 1 + 2 ^ 63) mod 2 ^ 64) in Hm by lia.
  rewrite Zplus_mod_idemp_r in Hm.
  replace (a + (b + 1 + 2 ^ 63)) with ((a + b + 2 ^ 63) + 1) in Hm by lia.
  set (x := a + b + 2 ^ 63) in *.
  pose proof (Z.div_mod x (2 ^ 64) ltac:(lia)) as Hx.
  pose proof (Z.div_mod (x + 1) (2 ^ 64) ltac:(lia)) as Hx1.
  pose proof (Z.mod_pos_bound x (2 ^ 64) ltac:(lia)).
  rewrite Hm in Hx1.
  assert (2 ^ 64 * ((x + 1) / 2 ^ 64 - x / 2 ^ 64) = 1) by lia.
  assert (0 < (x + 1) / 2 ^ 64 - x / 2 ^ 64) by lia.
  assert (2 ^ 64 > 1) by lia.
  nia.
Qed.

Lemma wrap64_multiple z : exists k, wrap64 z = z + 2 ^ 64 * k.
Proof.
  unfold wrap64. exists (- ((z + 2 ^ 63) / 2 ^ 64)).
  pose proof (Z.div_mod (z + 2 ^ 63) (2 ^ 64) ltac:(lia)). lia.
Qed.

Lemma wrap64_eq a b : wrap64 a = wrap64 b -> exists k, a - b = 2 ^ 64 * k.
Proof.
  unfold wrap64. intros Heq.
  exists ((a + 2 ^ 63) / 2 ^ 64 - (b + 2 ^ 63) / 2 ^ 64).
  pose proof (Z.div_mod (a + 2 ^ 63) (2 ^ 64) ltac:(lia)).
  pose proof (Z.div_mod (b + 2 ^ 63) (2 ^ 64) ltac:(lia)). lia.
Qed.

Lemma sprintf_d_inj a b : sprintf_d a = sprintf_d b -> a = b.
Proof. unfold sprintf_d. apply (inj pretty). Qed.

End GoFacts.

Module Filter.

Import Go Booklist Run GoFacts.

Lemma applyLocalFilter_keep c fr publication :
  applyLocalFilter c fr publication =
    match keep c publication with
    | Some info => append fr info
    | None => fr
    end.
Proof.
  unfold applyLocalFilter, keep, stringField, assertString.
  destruct (publication !! "shortAuthor") as [[| | |author| |]|]; simpl; try reflexivity.
  destruct (String.eqb_spec (CatalogInfo.Author c) author) as [Heq|Hne].
  - subst author. rewrite decide_True by reflexivity.
    destruct (publication !! "format") as [[| | |f| |]|];
      destruct (publication !! "shortTitle") as [[| | |t| |]|]; reflexivity.
  - rewrite decide_False by congruence.
    destruct (publication !! "format") as [[| | |f| |]|];
      destruct (publication !! "shortTitle") as [[| | |t| |]|]; reflexivity.
Qed.

Lemma fold_applyLocalFilter c pubs fr :
  elems (fold_left (applyLocalFilter c) pubs fr) = elems fr ++ omap (keep c) pubs.
Proof.
  revert fr. induction pubs as [|p pubs IH]; intros fr; simpl.
  - by rewrite app_nil_r.
  - rewrite IH, applyLocalFilter_keep.
    destruct (keep c p) as [info|]; simpl; [|done].
    by rewrite <- app_assoc.
Qed.

Lemma applyLocalFilters_elems c pubs fr :
  elems (applyLocalFilters c pubs fr) = elems fr ++ omap (keep c) (elems pubs).
Proof. apply fold_applyLocalFilter. Qed.

(** A page that keeps nothing leaves the slice as it is, [nil] included. *)
Lemma applyLocalFilters_nil c fr : applyLocalFilters c None fr = fr.
Proof. reflexivity. Qed.

(** C3: the local filter drops a resource that has no [shortAuthor]
    string, whatever its other fields; drops a resource whose
    [shortAuthor] is a string other than the author searched for; keeps a
    resource whose [shortAuthor] is exactly that author, with its format
    and title, each replaced by "Unknown" when the field is missing (or is
    not a string); and a whole page appends the kept resources in the
    order of the page. *)
Theorem local_filter_exact_author (c : CatalogInfo.t) (publication : resourceInfo)
    (filteredResults : slice PublicationInfo.t) :
  ((forall a, publication !! "shortAuthor" <> Some (VString a)) ->
     applyLocalFilters c (Some [publication]) filteredResults = filteredResults) /\
  (forall a, publication !! "shortAuthor" = Some (VString a) ->
     a <> CatalogInfo.Author c ->
     applyLocalFilters c (Some [publication]) filteredResults = filteredResults) /\
  (publication !! "shortAuthor" = Some (VString (CatalogInfo.Author c)) ->
     exists info,
       applyLocalFilters c (Some [publication]) filteredResults
         = append filteredResults info /\
       (forall f, publication !! "format" = Some (VString f) ->
          PublicationInfo.Media info = f) /\
       ((forall f, publication !! "format" <> Some (VString f)) ->
          PublicationInfo.Media info = "Unknown") /\
       (forall t, publication !! "shortTitle" = Some (VString t) ->
          PublicationInfo.Publication info = t) /\
       ((forall t, publication !! "shortTitle" <> Some (VString t)) ->
          PublicationInfo.Publication info = "Unknown")) /\
  (forall pubs : slice resourceInfo,
     elems (applyLocalFilters c pubs filteredResults)
       = elems filteredResults ++ omap (keep c) (elems pubs)).
Proof.
  unfold applyLocalFilters. simpl. rewrite applyLocalFilter_keep.
  repeat split.
  - intros Hno. unfold keep.
    destruct (publication !! "shortAuthor") as [[| | |a| |]|]; try reflexivity.
    by destruct (Hno a).
  - intros a Ha Hne. unfold keep. rewrite Ha.
    by rewrite decide_False.
  - intros Ha. unfold keep. rewrite Ha, decide_True by reflexivity.
    eexists. split; [reflexivity|]. simpl. unfold stringField.
    repeat split.
    + intros f Hf. by rewrite Hf.
    + intros Hno. destruct (publication !! "format") as [[| | |f| |]|]; try reflexivity.
      by destruct (Hno f).
    + intros t Ht. by rewrite Ht.
    + intros Hno. destruct (publication !! "shortTitle") as [[| | |t| |]|]; try reflexivity.
      by destruct (Hno t).
  - intros pubs. apply fold_applyLocalFilter.
Qed.

End Filter.

(** ** The token generator *)

Module Tokens.

Import Go Booklist Run GoFacts.

Lemma StronglySorted_lt_NoDup (l : list Z) : StronglySorted Z.lt l -> NoDup l.
Proof.
  induction 1 as [|x l _ IH Hall]; constructor; [|done].
  intros Hin. rewrite Forall_forall in Hall. specialize (Hall _ Hin). lia.
Qed.

Lemma millis_range t : int64 t -> - 2 ^ 44 <= Z.quot t (Z.quot 1000000 1) <= 2 ^ 44.
Proof.
  unfold int64. intros [Hlo Hhi]. change (Z.quot 1000000 1) with 1000000.
  split.
  - etransitivity; [|apply (Z.quot_le_mono (- 2 ^ 63) t 1000000); lia]. by vm_compute.
  - etransitivity; [apply (Z.quot_le_mono t (2 ^ 63) 1000000); lia|]. by vm_compute.
Qed.

Section WithEnv.

Context (env : Env).

Lemma timestampValue_exact reads increment :
  int64 (now env reads) -> 0 <= increment < 2 ^ 62 ->
  timestampValue (now env reads) (wrap64 (increment + 1))
    = Z.quot (now env reads) (Z.quot 1000000 1) + (increment + 1).
Proof.
  intros Hnow Hinc. unfold timestampValue.
  pose proof (millis_range _ Hnow) as Hq.
  rewrite (wrap64_id (increment + 1)) by (unfold int64; lia).
  apply wrap64_id. unfold int64. lia.
Qed.

Lemma generate_eq n w :
  fst (generate env n w)
    = Returns (map sprintf_d (tokenValues env n (timestampIncrement w) (clockReads w))).
Proof.
  revert w. induction n as [|n IH]; intros w; [reflexivity|].
  simpl. unfold mbind, mret, M_bind, M_ret, bind, ret. simpl.
  specialize (IH (mkWorld (wrap64 (timestampIncrement w + 1)) (S (clockReads w)) (log w))).
  destruct (generate env n _) as [o w']. simpl in IH. subst o. reflexivity.
Qed.

Lemma tokenValues_lower n : forall increment reads,
  steadyClock env -> 0 <= increment -> increment + Z.of_nat n < 2 ^ 62 ->
  Forall (fun v => Z.quot (now env reads) (Z.quot 1000000 1) + increment < v)
         (tokenValues env n increment reads).
Proof.
  induction n as [|n IH]; intros increment reads Hclock Hlo Hhi; simpl; [constructor|].
  destruct Hclock as [Hmono Hrange].
  rewrite wrap64_id by (unfold int64; lia).
  constructor.
  - rewrite <- (wrap64_id (increment + 1)) at 1 by (unfold int64; lia).
    rewrite timestampValue_exact by (auto; lia). lia.
  - eapply Forall_impl; [apply IH; [by split|lia|lia]|].
    intros v Hv. simpl in Hv.
    assert (Z.quot (now env reads) (Z.quot 1000000 1)
            <= Z.quot (now env (S reads)) (Z.quot 1000000 1)).
    { change (Z.quot 1000000 1) with 1000000. apply Z.quot_le_mono; [lia|].
      apply Hmono. lia. }
    lia.
Qed.

Lemma tokenValues_increasing n : forall increment reads,
  steadyClock env -> 0 <= increment -> increment + Z.of_nat n < 2 ^ 62 ->
  StronglySorted Z.lt (tokenValues env n increment reads).
Proof.
  induction n as [|n IH]; intros increment reads Hclock Hlo Hhi; simpl; [constructor|].
  rewrite (wrap64_id (increment + 1)) by (unfold int64; lia).
  constructor.
  - apply IH; [done|lia|lia].
  - rewrite <- (wrap64_id (increment + 1)) at 1 by (unfold int64; lia).
    rewrite timestampValue_exact by (destruct Hclock; auto; lia).
    eapply Forall_impl; [apply tokenValues_lower; [done|lia|lia]|].
    intros v Hv. simpl in Hv.
    assert (Z.quot (now env reads) (Z.quot 1000000 1)
            <= Z.quot (now env (S reads)) (Z.quot 1000000 1)).
    { change (Z.quot 1000000 1) with 1000000. apply Z.quot_le_mono; [lia|].
      apply Hclock. lia. }
    lia.
Qed.

Lemma tokens_NoDup n increment reads :
  steadyClock env -> 0 <= increment -> increment + Z.of_nat n < 2 ^ 62 ->
  NoDup (map sprintf_d (tokenValues env n increment reads)).
Proof.
  intros Hclock Hlo Hhi. apply NoDup_fmap_2.
  - intros a b. apply sprintf_d_inj.
  - apply StronglySorted_lt_NoDup. by apply tokenValues_increasing.
Qed.

(** Two successive calls return the same token only when the clock has
    been set back by exactly one millisecond between them. *)
Lemma tokens_equal_only_after_step_back w t1 w1 t2 w2 :
  int64 (now env (clockReads w)) -> int64 (now env (clockReads w1)) ->
  makeTimestamp env w = (Returns t1, w1) ->
  makeTimestamp env w1 = (Returns t2, w2) ->
  t1 = t2 ->
  Z.quot (now env (clockReads w1)) 1000000 = Z.quot (now env (clockReads w)) 1000000 - 1.
Proof.
  intros Hr Hr1 [= <- <-] [= <- _] Heq. simpl in *.
  apply sprintf_d_inj in Heq. unfold timestampValue in Heq.
  pose proof (millis_range _ Hr) as Hq. pose proof (millis_range _ Hr1) as Hq1.
  change (Z.quot 1000000 1) with 1000000 in *.
  apply wrap64_eq in Heq as [k Hk].
  destruct (wrap64_multiple (wrap64 (timestampIncrement w + 1) + 1)) as [k1 Hk1].
  rewrite Hk1 in Hk. lia.
Qed.

(** C8, as amended: two successive calls of the token generator that read
    the same millisecond return different tokens, whatever the counter
    holds; and when the clock never runs backwards, the values of the tokens
    of any number of successive calls increase strictly, so that the tokens
    are pairwise different.  The second part holds as long as the counter,
    which starts at 1 and grows by one per call, stays below 2^62, where
    [int64] arithmetic does not wrap around.  Two successive calls between
    which the clock is set back by one millisecond return the same token:
    without the condition on the clock the tokens need not differ. *)
Theorem tokens_distinct :
  (forall w t1 w1 t2 w2,
     makeTimestamp env w = (Returns t1, w1) ->
     makeTimestamp env w1 = (Returns t2, w2) ->
     Z.quot (now env (clockReads w)) 1000000 = Z.quot (now env (clockReads w1)) 1000000 ->
     t1 <> t2) /\
  (forall n w,
     steadyClock env ->
     0 <= timestampIncrement w -> timestampIncrement w + Z.of_nat n < 2 ^ 62 ->
     exists values,
       fst (generate env n w) = Returns (map sprintf_d values) /\
       StronglySorted Z.lt values /\
       NoDup (map sprintf_d values)).
Proof.
  split.
  - intros w t1 w1 t2 w2 [= <- <-] [= <- _] Hms. simpl in *.
    intros Heq. apply sprintf_d_inj in Heq. unfold timestampValue in Heq.
    change (Z.quot 1000000 1) with 1000000 in Heq. rewrite <- Hms in Heq.
    symmetry in Heq. revert Heq. apply wrap64_succ_neq.
  - intros n w Hclock Hlo Hhi.
    exists (tokenValues env n (timestampIncrement w) (clockReads w)).
    split; [apply generate_eq|].
    split; [by apply tokenValues_increasing|by apply tokens_NoDup].
Qed.

End WithEnv.

End Tokens.

(** ** The search *)

Module Search.

Import Go Booklist Run GoFacts Filter Tokens.

Ltac unfold_go :=
  unfold mbind, mret, M_bind, M_ret, bind, ret, panic in *.

Ltac run_side :=
  first [ apply Issued_nil | by left | discriminate | done ].

Section WithEnv.

Context (env : Env).

(** *** Symbolic execution of the transport *)

Lemma makeTimestamp_eq w :
  makeTimestamp env w =
    (Returns (tokenAt env w),
     mkWorld (wrap64 (timestampIncrement w + 1)) (S (clockReads w)) (log w)).
Proof. reflexivity. Qed.

Lemma issueRequest_eq {T} `{Target T} c endpt filters (target : option T) w :
  issueRequest env c endpt filters target w =
    match urlError env (CatalogInfo.URL c +:+ endpt) with
    | Some cause => (Returns (target, Some (ParseFailed cause)), w)
    | None =>
      let ex := exchangeAt env c endpt filters w in
      (Returns (replyResult c target ex), worldAfter ex w)
    end.
Proof.
  unfold issueRequest.
  destruct (urlError env (CatalogInfo.URL c +:+ endpt)) as [cause|]; [reflexivity|].
  unfold_go. rewrite makeTimestamp_eq. unfold clientDo. simpl.
  unfold replyResult, exchangeAt, worldAfter, requestAt. simpl.
  destruct (catalog env (log w) _) as [cause|code body]; [reflexivity|].
  destruct (negb (code =? 200)); [reflexivity|].
  destruct (decode body); reflexivity.
Qed.

Lemma publicationsCount_eq c filters w :
  publicationsCount env c filters w =
    match urlError env (CatalogInfo.URL c +:+ "search/count") with
    | Some cause => (Returns (0, Some (ParseFailed cause)), w)
    | None =>
      let ex := exchangeAt env c "search/count" filters w in
      (countResult c ex, worldAfter ex w)
    end.
Proof.
  unfold publicationsCount. unfold_go. rewrite issueRequest_eq.
  destruct (urlError env _) as [cause|]; [reflexivity|].
  simpl. unfold countResult.
  destruct (replyResult c (Some hitResults.zero) _) as [[r|] [e|]]; try reflexivity.
  destruct (negb (hitResults.Success r)); reflexivity.
Qed.

Lemma publications_eq c filters w :
  publications env c filters w =
    match urlError env (CatalogInfo.URL c +:+ "search") with
    | Some cause => (Returns (None, Some (ParseFailed cause)), w)
    | None =>
      let ex := exchangeAt env c "search" filters w in
      (fetchResult c ex, worldAfter ex w)
    end.
Proof.
  unfold publications. unfold_go. rewrite issueRequest_eq.
  destruct (urlError env _) as [cause|]; [reflexivity|].
  simpl. unfold fetchResult.
  destruct (replyResult c (Some searchResults.zero) _) as [[r|] [e|]]; reflexivity.
Qed.

(** A fetch that succeeds delivers the page of its exchange. *)
Lemma fetchResult_page c ex pubs :
  fetchResult c ex = Returns (pubs, None) -> pubs = pageOf ex.
Proof.
  unfold fetchResult, replyResult, pageOf, decode, searchResults_Target.
  destruct (snd ex) as [cause|code body]; [discriminate|].
  destruct (Z.eqb_spec code 200) as [->|Hne]; simpl; [|discriminate].
  destruct (asSearchResults body) as [cause|[r|]]; simpl; congruence.
Qed.

Lemma countResult_total c ex n :
  countResult c ex = Returns (n, None) -> reportsTotal ex n.
Proof.
  unfold countResult, replyResult, reportsTotal, decode, hitResults_Target.
  destruct (snd ex) as [cause|code body]; [discriminate|].
  destruct (Z.eqb_spec code 200) as [->|Hne]; simpl; [|discriminate].
  destruct (asHitResults body) as [cause|[r|]] eqn:Hb; simpl; try discriminate.
  destruct (hitResults.Success r) eqn:Hs; simpl; [|discriminate].
  intros [= <-]. eauto 10.
Qed.

Lemma reportsTotal_countResult c ex n :
  reportsTotal ex n -> countResult c ex = Returns (n, None).
Proof.
  intros (body & r & Hr & Hb & Hs & Hn).
  unfold countResult, replyResult, decode, hitResults_Target.
  rewrite Hr. simpl. rewrite Hb, Hs, Hn. reflexivity.
Qed.

(** *** The requests of a run *)

Lemma Issued_log c w exs w' : Issued env c w exs w' -> log w' = log w ++ exs.
Proof.
  induction 1 as [w|w endpt year exs w' _ _ _ _ IH]; simpl.
  - by rewrite app_nil_r.
  - rewrite IH. simpl. by rewrite <- app_assoc.
Qed.

Lemma Issued_app c w exs1 w1 exs2 w2 :
  Issued env c w exs1 w1 -> Issued env c w1 exs2 w2 -> Issued env c w (exs1 ++ exs2) w2.
Proof.
  induction 1 as [w|w endpt year exs w' He Hy Hu _ IH]; simpl; intros H2; [done|].
  apply Issued_cons; auto.
Qed.

Lemma Issued_one c w endpt year :
  endpt = "search/count" \/ endpt = "search" ->
  year = "unknown" \/ year = yearFilter env ->
  urlError env (CatalogInfo.URL c +:+ endpt) = None ->
  let ex := exchangeAt env c endpt (yearFilters c year) w in
  Issued env c w [ex] (worldAfter ex w).
Proof. intros He Hy Hu. simpl. apply Issued_cons; auto. apply Issued_nil. Qed.

Lemma exchangeAt_isCount c year w :
  isCount c year (exchangeAt env c "search/count" (yearFilters c year) w).
Proof. split; reflexivity. Qed.

Lemma exchangeAt_isFetch c year w :
  isFetch c year (exchangeAt env c "search" (yearFilters c year) w).
Proof. split; reflexivity. Qed.

(** The pagination loop: the requests it issues are fetch requests of its
    bucket, and when it is left by its condition the expected total has
    been reached and the kept resources of the pages have been appended,
    page after page. *)
Lemma retrieveLoop_run fuel c year totalCount :
  year = "unknown" \/ year = yearFilter env ->
  forall currentCount filteredPubs w o w',
    retrieveLoop env fuel c (yearFilters c year) totalCount currentCount filteredPubs w
      = (o, w') ->
    exists fetches,
      Issued env c w fetches w' /\ Forall (isFetch c year) fetches /\
      forall currentCount' filteredPubs',
        o = Returns (LoopExit currentCount' filteredPubs') ->
        totalCount <= currentCount' /\
        elems filteredPubs' = elems filteredPubs ++ flat_map (keptOfPage c) fetches.
Proof.
  intros Hy. induction fuel as [|fuel IH]; intros cur acc w o w'; simpl.
  - destruct (Z.ltb_spec cur totalCount) as [Hlt|Hge]; simpl.
    + intros [= <- <-]. exists []. split; [constructor|]. split; [constructor|].
      discriminate.
    + unfold_go. intros [= <- <-]. exists []. split; [constructor|]. split; [constructor|].
      intros cur' acc' [= <- <-]. simpl. by rewrite app_nil_r.
  - destruct (Z.ltb_spec cur totalCount) as [Hlt|Hge]; simpl.
    + unfold_go. rewrite publications_eq.
      destruct (urlError env _) as [cause|] eqn:Hu.
      { intros [= <- <-]. exists []. split; [constructor|]. split; [constructor|].
        discriminate. }
      simpl.
      set (ex := exchangeAt env c "search" (yearFilters c year) w).
      destruct (fetchResult c ex) as [[pubs [e|]]| |] eqn:Hf.
      * intros [= <- <-]. exists [ex]. split; [by apply Issued_one; auto|].
        split; [repeat constructor|]. discriminate.
      * intros Hrun. apply IH in Hrun as (fetches & Hiss & Hall & Hexit).
        exists (ex :: fetches). split; [apply Issued_cons; auto|].
        split; [constructor; [split; reflexivity|done]|].
        intros cur' acc' Ho. destruct (Hexit _ _ Ho) as [Hle Hacc].
        split; [done|]. rewrite Hacc, applyLocalFilters_elems.
        apply fetchResult_page in Hf. subst pubs. simpl.
        unfold keptOfPage at 2. by rewrite <- app_assoc.
      * intros [= <- <-]. exists [ex]. split; [by apply Issued_one; auto|].
        split; [repeat constructor|]. discriminate.
      * intros [= <- <-]. exists [ex]. split; [by apply Issued_one; auto|].
        split; [repeat constructor|]. discriminate.
    + unfold_go. intros [= <- <-]. exists []. split; [constructor|]. split; [constructor|].
      intros cur' acc' [= <- <-]. simpl. by rewrite app_nil_r.
Qed.

(** One year bucket: either the URL does not parse and nothing is sent,
    or one count request is sent, followed by the fetch requests of the
    loop. *)
Lemma yearBody_run fuel c year filteredPubs w o w' :
  year = "unknown" \/ year = yearFilter env ->
  yearBody env fuel c year filteredPubs w = (o, w') ->
  (w' = w /\
   exists cause, urlError env (CatalogInfo.URL c +:+ "search/count") = Some cause /\
     o = Returns (Return (None, Some (ParseFailed cause)))) \/
  (exists cnt fetches,
     Issued env c w (cnt :: fetches) w' /\
     urlError env (CatalogInfo.URL c +:+ "search/count") = None /\
     isCount c year cnt /\ Forall (isFetch c year) fetches /\
     (reportsTotal cnt 0 -> fetches = [] /\ o = Returns (NextYear filteredPubs)) /\
     (forall filteredPubs', o = Returns (NextYear filteredPubs') ->
        elems filteredPubs' = elems filteredPubs ++ flat_map (keptOfPage c) fetches) /\
     (forall res err, o = Returns (Return (res, err)) -> res = None /\ err <> None) /\
     (forall n e, countResult c cnt = Returns (n, Some e) ->
        fetches = [] /\ o = Returns (Return (None, Some e)))).
Proof.
  intros Hy. unfold yearBody. unfold_go. rewrite publicationsCount_eq.
  destruct (urlError env _) as [cause|] eqn:Hu.
  { intros [= <- <-]. left. eauto. }
  simpl. set (cnt := exchangeAt env c "search/count" (yearFilters c year) w).
  set (w1 := worldAfter cnt w).
  assert (Hone : Issued env c w [cnt] w1) by (apply Issued_one; auto).
  assert (Hcnt : isCount c year cnt) by (split; reflexivity).
  intros Hrun. right.
  destruct (countResult c cnt) as [[total [e|]]| |] eqn:Hc.
  - injection Hrun as <- <-. exists cnt, []. split_and!; auto.
    + intros H0. apply (reportsTotal_countResult c) in H0. congruence.
    + discriminate.
    + intros res err [= <- <-]. by split.
    + intros n e' He'. rewrite Hc in He'. injection He' as _ <-. by split.
  - destruct (Z.eqb_spec total 0) as [->|Hnz].
    + injection Hrun as <- <-. exists cnt, []. split_and!; auto.
      * intros acc' [= <-]. simpl. by rewrite app_nil_r.
      * discriminate.
      * intros n e' He'. congruence.
    + destruct (retrieveLoop env fuel c (yearFilters c year) total 0 filteredPubs w1)
        as [o1 w2] eqn:Hloop.
      destruct (retrieveLoop_run _ _ _ _ Hy _ _ _ _ _ Hloop) as (fetches & Hiss & Hall & Hexit).
      assert (Hw' : w' = w2).
      { destruct o1 as [[cur acc'|e]| |]; try (by injection Hrun).
        destruct (cur >? total); by injection Hrun. }
      subst w'. exists cnt, fetches.
      split; [by apply (Issued_app _ _ [cnt] w1)|].
      split; [done|]. split; [done|]. split; [done|].
      assert (Hnot0 : ~ reportsTotal cnt 0).
      { intros H0. apply (reportsTotal_countResult c) in H0. congruence. }
      split; [by intros H0; destruct (Hnot0 H0)|].
      assert (Hlast : forall n e, countResult c cnt = Returns (n, Some e) ->
                fetches = [] /\ o = Returns (Return (None, Some e)))
        by (intros n e' He'; congruence).
      destruct o1 as [[cur acc'|e]| |].
      * destruct (Hexit _ _ eq_refl) as [Hle Hacc].
        destruct (cur >? total); injection Hrun as <-.
        -- split_and!; [discriminate| |exact Hlast]. intros res err [= <- <-]. by split.
        -- split_and!; [by intros acc'' [= <-]|discriminate|exact Hlast].
      * injection Hrun as <-. split_and!; [discriminate| |exact Hlast].
        intros res err [= <- <-]. by split.
      * injection Hrun as <-. split_and!; [discriminate|discriminate|exact Hlast].
      * injection Hrun as <-. split_and!; [discriminate|discriminate|exact Hlast].
  - injection Hrun as <- <-. exists cnt, []. split_and!; auto.
    + intros H0. apply (reportsTotal_countResult c) in H0. congruence.
    + discriminate.
    + discriminate.
    + intros n e' He'. congruence.
  - injection Hrun as <- <-. exists cnt, []. split_and!; auto.
    + intros H0. apply (reportsTotal_countResult c) in H0. congruence.
    + discriminate.
    + discriminate.
    + intros n e' He'. congruence.
Qed.

(** *** The whole search *)

Lemma PublicationSearch_valid fuel c :
  CatalogInfo.Author c <> "" -> CatalogInfo.Media c <> "" ->
  PublicationSearch env fuel c = rangeYears env fuel c ["unknown"; yearFilter env] None.
Proof.
  intros Ha Hm. unfold PublicationSearch.
  destruct (String.eqb_spec (CatalogInfo.Author c) ""); [done|].
  destruct (String.eqb_spec (CatalogInfo.Media c) ""); [done|].
  reflexivity.
Qed.

Lemma search_run fuel c w o w' :
  CatalogInfo.Author c <> "" -> CatalogInfo.Media c <> "" ->
  PublicationSearch env fuel c w = (o, w') ->
  exists seg1 seg2 w1,
    Issued env c w seg1 w1 /\ Issued env c w1 seg2 w' /\
    bucketRequests c "unknown" seg1 /\ bucketRequests c (yearFilter env) seg2 /\
    (forall res, o = Returns (res, None) ->
       exists cnt1 fetches1 cnt2 fetches2,
         seg1 = cnt1 :: fetches1 /\ seg2 = cnt2 :: fetches2 /\
         elems res = flat_map (keptOfPage c) fetches1 ++ flat_map (keptOfPage c) fetches2) /\
    (forall cnt, seg1 = [cnt] -> reportsTotal cnt 0 -> seg2 <> []) /\
    (forall cnt, seg2 = [cnt] -> reportsTotal cnt 0 -> exists res, o = Returns (res, None)) /\
    (forall res err, o = Returns (res, Some err) -> res = None) /\
    (seg1 = [] -> seg2 = []) /\
    (forall cnt fetches n e, seg1 = cnt :: fetches ->
       countResult c cnt = Returns (n, Some e) ->
       fetches = [] /\ seg2 = [] /\ o = Returns (None, Some e)) /\
    (forall cnt fetches n e, seg2 = cnt :: fetches ->
       countResult c cnt = Returns (n, Some e) ->
       fetches = [] /\ o = Returns (None, Some e)).
Proof.
  intros Ha Hm. rewrite PublicationSearch_valid by done. simpl. unfold_go.
  destruct (yearBody env fuel c "unknown" None w) as [o1 w1] eqn:H1.
  apply yearBody_run in H1; [|by left].
  destruct H1 as [[-> (cause & Hu & ->)]
                 |(cnt1 & f1 & Hiss1 & Hu & Hc1 & Hf1 & Hzero1 & Hnext1 & Hret1 & Hfail1)].
  { intros [= <- <-]. exists [], [], w.
    split_and!; try run_side.
    intros res err [= <- _]. done. }
  assert (Hb1 : bucketRequests c "unknown" (cnt1 :: f1)).
  { right. exists cnt1, f1. split_and!; auto. intros H0. by destruct (Hzero1 H0). }
  destruct o1 as [[acc1|[res1 err1]]| |].
  - destruct (yearBody env fuel c (yearFilter env) acc1 w1) as [o2 w2] eqn:H2.
    apply yearBody_run in H2; [|by right].
    destruct H2 as [[-> (cause & Hu2 & ->)]
                   |(cnt2 & f2 & Hiss2 & _ & Hc2 & Hf2 & Hzero2 & Hnext2 & Hret2 & Hfail2)];
      [congruence|].
    intros Hrun. exists (cnt1 :: f1), (cnt2 :: f2), w1.
    assert (Hw : w' = w2) by (destruct o2 as [[?|[? ?]]| |]; by injection Hrun).
    subst w'. split_and!; auto.
    + right. exists cnt2, f2. split_and!; auto. intros H0. by destruct (Hzero2 H0).
    + intros res ->. destruct o2 as [[acc2|[res2 err2]]| |]; try discriminate.
      * injection Hrun as <-. exists cnt1, f1, cnt2, f2. split_and!; auto.
        rewrite (Hnext2 _ eq_refl), (Hnext1 _ eq_refl). reflexivity.
      * injection Hrun as -> ->. by destruct (Hret2 _ _ eq_refl).
    + intros cnt [= <- ->] H0. destruct (Hzero2 H0) as [_ ->]. injection Hrun as <-. eauto.
    + intros res err ->. destruct o2 as [[acc2|[res2 err2]]| |]; try discriminate.
      injection Hrun as -> ->. by destruct (Hret2 _ _ eq_refl).
    + discriminate.
    + intros cnt f n e [= <- <-] He. by destruct (Hfail1 _ _ He).
    + intros cnt f n e [= <- <-] He. destruct (Hfail2 _ _ He) as [-> ->].
      by injection Hrun as <-.
  - intros [= <- <-]. exists (cnt1 :: f1), [], w1.
    destruct (Hret1 _ _ eq_refl) as [-> Herr].
    split_and!; try run_side.
    + intros res [= <- ->]. done.
    + intros cnt [= <- ->] H0. by destruct (Hzero1 H0).
    + intros res err [= <- _]. done.
    + intros cnt f n e [= <- <-] He. destruct (Hfail1 _ _ He) as [-> [= ->]]. done.
  - intros [= <- <-]. exists (cnt1 :: f1), [], w1.
    split_and!; try run_side.
    + intros cnt [= <- ->] H0. by destruct (Hzero1 H0).
    + intros cnt f n e [= <- <-] He. by destruct (Hfail1 _ _ He).
  - intros [= <- <-]. exists (cnt1 :: f1), [], w1.
    split_and!; try run_side.
    + intros cnt [= <- ->] H0. by destruct (Hzero1 H0).
    + intros cnt f n e [= <- <-] He. by destruct (Hfail1 _ _ He).
Qed.

(** *** Telling the two endpoints apart *)

Lemma fetch_url_not_count_url url : url +:+ "search" <> url +:+ "search/count".
Proof.
  induction url as [|a url IH]; simpl.
  - discriminate.
  - intros [= H]. by apply IH.
Qed.

Lemma countRequests_app c exs1 exs2 :
  countRequests c (exs1 ++ exs2) = (countRequests c exs1 + countRequests c exs2)%nat.
Proof. unfold countRequests. by rewrite filter_app, length_app. Qed.

Lemma countRequests_fetches c year fetches :
  Forall (isFetch c year) fetches -> countRequests c fetches = 0%nat.
Proof.
  unfold countRequests. induction 1 as [|ex fetches [Hurl _] _ IH]; [done|].
  rewrite filter_cons_False; [done|].
  rewrite Hurl. apply fetch_url_not_count_url.
Qed.

Lemma countRequests_bucket c year exs :
  bucketRequests c year exs ->
  (countRequests c exs <= 1)%nat /\ (exs <> [] -> countRequests c exs = 1%nat).
Proof.
  intros [->|(cnt & fetches & -> & [Hurl _] & Hf & _)];
    [split; [unfold countRequests; simpl; lia|done]|].
  change (cnt :: fetches) with ([cnt] ++ fetches).
  rewrite countRequests_app, (countRequests_fetches _ _ _ Hf).
  unfold countRequests. rewrite filter_cons_True by done. simpl. lia.
Qed.

(** *** The claims about the search *)

Lemma PublicationSearch_rejects fuel c w :
  CatalogInfo.Author c = "" \/ CatalogInfo.Media c = "" ->
  PublicationSearch env fuel c w =
    (Returns (None, Some (Errorf ("arguments must be non-null:  author="
                                  +:+ CatalogInfo.Author c +:+ ", media="
                                  +:+ CatalogInfo.Media c +:+ "'"))), w).
Proof.
  intros Hempty. unfold PublicationSearch.
  destruct (String.eqb_spec (CatalogInfo.Author c) "") as [Ha|Ha]; [reflexivity|].
  destruct (String.eqb_spec (CatalogInfo.Media c) "") as [Hm|Hm]; [reflexivity|].
  by destruct Hempty.
Qed.

(** C2: when the author name or the media type of the query is empty,
    [PublicationSearch] returns a nil list and an error whose message
    prints both fields, so that the missing one shows as empty; and the
    world is left as it was: no request has been issued, no token
    generated and the clock has not been read. *)
Theorem empty_argument_rejected_before_io fuel c w :
  CatalogInfo.Author c = "" \/ CatalogInfo.Media c = "" ->
  exists msg w',
    PublicationSearch env fuel c w = (Returns (None, Some (Errorf msg)), w') /\
    w' = w /\ requests w' = requests w /\
    msg = "arguments must be non-null:  author=" +:+ CatalogInfo.Author c
          +:+ ", media=" +:+ CatalogInfo.Media c +:+ "'" /\
    (CatalogInfo.Author c = "" ->
       msg = "arguments must be non-null:  author=, media=" +:+ CatalogInfo.Media c +:+ "'") /\
    (CatalogInfo.Media c = "" ->
       msg = "arguments must be non-null:  author=" +:+ CatalogInfo.Author c
             +:+ ", media='").
Proof.
  intros Hempty. eexists _, w. split; [by apply PublicationSearch_rejects|].
  split_and!; try reflexivity.
  - by intros ->.
  - by intros ->.
Qed.

(** C4, as amended: for a query with a non-empty author name and media
    type, the requests of a search split into those of the unknown-year
    bucket followed by those of the current-year bucket; each bucket has
    at most one count request, and exactly one when the search succeeds;
    and when the count endpoint reports a total of 0 for a bucket, no
    fetch request is issued for that bucket and the search goes on, to
    the count request of the next bucket or to its successful end. *)
Theorem count_requests_per_bucket fuel c w o w' :
  CatalogInfo.Author c <> "" -> CatalogInfo.Media c <> "" ->
  PublicationSearch env fuel c w = (o, w') ->
  exists seg1 seg2,
    log w' = log w ++ seg1 ++ seg2 /\
    bucketRequests c "unknown" seg1 /\ bucketRequests c (yearFilter env) seg2 /\
    (countRequests c seg1 <= 1)%nat /\ (countRequests c seg2 <= 1)%nat /\
    (forall res, o = Returns (res, None) ->
       countRequests c seg1 = 1%nat /\ countRequests c seg2 = 1%nat) /\
    (forall cnt fetches, seg1 = cnt :: fetches -> reportsTotal cnt 0 ->
       fetches = [] /\ exists cnt2 fetches2, seg2 = cnt2 :: fetches2) /\
    (forall cnt fetches, seg2 = cnt :: fetches -> reportsTotal cnt 0 ->
       fetches = [] /\ exists res, o = Returns (res, None)).
Proof.
  intros Ha Hm Hrun.
  destruct (search_run _ _ _ _ _ Ha Hm Hrun)
    as (seg1 & seg2 & w1 & Hi1 & Hi2 & Hb1 & Hb2 & Hok & Hz1 & Hz2 & _).
  exists seg1, seg2.
  destruct (countRequests_bucket _ _ _ Hb1) as [Hle1 Hone1].
  destruct (countRequests_bucket _ _ _ Hb2) as [Hle2 Hone2].
  split_and!; auto.
  - rewrite (Issued_log _ _ _ _ Hi2), (Issued_log _ _ _ _ Hi1). by rewrite app_assoc.
  - intros res Ho. destruct (Hok _ Ho) as (cnt1 & f1 & cnt2 & f2 & -> & -> & _).
    split; [by apply Hone1|by apply Hone2].
  - intros cnt fetches -> H0.
    destruct Hb1 as [|(cnt' & f' & [= <- <-] & _ & _ & Hnil)]; [done|].
    rewrite (Hnil H0) in *. split; [done|].
    destruct seg2 as [|cnt2 f2]; [|eauto].
    by destruct (Hz1 _ eq_refl H0).
  - intros cnt fetches -> H0.
    destruct Hb2 as [|(cnt' & f' & [= <- <-] & _ & _ & Hnil)]; [done|].
    rewrite (Hnil H0) in *. split; [done|]. by apply (Hz2 cnt).
Qed.

(** C6: the list a successful search returns holds the publications kept
    from the pages of the unknown-year bucket, followed by those kept
    from the pages of the current-year bucket; within a bucket the pages
    contribute in the order in which they arrived, and each page in its
    own order. *)
Theorem results_bucket_then_page_order fuel c w res w' :
  PublicationSearch env fuel c w = (Returns (res, None), w') ->
  exists cnt1 fetches1 cnt2 fetches2,
    log w' = log w ++ (cnt1 :: fetches1) ++ (cnt2 :: fetches2) /\
    isCount c "unknown" cnt1 /\ Forall (isFetch c "unknown") fetches1 /\
    isCount c (yearFilter env) cnt2 /\ Forall (isFetch c (yearFilter env)) fetches2 /\
    elems res = flat_map (keptOfPage c) fetches1 ++ flat_map (keptOfPage c) fetches2.
Proof.
  intros Hrun.
  assert (Hvalid : CatalogInfo.Author c <> "" /\ CatalogInfo.Media c <> "").
  { split; intros Hempty.
    - rewrite PublicationSearch_rejects in Hrun by (by left). discriminate.
    - rewrite PublicationSearch_rejects in Hrun by (by right). discriminate. }
  destruct Hvalid as [Ha Hm].
  destruct (search_run _ _ _ _ _ Ha Hm Hrun)
    as (seg1 & seg2 & w1 & Hi1 & Hi2 & Hb1 & Hb2 & Hok & _).
  destruct (Hok _ eq_refl) as (cnt1 & f1 & cnt2 & f2 & -> & -> & Hres).
  exists cnt1, f1, cnt2, f2.
  destruct Hb1 as [|(? & ? & [= <- <-] & Hc1 & Hf1 & _)]; [done|].
  destruct Hb2 as [|(? & ? & [= <- <-] & Hc2 & Hf2 & _)]; [done|].
  split_and!; auto.
  rewrite (Issued_log _ _ _ _ Hi2), (Issued_log _ _ _ _ Hi1). by rewrite <- app_assoc.
Qed.

(** The body of the year loop when the loop over the pages ends with more
    publications than the count endpoint announced. *)
Lemma yearBody_mismatch fuel c year acc w total w2 cur acc' w3 :
  publicationsCount env c (yearFilters c year) w = (Returns (total, None), w2) ->
  retrieveLoop env fuel c (yearFilters c year) total 0 acc w2
    = (Returns (LoopExit cur acc'), w3) ->
  cur > total ->
  yearBody env fuel c year acc w =
    (Returns (Return (None, Some (Errorf
       ("Received more publications than expected; expected "
        +:+ sprintf_d total +:+ " currently have " +:+ sprintf_d cur)))), w3).
Proof.
  intros Hcount Hloop Hgt. unfold yearBody. unfold_go. rewrite Hcount.
  destruct (Z.eqb_spec total 0) as [->|Hnz].
  - exfalso. assert (cur = 0); [|lia].
    destruct fuel; simpl in Hloop; unfold_go; simpl in Hloop; congruence.
  - rewrite Hloop. destruct (Z.gtb_spec cur total); [reflexivity|lia].
Qed.

(** The loop over one year ends normally only through [NextYear]. *)
Lemma rangeYears_one fuel c year acc w acc1 w1 :
  year = "unknown" \/ year = yearFilter env ->
  rangeYears env fuel c [year] acc w = (Returns (acc1, None), w1) ->
  yearBody env fuel c year acc w = (Returns (NextYear acc1), w1).
Proof.
  intros Hy. simpl. unfold_go.
  destruct (yearBody env fuel c year acc w) as [o w'] eqn:Hbody.
  destruct o as [[acc2|[res err]]| |]; try discriminate.
  - by intros [= <- <-].
  - intros [= -> -> <-].
    apply yearBody_run in Hbody; [|done].
    destruct Hbody as [[_ (cause & _ & [=])]|(cnt & f & _ & _ & _ & _ & _ & _ & Hret & _)].
    by destruct (Hret _ _ eq_refl).
Qed.

(** C1: when the loop over the pages of a year bucket ends with a
    retrieved count above the total the count endpoint reported,
    [PublicationSearch] returns the count-mismatch error and a nil list:
    the publications kept so far, those of an earlier bucket included,
    are dropped.  And whenever [PublicationSearch] returns an error, the
    list next to it is nil. *)
Theorem count_mismatch_discards_results fuel c w :
  (forall res err w',
     PublicationSearch env fuel c w = (Returns (res, Some err), w') -> res = None) /\
  (forall pre year post acc w1 total w2 cur acc' w3,
     CatalogInfo.Author c <> "" -> CatalogInfo.Media c <> "" ->
     ["unknown"; yearFilter env] = pre ++ year :: post ->
     rangeYears env fuel c pre None w = (Returns (acc, None), w1) ->
     publicationsCount env c (yearFilters c year) w1 = (Returns (total, None), w2) ->
     retrieveLoop env fuel c (yearFilters c year) total 0 acc w2
       = (Returns (LoopExit cur acc'), w3) ->
     cur > total ->
     PublicationSearch env fuel c w =
       (Returns (None, Some (Errorf
          ("Received more publications than expected; expected "
           +:+ sprintf_d total +:+ " currently have " +:+ sprintf_d cur))), w3)).
Proof.
  split.
  - intros res err w' Hrun.
    destruct (decide (CatalogInfo.Author c = "")) as [Ha|Ha].
    { rewrite PublicationSearch_rejects in Hrun by (by left). by injection Hrun as <- _ _. }
    destruct (decide (CatalogInfo.Media c = "")) as [Hm|Hm].
    { rewrite PublicationSearch_rejects in Hrun by (by right). by injection Hrun as <- _ _. }
    destruct (search_run _ _ _ _ _ Ha Hm Hrun)
      as (seg1 & seg2 & w1 & _ & _ & _ & _ & _ & _ & _ & Herr & _).
    by apply (Herr res err).
  - intros pre year post acc w1 total w2 cur acc' w3 Ha Hm Hyears Hpre Hcount Hloop Hgt.
    rewrite PublicationSearch_valid by done.
    destruct pre as [|y1 [|y2 pre]].
    + injection Hyears as <- <-. injection Hpre as <- <-.
      simpl. unfold_go.
      by rewrite (yearBody_mismatch _ _ _ _ _ _ _ _ _ _ Hcount Hloop Hgt).
    + simpl in Hyears. injection Hyears as <- <- <-.
      apply rangeYears_one in Hpre; [|by left].
      simpl. unfold_go. rewrite Hpre.
      by rewrite (yearBody_mismatch _ _ _ _ _ _ _ _ _ _ Hcount Hloop Hgt).
    + exfalso. apply (f_equal length) in Hyears. simpl in Hyears.
      rewrite length_app in Hyears. simpl in Hyears. lia.
Qed.

(** A list that holds one marked element splits around it in one way. *)
Lemma split_at_marked {A} (P : A -> Prop) (l1 : list A) x l2 l1' y l2' :
  l1 ++ x :: l2 = l1' ++ y :: l2' ->
  P x -> Forall (fun a => ~ P a) l1' -> Forall (fun a => ~ P a) l2' ->
  l1 = l1' /\ x = y /\ l2 = l2'.
Proof.
  revert l1'. induction l1 as [|b l1 IH]; intros [|a l1'] Heq Hx H1 H2; simpl in Heq.
  - by injection Heq as -> ->.
  - injection Heq as -> _. apply Forall_cons in H1 as [Hna _]. done.
  - injection Heq as -> Heq. exfalso.
    rewrite Forall_forall in H2. apply (H2 x); [|done].
    rewrite <- Heq. apply elem_of_app. right. apply elem_of_cons. by left.
  - injection Heq as -> Heq. apply Forall_cons in H1 as [_ H1'].
    destruct (IH _ Heq Hx H1' H2) as (-> & -> & ->). done.
Qed.

Lemma fetches_not_count c year fetches :
  Forall (isFetch c year) fetches ->
  Forall (fun ex => ~ rawurl (fst ex) = CatalogInfo.URL c +:+ "search/count") fetches.
Proof.
  intros Hall. eapply Forall_impl; [exact Hall|].
  intros ex [Hurl _]. rewrite Hurl. apply fetch_url_not_count_url.
Qed.

(** C5: when the response to a count request reports failure (its
    success flag is false), that request is the last one of the search:
    no fetch request follows for its bucket, no later bucket is visited,
    and [PublicationSearch] returns a nil list and an error, whatever an
    earlier bucket has contributed. *)
Theorem count_failure_aborts_search fuel c w o w' pre ex post body r :
  PublicationSearch env fuel c w = (o, w') ->
  log w' = log w ++ pre ++ ex :: post ->
  rawurl (fst ex) = CatalogInfo.URL c +:+ "search/count" ->
  snd ex = Response 200 body ->
  asHitResults body = DecodedTo (Some r) ->
  hitResults.Success r = false ->
  post = [] /\
  o = Returns (None, Some (Errorf
        "failed to retrieve total number of matches on author, media and year")).
Proof.
  intros Hrun Hlog Hurl Hreply Hbody Hflag.
  assert (Hfail : countResult c ex = Returns (0, Some (Errorf
            "failed to retrieve total number of matches on author, media and year"))).
  { unfold countResult, replyResult, decode, hitResults_Target.
    rewrite Hreply. simpl. by rewrite Hbody, Hflag. }
  assert (Hvalid : CatalogInfo.Author c <> "" /\ CatalogInfo.Media c <> "").
  { split; intros Hempty.
    - rewrite PublicationSearch_rejects in Hrun by (by left). injection Hrun as _ <-.
      apply (f_equal length) in Hlog. rewrite !length_app in Hlog. simpl in Hlog. lia.
    - rewrite PublicationSearch_rejects in Hrun by (by right). injection Hrun as _ <-.
      apply (f_equal length) in Hlog. rewrite !length_app in Hlog. simpl in Hlog. lia. }
  destruct Hvalid as [Ha Hm].
  destruct (search_run _ _ _ _ _ Ha Hm Hrun)
    as (seg1 & seg2 & w1 & Hi1 & Hi2 & Hb1 & Hb2 & _ & _ & _ & _ & Hnil & Hfail1 & Hfail2).
  rewrite (Issued_log _ _ _ _ Hi2), (Issued_log _ _ _ _ Hi1), <- app_assoc in Hlog.
  apply app_inv_head in Hlog.
  destruct Hb1 as [->|(cnt1 & f1 & -> & Hc1 & Hf1 & _)].
  { rewrite (Hnil eq_refl) in Hlog. by destruct pre. }
  apply fetches_not_count in Hf1.
  destruct Hb2 as [->|(cnt2 & f2 & -> & Hc2 & Hf2 & _)].
  - rewrite app_nil_r in Hlog. symmetry in Hlog.
    apply (split_at_marked
             (fun ex => rawurl (fst ex) = CatalogInfo.URL c +:+ "search/count")
             pre ex post [] cnt1 f1) in Hlog; auto.
    destruct Hlog as (_ & -> & ->).
    destruct (Hfail1 _ _ _ _ eq_refl Hfail) as (-> & _ & ->). done.
  - apply fetches_not_count in Hf2.
    destruct pre as [|p pre]; simpl in Hlog.
    + injection Hlog as <- _.
      by destruct (Hfail1 _ _ _ _ eq_refl Hfail) as (_ & [=] & _).
    + injection Hlog as _ Hlog. symmetry in Hlog.
      apply (split_at_marked
               (fun ex => rawurl (fst ex) = CatalogInfo.URL c +:+ "search/count")
               pre ex post f1 cnt2 f2) in Hlog; auto.
      destruct Hlog as (_ & -> & ->).
      destruct (Hfail2 _ _ _ _ eq_refl Hfail) as (-> & ->). done.
Qed.

(** *** The requests and their tokens *)

Lemma Issued_sentBySearch c w exs w' :
  Issued env c w exs w' -> Forall (fun ex => sentBySearch env c (fst ex)) exs.
Proof.
  induction 1 as [w|w endpt year exs w' He Hy Hu _ IH]; constructor; [|done].
  exists endpt, year, (tokenAt env w). split_and!; auto.
Qed.

Lemma Issued_tokens c w exs w' :
  Issued env c w exs w' ->
  tokensOf exs
    = map sprintf_d (tokenValues env (length exs) (timestampIncrement w) (clockReads w)).
Proof.
  induction 1 as [w|w endpt year exs w' He Hy Hu _ IH]; [reflexivity|].
  unfold tokensOf in *. simpl. by rewrite IH.
Qed.

Lemma search_Issued fuel c w o w' :
  PublicationSearch env fuel c w = (o, w') -> exists exs, Issued env c w exs w'.
Proof.
  intros Hrun.
  destruct (decide (CatalogInfo.Author c = "")) as [Ha|Ha].
  { rewrite PublicationSearch_rejects in Hrun by (by left). injection Hrun as _ <-.
    exists []. constructor. }
  destruct (decide (CatalogInfo.Media c = "")) as [Hm|Hm].
  { rewrite PublicationSearch_rejects in Hrun by (by right). injection Hrun as _ <-.
    exists []. constructor. }
  destruct (search_run _ _ _ _ _ Ha Hm Hrun) as (seg1 & seg2 & w1 & Hi1 & Hi2 & _).
  exists (seg1 ++ seg2). by apply (Issued_app _ _ _ w1).
Qed.

(** A URL without query and fragment is written with the token as its
    query. *)
Lemma append_empty (s : string) : s +:+ "" = s.
Proof. induction s as [|a s IH]; [done|]. change (String a s +:+ "") with (String a (s +:+ "")). by f_equal. Qed.

Lemma toString_plainURL s token :
  URL.toString (URL.withRawQuery (plainURL s) ("_=" +:+ token)) = s +:+ "?_=" +:+ token.
Proof.
  unfold URL.toString, URL.withRawQuery, plainURL. simpl.
  change ("?" +:+ "_=" +:+ token) with ("?_=" +:+ token).
  by rewrite append_empty.
Qed.

Lemma Issued_targets c w exs w' :
  (forall endpt, endpt = "search/count" \/ endpt = "search" ->
     urlParsed env (CatalogInfo.URL c +:+ endpt) = plainURL (CatalogInfo.URL c +:+ endpt)) ->
  Issued env c w exs w' ->
  Forall (fun ex => exists endpt token,
            (endpt = "search/count" \/ endpt = "search") /\
            query (fst ex) = [("_", token)] /\
            urlString (fst ex) = (CatalogInfo.URL c +:+ endpt) +:+ "?_=" +:+ token)
         exs.
Proof.
  intros Hplain. induction 1 as [w|w endpt year exs w' He Hy Hu _ IH]; constructor; [|done].
  exists endpt, (tokenAt env w). split; [done|]. split; [reflexivity|].
  simpl. rewrite (Hplain _ He). apply toString_plainURL.
Qed.

(** C7, as amended: the one request [issueRequest] sends is built from
    the catalog URL followed by the endpoint path: it is created with
    the URL that [url.Parse] makes of that string, with the query
    replaced by the single parameter "_" that holds the token
    [makeTimestamp] generates for it; when [url.Parse] finds no query
    and no fragment in the string and [String] writes it back as it is,
    that URL is the catalog URL, the endpoint path, "?_=" and the token.
    The request carries the search filter with [addToHistory] true,
    [hitsPerPage] 30, [sortCriteria] "NewlyAdded", [startIndex] 0, the
    caller's filters and the author name as search term.  Every request
    of a search has this shape with the two facet filters (year and
    format) of one of the two buckets; and under a clock that never runs
    backwards, with the counter below 2^62, the tokens of the requests
    of a search are pairwise different. *)
Theorem request_shape :
  (forall T (HT : Target T) c endpt filters (target : option T) w r w',
     issueRequest env c endpt filters target w = (r, w') ->
     w' = w \/
     exists req reply token w1,
       makeTimestamp env w = (Returns token, w1) /\
       log w' = log w ++ [(req, reply)] /\
       timestampIncrement w' = timestampIncrement w1 /\
       rawurl req = CatalogInfo.URL c +:+ endpt /\
       urlString req
         = URL.toString (URL.withRawQuery (urlParsed env (CatalogInfo.URL c +:+ endpt))
                           ("_=" +:+ token)) /\
       (urlParsed env (CatalogInfo.URL c +:+ endpt) = plainURL (CatalogInfo.URL c +:+ endpt) ->
          urlString req = (CatalogInfo.URL c +:+ endpt) +:+ "?_=" +:+ token) /\
       query req = [("_", token)] /\
       searchFilter.AddToHistory (payload req) = true /\
       searchFilter.HitsPerPage (payload req) = 30 /\
       searchFilter.SortCriteria (payload req) = "NewlyAdded" /\
       searchFilter.StartIndex (payload req) = 0 /\
       searchFilter.FacetFilters (payload req) = filters /\
       searchFilter.SearchTerm (payload req) = CatalogInfo.Author c) /\
  (forall fuel c w o w',
     PublicationSearch env fuel c w = (o, w') ->
     exists exs,
       log w' = log w ++ exs /\
       Forall (fun ex => sentBySearch env c (fst ex)) exs /\
       ((forall endpt, endpt = "search/count" \/ endpt = "search" ->
           urlParsed env (CatalogInfo.URL c +:+ endpt)
             = plainURL (CatalogInfo.URL c +:+ endpt)) ->
        Forall (fun ex => exists endpt token,
                  (endpt = "search/count" \/ endpt = "search") /\
                  query (fst ex) = [("_", token)] /\
                  urlString (fst ex) = (CatalogInfo.URL c +:+ endpt) +:+ "?_=" +:+ token)
               exs) /\
       (steadyClock env -> 0 <= timestampIncrement w ->
        timestampIncrement w + Z.of_nat (length exs) < 2 ^ 62 ->
        NoDup (tokensOf exs))).
Proof.
  split.
  - intros T HT c endpt filters target w r w'. rewrite issueRequest_eq.
    destruct (urlError env _) as [cause|]; [intros [= _ <-]; by left|].
    simpl. intros [= _ <-]. right.
    eexists _, _, _, _. split; [apply makeTimestamp_eq|].
    split_and!; try reflexivity.
    intros Hplain. simpl. rewrite Hplain. apply toString_plainURL.
  - intros fuel c w o w' Hrun.
    destruct (search_Issued _ _ _ _ _ Hrun) as [exs Hiss].
    exists exs. split; [by apply Issued_log with c|].
    split; [by apply Issued_sentBySearch with w w'|].
    split; [intros Hplain; by apply Issued_targets with w w'|].
    intros Hclock Hlo Hhi. rewrite (Issued_tokens _ _ _ _ Hiss).
    by apply tokens_NoDup.
Qed.

(** *** Termination of the loop over the pages *)

Lemma fetchResult_ok c ex pubs :
  fetchResult c ex = Returns (pubs, None) ->
  exists body r, snd ex = Response 200 body /\
    asSearchResults body = DecodedTo (Some r) /\ pubs = searchResults.Resources r.
Proof.
  unfold fetchResult, replyResult, decode, searchResults_Target.
  destruct (snd ex) as [cause|code body]; [discriminate|].
  destruct (Z.eqb_spec code 200) as [->|Hne]; simpl; [|discriminate].
  destruct (asSearchResults body) as [cause|[r|]] eqn:Hb; simpl; try discriminate.
  intros [= <-]. eauto.
Qed.

Lemma retrieveLoop_terminates c filters total :
  noEmptyPage env c ->
  forall fuel cur acc w,
    (Z.to_nat (total - cur) <= fuel)%nat ->
    exists o w',
      retrieveLoop env fuel c filters total cur acc w = (o, w') /\
      o <> Unfinished /\
      (length (log w') <= length (log w) + Z.to_nat (total - cur))%nat.
Proof.
  intros Hpages. induction fuel as [|fuel IH]; intros cur acc w Hfuel; simpl.
  - destruct (Z.ltb_spec cur total) as [Hlt|Hge]; simpl; [lia|].
    unfold_go. eexists _, _. split; [reflexivity|]. split; [discriminate|lia].
  - destruct (Z.ltb_spec cur total) as [Hlt|Hge]; simpl.
    + unfold_go. rewrite publications_eq.
      destruct (urlError env _) as [cause|] eqn:Hu.
      { eexists _, _. split; [reflexivity|]. split; [discriminate|lia]. }
      simpl. set (ex := exchangeAt env c "search" filters w).
      destruct (fetchResult c ex) as [[pubs [e|]]| |] eqn:Hf.
      * eexists _, _. split; [reflexivity|]. split; [discriminate|].
        simpl. rewrite length_app. simpl. lia.
      * destruct (fetchResult_ok _ _ _ Hf) as (body & r & Hreply & Hbody & ->).
        assert (Hlen : 1 <= len (searchResults.Resources r)).
        { apply (Hpages (log w) (fst ex) body r); [reflexivity|exact Hreply|exact Hbody]. }
        destruct (IH (cur + len (searchResults.Resources r))
                     (applyLocalFilters c (searchResults.Resources r) acc)
                     (worldAfter ex w)) as (o & w' & Hrun & Hfin & Hlog); [lia|].
        exists o, w'. split; [exact Hrun|]. split; [exact Hfin|].
        simpl in Hlog. rewrite length_app in Hlog. simpl in Hlog. lia.
      * eexists _, _. split; [reflexivity|]. split; [discriminate|].
        simpl. rewrite length_app. simpl. lia.
      * exfalso. unfold fetchResult in Hf.
        destruct (replyResult c (Some searchResults.zero) ex) as [[?|] [?|]]; discriminate.
    + unfold_go. eexists _, _. split; [reflexivity|]. split; [discriminate|lia].
Qed.

Lemma empty_page_step c filters total cur acc w fuel pubs w1 :
  cur < total ->
  publications env c filters w = (Returns (pubs, None), w1) ->
  len pubs = 0 ->
  retrieveLoop env (S fuel) c filters total cur acc w
    = retrieveLoop env fuel c filters total cur acc w1.
Proof.
  intros Hlt Hpage Hlen. simpl.
  destruct (Z.ltb_spec cur total) as [_|Hge]; [|lia]. simpl.
  unfold_go. rewrite Hpage. rewrite Hlen, Z.add_0_r.
  assert (Hnil : elems pubs = []).
  { unfold len in Hlen. destruct (elems pubs); [done|]. simpl in Hlen. lia. }
  unfold applyLocalFilters. by rewrite Hnil.
Qed.

(** *** The iteration budget does not matter once it suffices *)

Lemma retrieveLoop_fuel c filters total k : forall fuel cur acc w o w',
  retrieveLoop env fuel c filters total cur acc w = (o, w') ->
  o <> Unfinished ->
  retrieveLoop env (fuel + k) c filters total cur acc w = (o, w').
Proof.
  induction fuel as [|fuel IH]; intros cur acc w o w'.
  - simpl. destruct (Z.ltb_spec cur total) as [Hlt|Hge]; simpl.
    + intros [= <- _] Hfin. by destruct Hfin.
    + intros Hrun _. destruct k; simpl.
      * destruct (Z.ltb_spec cur total); [lia|]. exact Hrun.
      * destruct (Z.ltb_spec cur total); [lia|]. exact Hrun.
  - simpl. destruct (Z.ltb_spec cur total) as [Hlt|Hge]; simpl; [|done].
    unfold_go.
    destruct (publications env c filters w) as [[[pubs [e|]]| |] w1]; try done.
    apply IH.
Qed.

Lemma yearBody_fuel fuel k c year acc w o w' :
  yearBody env fuel c year acc w = (o, w') ->
  o <> Unfinished ->
  yearBody env (fuel + k) c year acc w = (o, w').
Proof.
  unfold yearBody. unfold_go.
  destruct (publicationsCount env c (yearFilters c year) w) as [[[total [e|]]| |] w1];
    try done.
  destruct (total =? 0); [done|].
  destruct (retrieveLoop env fuel c (yearFilters c year) total 0 acc w1)
    as [o1 w2] eqn:Hloop.
  intros Hrun Hfin.
  assert (Hfin1 : o1 <> Unfinished).
  { intros ->. injection Hrun as <- _. by destruct Hfin. }
  by rewrite (retrieveLoop_fuel _ _ _ k _ _ _ _ _ _ Hloop Hfin1).
Qed.

Lemma rangeYears_fuel fuel k c years : forall acc w o w',
  rangeYears env fuel c years acc w = (o, w') ->
  o <> Unfinished ->
  rangeYears env (fuel + k) c years acc w = (o, w').
Proof.
  induction years as [|year years IH]; intros acc w o w'; simpl; [done|].
  unfold_go.
  destruct (yearBody env fuel c year acc w) as [o1 w1] eqn:Hbody.
  intros Hrun Hfin.
  assert (Hfin1 : o1 <> Unfinished).
  { intros ->. injection Hrun as <- _. by destruct Hfin. }
  rewrite (yearBody_fuel _ k _ _ _ _ _ _ Hbody Hfin1).
  destruct o1 as [[acc1|res]| |]; try done.
  by apply IH.
Qed.

Lemma PublicationSearch_fuel fuel k c w o w' :
  PublicationSearch env fuel c w = (o, w') ->
  o <> Unfinished ->
  PublicationSearch env (fuel + k) c w = (o, w').
Proof.
  unfold PublicationSearch.
  destruct (String.eqb (CatalogInfo.Author c) "" || String.eqb (CatalogInfo.Media c) "");
    [done|].
  apply rangeYears_fuel.
Qed.

(** When no fetch request is answered by an empty page, the body of the
    year loop, the loop and the search end. *)
Lemma countResult_finishes c ex : countResult c ex <> Unfinished.
Proof.
  unfold countResult.
  destruct (replyResult c (Some hitResults.zero) ex) as [[r|] [e|]]; try discriminate.
  destruct (negb (hitResults.Success r)); discriminate.
Qed.

Lemma yearBody_terminates c year acc w :
  noEmptyPage env c ->
  exists fuel, fst (yearBody env fuel c year acc w) <> Unfinished.
Proof.
  intros Hpages. unfold yearBody. unfold_go. rewrite publicationsCount_eq.
  destruct (urlError env _) as [cause|]; [by exists 0%nat|].
  simpl. set (cnt := exchangeAt env c "search/count" (yearFilters c year) w).
  pose proof (countResult_finishes c cnt) as Hcnt.
  destruct (countResult c cnt) as [[total [e|]]| |]; try (by exists 0%nat).
  exists (Z.to_nat total).
  destruct (total =? 0); [done|].
  destruct (retrieveLoop_terminates c (yearFilters c year) total Hpages
              (Z.to_nat total) 0 acc (worldAfter cnt w)) as (o & w' & Hrun & Hfin & _); [lia|].
  rewrite Hrun. destruct o as [[cur acc'|e]| |]; try done.
  by destruct (cur >? total).
Qed.

Lemma PublicationSearch_terminates c w :
  noEmptyPage env c ->
  exists fuel,
    fst (PublicationSearch env fuel c w) <> Unfinished /\
    forall k, PublicationSearch env (fuel + k) c w = PublicationSearch env fuel c w.
Proof.
  intros Hpages.
  assert (Hends : exists fuel, fst (PublicationSearch env fuel c w) <> Unfinished).
  { unfold PublicationSearch.
    destruct (String.eqb (CatalogInfo.Author c) "" || String.eqb (CatalogInfo.Media c) "");
      [by exists 0%nat|].
    simpl. unfold_go.
    destruct (yearBody_terminates c "unknown" None w Hpages) as [fuel1 H1].
    destruct (yearBody env fuel1 c "unknown" None w) as [o1 w1] eqn:Hbody1.
    simpl in H1.
    destruct o1 as [[acc1|res]| |]; [|by exists fuel1; rewrite Hbody1| |done].
    - destruct (yearBody_terminates c (yearFilter env) acc1 w1 Hpages) as [fuel2 H2].
      destruct (yearBody env fuel2 c (yearFilter env) acc1 w1) as [o2 w2] eqn:Hbody2.
      simpl in H2.
      exists (fuel1 + fuel2)%nat.
      rewrite (yearBody_fuel _ fuel2 _ _ _ _ _ _ Hbody1) by done.
      rewrite (Nat.add_comm fuel1 fuel2).
      rewrite (yearBody_fuel _ fuel1 _ _ _ _ _ _ Hbody2) by done.
      by destruct o2 as [[acc2|res]| |].
    - exists fuel1. by rewrite Hbody1. }
  destruct Hends as [fuel Hfin]. exists fuel. split; [done|].
  intros k. destruct (PublicationSearch env fuel c w) as [o w'] eqn:Hrun.
  by apply PublicationSearch_fuel.
Qed.

End WithEnv.

End Search.

(** ** Termination of the search, and the caller's choice of media type *)

Module Termination.

Import Go Booklist Run Main Scenarios GoFacts Filter Tokens Search.

(** *** A search that never ends *)

Lemma emptyPages_fetch filters w :
  publications envEmptyPages grafton filters w
    = (Returns (Some [], None),
       worldAfter (exchangeAt envEmptyPages grafton "search" filters w) w).
Proof. rewrite publications_eq. reflexivity. Qed.

Lemma emptyPages_count filters w :
  publicationsCount envEmptyPages grafton filters w
    = (Returns (1, None),
       worldAfter (exchangeAt envEmptyPages grafton "search/count" filters w) w).
Proof. rewrite publicationsCount_eq. reflexivity. Qed.

Lemma emptyPages_loop filters fuel : forall acc w,
  fst (retrieveLoop envEmptyPages fuel grafton filters 1 0 acc w) = Unfinished.
Proof.
  induction fuel as [|fuel IH]; intros acc w; [reflexivity|].
  rewrite (empty_page_step envEmptyPages grafton filters 1 0 acc w fuel (Some [])
             _ ltac:(lia) (emptyPages_fetch filters w) eq_refl).
  apply IH.
Qed.

Lemma emptyPages_search fuel :
  fst (PublicationSearch envEmptyPages fuel grafton initialWorld) = Unfinished.
Proof.
  rewrite PublicationSearch_valid by discriminate.
  simpl. unfold yearBody. unfold_go. rewrite emptyPages_count. simpl.
  pose proof (emptyPages_loop (yearFilters grafton "unknown") fuel None
    (worldAfter (exchangeAt envEmptyPages grafton "search/count"
                   (yearFilters grafton "unknown") initialWorld) initialWorld)) as Hloop.
  destruct (retrieveLoop envEmptyPages fuel grafton _ 1 0 None _) as [o w'].
  simpl in Hloop. subst o. reflexivity.
Qed.

(** C10: when no fetch request is answered by an empty page, the loop
    over the pages ends within as many iterations, and as many requests,
    as publications are still expected (the expected total when it
    starts); a page without resources, received while the retrieved count
    is below the expected total, leaves the count and the kept
    publications as they were, so the loop is where it was; when no
    fetch request is answered by an empty page the whole search ends, with
    a result that no larger number of iterations changes; and against a
    catalog that announces one publication and answers every fetch
    request with an empty page the search does not end, whatever the
    number of iterations it is given. *)
Theorem retrieve_loop_termination :
  (forall env c filters total cur acc w fuel,
     noEmptyPage env c ->
     (Z.to_nat (total - cur) <= fuel)%nat ->
     exists o w',
       retrieveLoop env fuel c filters total cur acc w = (o, w') /\
       o <> Unfinished /\
       (length (log w') <= length (log w) + Z.to_nat (total - cur))%nat) /\
  (forall env c filters total cur acc w fuel pubs w1,
     cur < total ->
     publications env c filters w = (Returns (pubs, None), w1) ->
     len pubs = 0 ->
     retrieveLoop env (S fuel) c filters total cur acc w
       = retrieveLoop env fuel c filters total cur acc w1) /\
  (forall env c w,
     noEmptyPage env c ->
     exists fuel,
       fst (PublicationSearch env fuel c w) <> Unfinished /\
       forall k, PublicationSearch env (fuel + k) c w = PublicationSearch env fuel c w) /\
  (forall fuel,
     fst (PublicationSearch envEmptyPages fuel grafton initialWorld) = Unfinished).
Proof.
  split_and!.
  - intros env c filters total cur acc w fuel Hpages Hfuel.
    by apply retrieveLoop_terminates.
  - intros env c filters total cur acc w fuel pubs w1. apply empty_page_step.
  - intros env c w. apply PublicationSearch_terminates.
  - apply emptyPages_search.
Qed.

End Termination.

Module Caller.

Import Go Booklist Run Main Scenarios.

(** C9, as the code has it: an author without a media type of its own is
    searched with "Book" when the configuration names a default media
    type, and with the empty media type when it names none; only the
    author's own media type is used as given.  With the default "eBook"
    the search is for "Book"; with no default the query has an empty
    media type, which [PublicationSearch] rejects. *)
Theorem default_media_inverted :
  (forall config a,
     CatalogInfo.Media (catalogInfoFor config (defaultMediaOf config) a)
       = if String.eqb (AuthorInfo.Media a) ""
         then (if String.eqb (Config.Media config) "" then "" else "Book")
         else AuthorInfo.Media a) /\
  validated configEBook /\ searchedMedia configEBook = ["Book"] /\
  validated configNoDefault /\ searchedMedia configNoDefault = [""] /\
  (forall env fuel w,
     printSearchResults env fuel configNoDefault w
       = (Returns (Some (Errorf
            "arguments must be non-null:  author=King, Stephan, media='")), w)).
Proof.
  split_and!.
  - intros config a. unfold catalogInfoFor, defaultMediaOf. simpl.
    destruct (String.eqb_spec (AuthorInfo.Media a) ""); simpl; [|done].
    destruct (String.eqb_spec (Config.Media config) "") as [->|]; done.
  - split_and!; [discriminate| |].
    + right. exists "ebook". by vm_compute.
    + repeat constructor; try discriminate.
  - reflexivity.
  - split_and!; [discriminate|by left|].
    repeat constructor; try discriminate.
  - reflexivity.
  - intros env fuel w. reflexivity.
Qed.

End Caller.

(** ** The properties at concrete catalogs *)

Module Examples.

Import Go Booklist Run Main Scenarios GoFacts Filter Tokens Search Termination Caller.

(** The end-to-end scenarios of the specification: nothing of unknown
    year and two publications of the current year, one of them by
    another author; and a count endpoint that reports failure. *)
Example two_hits_scenario :
  fst (PublicationSearch envTwoHits 5 grafton initialWorld)
    = Returns (Some [PublicationInfo.mk "Book" "X"], None).
Proof. vm_compute. reflexivity. Qed.

Example no_success_scenario :
  let run := PublicationSearch envNoSuccess 5 grafton initialWorld in
  fst run = Returns (None, Some (Errorf
              "failed to retrieve total number of matches on author, media and year")) /\
  map (fun ex => rawurl (fst ex)) (log (snd run))
    = ["https://catalog.library.loudoun.gov/search/count"].
Proof. split; vm_compute; reflexivity. Qed.

(** A clock that runs backwards is outside the conditions under which
    tokens are shown to differ: when it is set back by one millisecond
    between two calls, both return the same token. *)
Example clock_set_back_scenario :
  fst (generate envClockSetBack 2 initialWorld)
    = Returns ["1718000000003"; "1718000000003"].
Proof. vm_compute. reflexivity. Qed.

(** The catalog is down: the count request of the unknown-year bucket
    fails, the search returns, and no count request is ever made for the
    current-year bucket. *)
Lemma count_request_missing_after_failure :
  CatalogInfo.Author grafton <> "" /\ CatalogInfo.Media grafton <> "" /\
  ~ oneCountRequestPerBucket envDown 1 grafton initialWorld.
Proof.
  split; [discriminate|]. split; [discriminate|].
  intros Hone. specialize (Hone "2024" (or_intror eq_refl)).
  vm_compute in Hone. discriminate.
Qed.

(** One publication of unknown year has been kept when the page of 2024
    holds two publications where one was announced: the search returns
    the error and no list; and with the catalog down the list is nil too. *)
Lemma count_mismatch_discards_results_witness :
  fst (PublicationSearch envTooMany 5 grafton initialWorld)
    = Returns (None, Some (Errorf
        "Received more publications than expected; expected 1 currently have 2")) /\
  returnedList (fst (PublicationSearch envDown 5 grafton initialWorld)) = None.
Proof.
  split.
  - destruct (count_mismatch_discards_results envTooMany 5 grafton initialWorld) as [_ H].
    pose (r1 := rangeYears envTooMany 5 grafton ["unknown"] None initialWorld).
    pose (r2 := publicationsCount envTooMany grafton (yearFilters grafton "2024") (snd r1)).
    pose (r3 := retrieveLoop envTooMany 5 grafton (yearFilters grafton "2024") 1 0
                  (Some [PublicationInfo.mk "Book" "X"]) (snd r2)).
    rewrite (H ["unknown"] "2024" [] (Some [PublicationInfo.mk "Book" "X"]) (snd r1) 1
               (snd r2) 2
               (Some [PublicationInfo.mk "Book" "X"; PublicationInfo.mk "Book" "X";
                      PublicationInfo.mk "Large Print" "Y is for yesterday"])
               (snd r3)).
    + reflexivity.
    + discriminate.
    + discriminate.
    + reflexivity.
    + vm_compute. reflexivity.
    + vm_compute. reflexivity.
    + vm_compute. reflexivity.
    + reflexivity.
  - destruct (count_mismatch_discards_results envDown 5 grafton initialWorld) as [H _].
    pose (r := PublicationSearch envDown 5 grafton initialWorld).
    apply (H (returnedList (fst r))
             (PostFailed (requestAt envDown grafton "search/count"
                            (yearFilters grafton "unknown") initialWorld)
                         "connection refused")
             (snd r)).
    vm_compute. reflexivity.
Defined.

(** A query without an author name. *)
Lemma empty_argument_rejected_before_io_witness :
  exists msg w',
    PublicationSearch envTwoHits 5 (CatalogInfo.mk baseURL "" "Book") initialWorld
      = (Returns (None, Some (Errorf msg)), w') /\
    w' = initialWorld /\ requests w' = [] /\
    msg = "arguments must be non-null:  author=, media=Book'".
Proof.
  destruct (empty_argument_rejected_before_io envTwoHits 5
              (CatalogInfo.mk baseURL "" "Book") initialWorld (or_introl eq_refl))
    as (msg & w' & Hrun & Hw & Hreq & Hmsg & _).
  exists msg, w'. split; [exact Hrun|]. split; [exact Hw|].
  split; [exact Hreq|exact Hmsg].
Defined.

(** The cookbook without an author, the author spelled in lower case, a
    co-authored title, and a match without a title whose format is not a
    string. *)
Lemma local_filter_exact_author_witness :
  applyLocalFilters grafton (Some [cookbook]) None = None /\
  applyLocalFilters grafton (Some [lowerCase]) None = None /\
  applyLocalFilters grafton (Some [coAuthored]) None = None /\
  (exists info,
     applyLocalFilters grafton (Some [untitled]) None = Some [info] /\
     PublicationInfo.Media info = "Unknown" /\
     PublicationInfo.Publication info = "Unknown").
Proof.
  split_and!.
  - apply (proj1 (local_filter_exact_author grafton cookbook None)).
    intros a. vm_compute. discriminate.
  - apply (proj1 (proj2 (local_filter_exact_author grafton lowerCase None)) "grafton, sue").
    + vm_compute. reflexivity.
    + discriminate.
  - apply (proj1 (proj2 (local_filter_exact_author grafton coAuthored None))
             "Grafton, Sue; King, Stephen").
    + vm_compute. reflexivity.
    + discriminate.
  - destruct (proj1 (proj2 (proj2 (local_filter_exact_author grafton untitled None))))
      as (info & Hkeep & _ & Hformat & _ & Htitle).
    + vm_compute. reflexivity.
    + exists info. split; [exact Hkeep|]. split.
      * apply Hformat. intros f. vm_compute. discriminate.
      * apply Htitle. intros t. vm_compute. discriminate.
Defined.

(** A search that finds nothing of unknown year and one of two
    publications of 2024. *)
Lemma count_requests_per_bucket_witness :
  let run := PublicationSearch envTwoHits 5 grafton initialWorld in
  exists seg1 seg2,
    log (snd run) = seg1 ++ seg2 /\
    bucketRequests grafton "unknown" seg1 /\ bucketRequests grafton "2024" seg2 /\
    countRequests grafton seg1 = 1%nat /\ countRequests grafton seg2 = 1%nat /\
    length seg1 = 1%nat.
Proof.
  intros run.
  destruct (count_requests_per_bucket envTwoHits 5 grafton initialWorld (fst run) (snd run))
    as (seg1 & seg2 & Hlog & Hb1 & Hb2 & _ & _ & Hone & Hzero1 & _).
  - discriminate.
  - discriminate.
  - apply surjective_pairing.
  - exists seg1, seg2.
    destruct (Hone (Some [PublicationInfo.mk "Book" "X"])) as [H1 H2].
    { vm_compute. reflexivity. }
    split; [exact Hlog|]. split; [exact Hb1|]. split; [exact Hb2|].
    split; [exact H1|]. split; [exact H2|].
    destruct seg1 as [|cnt fetches]; [discriminate H1|].
    destruct (Hzero1 cnt fetches eq_refl) as [-> _]; [|reflexivity].
    simpl in Hlog. unfold run in Hlog.
    assert (Hcnt : cnt = exchangeAt envTwoHits grafton "search/count"
                           (yearFilters grafton "unknown") initialWorld).
    { revert Hlog. vm_compute. intros Hlog. injection Hlog as <-. reflexivity. }
    rewrite Hcnt. eexists _, _. split; [reflexivity|]. split; [reflexivity|].
    split; reflexivity.
Defined.

(** One publication of unknown year is kept, then the count for 2024
    reports failure. *)
Lemma count_failure_aborts_search_witness :
  fst (PublicationSearch envCountFails 5 grafton initialWorld)
    = Returns (None, Some (Errorf
        "failed to retrieve total number of matches on author, media and year")) /\
  length (log (snd (PublicationSearch envCountFails 5 grafton initialWorld))) = 3%nat.
Proof.
  pose (run := PublicationSearch envCountFails 5 grafton initialWorld).
  pose (w1 := worldAfter (exchangeAt envCountFails grafton "search/count"
                            (yearFilters grafton "unknown") initialWorld) initialWorld).
  pose (w2 := worldAfter (exchangeAt envCountFails grafton "search"
                            (yearFilters grafton "unknown") w1) w1).
  destruct (count_failure_aborts_search envCountFails 5 grafton initialWorld
              (fst run) (snd run)
              [exchangeAt envCountFails grafton "search/count"
                 (yearFilters grafton "unknown") initialWorld;
               exchangeAt envCountFails grafton "search"
                 (yearFilters grafton "unknown") w1]
              (exchangeAt envCountFails grafton "search/count"
                 (yearFilters grafton "2024") w2)
              [] (hitsBody false 1) (hitResults.mk false 1)) as [_ Ho].
  - apply surjective_pairing.
  - vm_compute. reflexivity.
  - reflexivity.
  - vm_compute. reflexivity.
  - reflexivity.
  - reflexivity.
  - split; [exact Ho|]. vm_compute. reflexivity.
Defined.

(** Two buckets of three publications each, in pages of two and of one;
    the lower-case author is filtered out of the page it arrives in. *)
Lemma results_bucket_then_page_order_witness :
  let run := PublicationSearch envPages 5 grafton initialWorld in
  exists cnt1 fetches1 cnt2 fetches2,
    log (snd run) = (cnt1 :: fetches1) ++ (cnt2 :: fetches2) /\
    Forall (isFetch grafton "unknown") fetches1 /\
    Forall (isFetch grafton "2024") fetches2 /\
    flat_map (keptOfPage grafton) fetches1 ++ flat_map (keptOfPage grafton) fetches2
      = [ PublicationInfo.mk "Book" "X";
          PublicationInfo.mk "Large Print" "Y is for yesterday";
          PublicationInfo.mk "Large Print" "Y is for yesterday";
          PublicationInfo.mk "Book" "X" ].
Proof.
  intros run.
  destruct (results_bucket_then_page_order envPages 5 grafton initialWorld
              (Some [ PublicationInfo.mk "Book" "X";
                      PublicationInfo.mk "Large Print" "Y is for yesterday";
                      PublicationInfo.mk "Large Print" "Y is for yesterday";
                      PublicationInfo.mk "Book" "X" ])
              (snd run))
    as (cnt1 & f1 & cnt2 & f2 & Hlog & _ & Hf1 & _ & Hf2 & Hres).
  - vm_compute. reflexivity.
  - exists cnt1, f1, cnt2, f2. split; [exact Hlog|]. split; [exact Hf1|].
    split; [exact Hf2|]. symmetry. exact Hres.
Defined.

Lemma june2024_steady counts pages : steadyClock (envOf counts pages).
Proof.
  split; intros; simpl; unfold june2024; [lia|].
  unfold int64. lia.
Qed.

Lemma twoHits_noEmptyPage : noEmptyPage envTwoHits grafton.
Proof.
  intros h req body r Hurl Hreply Hbody.
  simpl in Hreply. unfold scripted in Hreply. rewrite Hurl in Hreply.
  simpl in Hreply. injection Hreply as <-. simpl in Hbody. injection Hbody as <-.
  by vm_compute.
Qed.

(** The requests of the search that finds one of two publications. *)
Lemma request_shape_witness :
  let run := PublicationSearch envTwoHits 5 grafton initialWorld in
  (exists req reply,
     log (snd (issueRequest envTwoHits grafton "search" (yearFilters grafton "2024")
                 (Some searchResults.zero) initialWorld)) = [(req, reply)] /\
     rawurl req = "https://catalog.library.loudoun.gov/search" /\
     urlString req = "https://catalog.library.loudoun.gov/search?_=1718000000002" /\
     query req = [("_", "1718000000002")] /\
     searchFilter.HitsPerPage (payload req) = 30 /\
     searchFilter.FacetFilters (payload req) = yearFilters grafton "2024") /\
  Forall (fun ex => sentBySearch envTwoHits grafton (fst ex)) (log (snd run)) /\
  Forall (fun ex => exists endpt token,
            (endpt = "search/count" \/ endpt = "search") /\
            query (fst ex) = [("_", token)] /\
            urlString (fst ex)
              = ("https://catalog.library.loudoun.gov/" +:+ endpt) +:+ "?_=" +:+ token)
         (log (snd run)) /\
  NoDup (tokensOf (log (snd run))).
Proof.
  intros run. destruct (request_shape envTwoHits) as [Hone Hall]. split.
  - pose (r := issueRequest envTwoHits grafton "search" (yearFilters grafton "2024")
                 (Some searchResults.zero) initialWorld).
    destruct (Hone _ _ grafton "search" (yearFilters grafton "2024")
                (Some searchResults.zero) initialWorld (fst r) (snd r)
                (surjective_pairing r))
      as [Hsame|(req & reply & token & w1 & Htok & Hlog & _ & Hurl & _ & Hsent & Hq & _ & Hh
                 & _ & _ & Hf & _)].
    + exfalso. apply (f_equal clockReads) in Hsame. vm_compute in Hsame. discriminate.
    + exists req, reply. injection Htok as <- _.
      split; [exact Hlog|]. split; [exact Hurl|].
      split; [apply Hsent; vm_compute; reflexivity|].
      split; [exact Hq|]. split; [exact Hh|exact Hf].
  - destruct (Hall 5%nat grafton initialWorld (fst run) (snd run) (surjective_pairing run))
      as (exs & Hlog & Hshape & Htargets & Hnodup).
    simpl in Hlog. rewrite Hlog. split; [exact Hshape|]. split.
    + apply Htargets. intros endpt [->| ->]; vm_compute; reflexivity.
    + apply Hnodup.
      * apply june2024_steady.
      * simpl. lia.
      * rewrite <- Hlog. vm_compute. reflexivity.
Defined.

(** A catalog URL that holds a query, as it is copied from a browser:
    [url.Parse] takes the endpoint path for a part of the query, which
    [issueRequest] then overwrites, so that the count request goes to the
    catalog URL itself and not to its count endpoint. *)
Lemma endpoint_lost_after_query_in_catalog_url :
  let c := CatalogInfo.mk "https://catalog.library.loudoun.gov/?section=home"
             "Grafton, Sue" "Book" in
  let run := issueRequest envTwoHits c "search/count" (yearFilters c "unknown")
               (Some hitResults.zero) initialWorld in
  exists req reply,
    log (snd run) = [(req, reply)] /\
    urlString req = "https://catalog.library.loudoun.gov/?_=1718000000002" /\
    ~ targetsEndpoint c "search/count" req.
Proof.
  intros c run. eexists _, _. split; [vm_compute; reflexivity|].
  split; [vm_compute; reflexivity|].
  intros (token & _ & Hurl). vm_compute in Hurl. discriminate Hurl.
Qed.

(** The clock is set back by one millisecond between two successive
    calls of the token generator: both return the same token. *)
Lemma successive_tokens_equal_after_step_back :
  now envClockSetBack 1 = now envClockSetBack 0 - 1000000 /\
  (exists w1 w2,
     makeTimestamp envClockSetBack initialWorld = (Returns "1718000000003", w1) /\
     makeTimestamp envClockSetBack w1 = (Returns "1718000000003", w2)) /\
  ~ successiveTokensDiffer envClockSetBack initialWorld.
Proof.
  split; [reflexivity|]. split.
  - exists (mkWorld 2 1 []), (mkWorld 3 2 []). split; vm_compute; reflexivity.
  - intros Hdiffer.
    apply (Hdiffer "1718000000003" (mkWorld 2 1 []) "1718000000003" (mkWorld 3 2 []));
      vm_compute; reflexivity.
Qed.

(** Where the sum of the milliseconds and the counter passes 2^63 - 1
    the value wraps around: under a clock that stands still the second
    token is below the first. *)
Example counter_overflow_scenario :
  fst (generate envTwoHits 2 (mkWorld (2 ^ 63 - 2 - 1718000000000) 0 []))
    = Returns ["9223372036854775807"; "-9223372036854775808"].
Proof. vm_compute. reflexivity. Qed.

(** Three tokens generated within one millisecond. *)
Lemma tokens_distinct_witness :
  "1718000000002" <> "1718000000003" /\
  exists values,
    fst (generate envTwoHits 3 initialWorld) = Returns (map sprintf_d values) /\
    StronglySorted Z.lt values /\ NoDup (map sprintf_d values).
Proof.
  destruct (tokens_distinct envTwoHits) as [Hsame Hall]. split.
  - apply (Hsame initialWorld "1718000000002" (mkWorld 2 1 [])
                 "1718000000003" (mkWorld 3 2 [])).
    + vm_compute. reflexivity.
    + vm_compute. reflexivity.
    + reflexivity.
  - apply (Hall 3%nat initialWorld).
    + apply june2024_steady.
    + simpl. lia.
    + simpl. lia.
Defined.

(** Pages of two publications end the loop for an expected total of two
    within two iterations, and the search with it; an empty page leaves
    the loop where it was. *)
Lemma retrieve_loop_termination_witness :
  (exists o w',
     retrieveLoop envTwoHits 2 grafton (yearFilters grafton "2024") 2 0 None initialWorld
       = (o, w') /\
     o <> Unfinished /\ (length (log w') <= 2)%nat) /\
  retrieveLoop envEmptyPages 1 grafton (yearFilters grafton "2024") 1 0 None initialWorld
    = retrieveLoop envEmptyPages 0 grafton (yearFilters grafton "2024") 1 0 None
        (snd (publications envEmptyPages grafton (yearFilters grafton "2024") initialWorld)) /\
  (exists fuel,
     fst (PublicationSearch envTwoHits fuel grafton initialWorld) <> Unfinished /\
     forall k, PublicationSearch envTwoHits (fuel + k) grafton initialWorld
               = PublicationSearch envTwoHits fuel grafton initialWorld).
Proof.
  destruct retrieve_loop_termination as (Hends & Hempty & Hsearch & _). split_and!.
  - apply (Hends envTwoHits grafton (yearFilters grafton "2024") 2 0 None initialWorld 2%nat).
    + apply twoHits_noEmptyPage.
    + simpl. lia.
  - apply (Hempty envEmptyPages grafton (yearFilters grafton "2024") 1 0 None initialWorld
                  0%nat (Some [])).
    + lia.
    + vm_compute. reflexivity.
    + reflexivity.
  - apply (Hsearch envTwoHits grafton initialWorld). apply twoHits_noEmptyPage.
Defined.

End Examples.

(** ** The runs of a search: how it ends, what it has retrieved, what it consumes *)

Module Runs.

Import Go Booklist Run Trace GoFacts Filter Tokens Search.

Section WithEnv.

Context (env : Env).

(** *** The function's runs are runs of the relations *)

Lemma retrieveLoop_LoopRun fuel c year totalCount :
  year = "unknown" \/ year = yearFilter env ->
  forall currentCount filteredPubs w o w',
    retrieveLoop env fuel c (yearFilters c year) totalCount currentCount filteredPubs w
      = (o, w') ->
    exists fetches,
      Issued env c w fetches w' /\
      LoopRun env c year totalCount currentCount filteredPubs fetches o.
Proof.
  intros Hy. induction fuel as [|fuel IH]; intros cur acc w o w'; simpl.
  - destruct (Z.ltb_spec cur totalCount) as [Hlt|Hge]; simpl.
    + intros [= <- <-]. exists []. split; [constructor|by constructor].
    + unfold_go. intros [= <- <-]. exists []. split; [constructor|by constructor].
  - destruct (Z.ltb_spec cur totalCount) as [Hlt|Hge]; simpl.
    + unfold_go. rewrite publications_eq.
      destruct (urlError env _) as [cause|] eqn:Hu.
      { intros [= <- <-]. exists []. split; [constructor|by constructor]. }
      simpl.
      set (ex := exchangeAt env c "search" (yearFilters c year) w).
      assert (Hex : isFetch c year ex) by apply exchangeAt_isFetch.
      destruct (fetchResult c ex) as [[pubs [e|]]| |] eqn:Hf.
      * intros [= <- <-]. exists [ex]. split; [by apply Issued_one; auto|].
        by apply LoopRun_error with pubs.
      * intros Hrun. apply IH in Hrun as (fetches & Hiss & Hloop).
        exists (ex :: fetches). split; [apply Issued_cons; auto|].
        by apply LoopRun_page with pubs.
      * intros [= <- <-]. exists [ex]. split; [by apply Issued_one; auto|].
        by apply LoopRun_panic.
      * exfalso. unfold fetchResult in Hf.
        destruct (replyResult c (Some searchResults.zero) ex) as [[?|] [?|]]; discriminate.
    + unfold_go. intros [= <- <-]. exists []. split; [constructor|by constructor].
Qed.

Lemma yearBody_BucketRun fuel c year filteredPubs w o w' :
  year = "unknown" \/ year = yearFilter env ->
  yearBody env fuel c year filteredPubs w = (o, w') ->
  exists seg, Issued env c w seg w' /\ BucketRun env c year filteredPubs seg o.
Proof.
  intros Hy. unfold yearBody. unfold_go. rewrite publicationsCount_eq.
  destruct (urlError env _) as [cause|] eqn:Hu.
  { intros [= <- <-]. exists []. split; [constructor|by constructor]. }
  simpl. set (cnt := exchangeAt env c "search/count" (yearFilters c year) w).
  set (w1 := worldAfter cnt w).
  assert (Hone : Issued env c w [cnt] w1) by (apply Issued_one; auto).
  assert (Hcnt : isCount c year cnt) by apply exchangeAt_isCount.
  destruct (countResult c cnt) as [[total [e|]]| |] eqn:Hc.
  - intros [= <- <-]. exists [cnt]. split; [done|]. by apply BucketRun_error with total.
  - destruct (Z.eqb_spec total 0) as [->|Hnz].
    + intros [= <- <-]. exists [cnt]. split; [done|]. by apply BucketRun_none.
    + destruct (retrieveLoop env fuel c (yearFilters c year) total 0 filteredPubs w1)
        as [r w2] eqn:Hloop.
      destruct (retrieveLoop_LoopRun _ _ _ _ Hy _ _ _ _ _ Hloop) as (fetches & Hiss & Hrun).
      intros Hend. exists (cnt :: fetches).
      assert (Hout : o = afterLoop total r /\ w' = w2).
      { destruct r as [[cur acc'|e]| |]; simpl; try (by injection Hend as <- <-).
        destruct (cur >? total); by injection Hend as <- <-. }
      destruct Hout as [-> ->].
      split; [by apply (Issued_app env c w [cnt] w1)|].
      by apply BucketRun_pages.
  - intros [= <- <-]. exists [cnt]. split; [done|]. by apply BucketRun_panic.
  - by destruct (countResult_finishes c cnt).
Qed.

Lemma search_SearchRun fuel c w o w' :
  CatalogInfo.Author c <> "" -> CatalogInfo.Media c <> "" ->
  PublicationSearch env fuel c w = (o, w') ->
  exists exs, Issued env c w exs w' /\ SearchRun env c exs o.
Proof.
  intros Ha Hm. rewrite PublicationSearch_valid by done. simpl. unfold_go.
  destruct (yearBody env fuel c "unknown" None w) as [r1 w1] eqn:H1.
  apply yearBody_BucketRun in H1 as (seg1 & Hi1 & Hb1); [|by left].
  destruct r1 as [[acc1|result]| |].
  - destruct (yearBody env fuel c (yearFilter env) acc1 w1) as [r2 w2] eqn:H2.
    apply yearBody_BucketRun in H2 as (seg2 & Hi2 & Hb2); [|by right].
    intros Hend. exists (seg1 ++ seg2).
    assert (Hout : o = afterYears r2 /\ w' = w2)
      by (destruct r2 as [[?|?]| |]; by injection Hend as <- <-).
    destruct Hout as [-> ->].
    split; [by apply Issued_app with w1|]. by apply SearchRun_both with acc1.
  - intros [= <- <-]. exists seg1. split; [done|].
    by apply (SearchRun_first env c seg1 (Returns (Return result))).
  - intros [= <- <-]. exists seg1. split; [done|].
    by apply (SearchRun_first env c seg1 Panics).
  - intros [= <- <-]. exists seg1. split; [done|].
    by apply (SearchRun_first env c seg1 Unfinished).
Qed.

(** *** The loop over the pages *)

Lemma LoopRun_fetches c year totalCount cur acc exs o :
  LoopRun env c year totalCount cur acc exs o -> Forall (isFetch c year) exs.
Proof.
  induction 1 as [| | | |? ? ? ? ? ? ? Hex ? ? IH|];
    [apply Forall_nil|apply Forall_nil|by apply Forall_singleton
    |by apply Forall_singleton|by apply Forall_cons|apply Forall_nil]; done.
Qed.

Lemma LoopRun_exit_inv c year totalCount cur acc exs o :
  LoopRun env c year totalCount cur acc exs o ->
  forall cur' acc', o = Returns (LoopExit cur' acc') ->
    cur' = cur + retrieved exs /\ totalCount <= cur' /\
    (forall init last, exs = init ++ [last] -> cur + retrieved init < totalCount) /\
    elems acc' = elems acc ++ flat_map (keptOfPage c) exs.
Proof.
  induction 1 as [cur acc Hge|cur acc cause Hlt Hu|cur acc ex pubs e Hlt Hex Hf
                 |cur acc ex Hlt Hex Hf|cur acc ex pubs exs o Hlt Hex Hf Hrun IH
                 |cur acc Hlt]; intros cur' acc' Ho; try discriminate.
  - injection Ho as <- <-. simpl. split_and!; [lia|lia| |by rewrite app_nil_r].
    intros [|? ?] last; discriminate.
  - destruct (IH _ _ Ho) as (Hcur & Hle & Hinit & Hacc).
    apply fetchResult_page in Hf. subst pubs.
    split_and!.
    + simpl. lia.
    + done.
    + intros [|i init] last Heq; simpl in *.
      * lia.
      * injection Heq as <- Heq. specialize (Hinit _ _ Heq). lia.
    + rewrite Hacc, applyLocalFilters_elems. simpl.
      unfold keptOfPage at 2. by rewrite <- app_assoc.
Qed.

Lemma LoopRun_reached c year totalCount cur acc exs o :
  totalCount <= cur ->
  LoopRun env c year totalCount cur acc exs o ->
  exs = [] /\ o = Returns (LoopExit cur acc).
Proof. intros Hge. destruct 1; (done || lia). Qed.

Lemma isFetch_endOf c year ex :
  isFetch c year ex ->
  endOf c ex = match fetchResult c ex with
               | Returns (_, Some e) => Some (Returns (None, Some e))
               | Panics => Some Panics
               | _ => None
               end.
Proof.
  intros [Hurl _]. unfold endOf. rewrite Hurl.
  destruct (decide _) as [Heq|_]; [|done]. by apply fetch_url_not_count_url in Heq.
Qed.

Lemma isCount_endOf c year ex :
  isCount c year ex ->
  endOf c ex = match countResult c ex with
               | Returns (_, Some e) => Some (Returns (None, Some e))
               | Panics => Some Panics
               | _ => None
               end.
Proof.
  intros [Hurl _]. unfold endOf. by destruct (decide _).
Qed.

(** An exchange at which the search ends is the last one of its loop. *)
Lemma LoopRun_end c year totalCount cur acc exs r :
  LoopRun env c year totalCount cur acc exs r ->
  forall pre ex post o, exs = pre ++ ex :: post -> endOf c ex = Some o ->
    post = [] /\ (forall acc', afterLoop totalCount r <> Returns (NextYear acc')) /\
    afterYears (afterLoop totalCount r) = o.
Proof.
  induction 1 as [cur acc Hge|cur acc cause Hlt Hu|cur acc ex' pubs e Hlt Hex Hf
                 |cur acc ex' Hlt Hex Hf|cur acc ex' pubs exs r Hlt Hex Hf Hrun IH
                 |cur acc Hlt]; intros pre ex post o Heq Hend.
  - by destruct pre.
  - by destruct pre.
  - destruct pre as [|? [|? ?]]; try discriminate. injection Heq as <- <-.
    rewrite (isFetch_endOf _ _ _ Hex), Hf in Hend. injection Hend as <-. done.
  - destruct pre as [|? [|? ?]]; try discriminate. injection Heq as <- <-.
    rewrite (isFetch_endOf _ _ _ Hex), Hf in Hend. injection Hend as <-. done.
  - destruct pre as [|p pre]; simpl in Heq.
    + injection Heq as <- _. by rewrite (isFetch_endOf _ _ _ Hex), Hf in Hend.
    + injection Heq as _ Heq. by apply (IH pre ex post o).
  - by destruct pre.
Qed.

(** A loop that panics does so at its last exchange. *)
Lemma LoopRun_panics c year totalCount cur acc exs r :
  LoopRun env c year totalCount cur acc exs r -> r = Panics ->
  exists pre ex, exs = pre ++ [ex] /\ endOf c ex = Some Panics.
Proof.
  induction 1 as [cur acc Hge|cur acc cause Hlt Hu|cur acc ex' pubs e Hlt Hex Hf
                 |cur acc ex' Hlt Hex Hf|cur acc ex' pubs exs r Hlt Hex Hf Hrun IH
                 |cur acc Hlt]; intros Hr; try discriminate.
  - exists [], ex'. split; [done|]. by rewrite (isFetch_endOf _ _ _ Hex), Hf.
  - destruct (IH Hr) as (pre & ex & -> & Hend). by exists (ex' :: pre), ex.
Qed.

(** *** One year bucket *)

Lemma BucketRun_end c year acc seg r :
  BucketRun env c year acc seg r ->
  forall pre ex post o, seg = pre ++ ex :: post -> endOf c ex = Some o ->
    post = [] /\ (forall acc', r <> Returns (NextYear acc')) /\ afterYears r = o.
Proof.
  destruct 1 as [cause Hu|cnt n e Hcnt Hc|cnt Hcnt Hc|cnt Hcnt Hc
                |cnt total fetches r Hcnt Hc Hnz Hloop]; intros pre ex post o Heq Hend.
  - by destruct pre.
  - destruct pre as [|? [|? ?]]; try discriminate. injection Heq as <- <-.
    rewrite (isCount_endOf _ _ _ Hcnt), Hc in Hend. injection Hend as <-. done.
  - destruct pre as [|? [|? ?]]; try discriminate. injection Heq as <- <-.
    rewrite (isCount_endOf _ _ _ Hcnt), Hc in Hend. injection Hend as <-. done.
  - destruct pre as [|? [|? ?]]; try discriminate. injection Heq as <- <-.
    by rewrite (isCount_endOf _ _ _ Hcnt), Hc in Hend.
  - destruct pre as [|p pre]; simpl in Heq.
    + injection Heq as <- _. by rewrite (isCount_endOf _ _ _ Hcnt), Hc in Hend.
    + injection Heq as _ Heq. by apply (LoopRun_end _ _ _ _ _ _ _ Hloop pre ex post o).
Qed.

Lemma BucketRun_panics c year acc seg r :
  BucketRun env c year acc seg r -> r = Panics ->
  exists pre ex, seg = pre ++ [ex] /\ endOf c ex = Some Panics.
Proof.
  destruct 1 as [cause Hu|cnt n e Hcnt Hc|cnt Hcnt Hc|cnt Hcnt Hc
                |cnt total fetches r Hcnt Hc Hnz Hloop]; intros Hr; try discriminate.
  - exists [], cnt. split; [done|]. by rewrite (isCount_endOf _ _ _ Hcnt), Hc.
  - assert (Hp : r = Panics).
    { destruct r as [[cur acc'|e]| |]; simpl in Hr; try done.
      by destruct (cur >? total). }
    destruct (LoopRun_panics _ _ _ _ _ _ _ Hloop Hp) as (pre & ex & -> & Hend).
    by exists (cnt :: pre), ex.
Qed.

(** *** The whole search *)

Lemma SearchRun_end c exs o :
  SearchRun env c exs o ->
  forall pre ex post o', exs = pre ++ ex :: post -> endOf c ex = Some o' ->
    post = [] /\ o = o'.
Proof.
  destruct 1 as [seg1 r1 Hb1 Hstop|seg1 acc1 seg2 r2 Hb1 Hb2];
    intros pre ex post o' Heq Hend.
  - destruct (BucketRun_end _ _ _ _ _ Hb1 _ _ _ _ Heq Hend) as (-> & _ & <-). done.
  - apply app_eq_app in Heq as [l [[-> Hl]|[-> ->]]].
    + destruct l as [|x l]; simpl in Hl.
      * subst seg2. rewrite app_nil_r in Hb1.
        destruct (BucketRun_end _ _ _ _ _ Hb2 [] ex post o' eq_refl Hend) as (-> & _ & <-).
        done.
      * injection Hl as <- ->.
        destruct (BucketRun_end _ _ _ _ _ Hb1 pre ex l o' eq_refl Hend) as (_ & Hnot & _).
        by destruct (Hnot acc1).
    + destruct (BucketRun_end _ _ _ _ _ Hb2 l ex post o' eq_refl Hend) as (-> & _ & <-).
      done.
Qed.

Lemma SearchRun_panics c exs o :
  SearchRun env c exs o -> o = Panics ->
  exists pre ex, exs = pre ++ [ex] /\ endOf c ex = Some Panics.
Proof.
  destruct 1 as [seg1 r1 Hb1 Hstop|seg1 acc1 seg2 r2 Hb1 Hb2]; intros Hr.
  - assert (Hp : r1 = Panics) by (by destruct r1 as [[?|?]| |]).
    by apply (BucketRun_panics _ _ _ _ _ Hb1).
  - assert (Hp : r2 = Panics) by (by destruct r2 as [[?|?]| |]).
    destruct (BucketRun_panics _ _ _ _ _ Hb2 Hp) as (pre & ex & -> & Hend).
    exists (seg1 ++ pre), ex. by rewrite <- app_assoc.
Qed.

(** A search that is given an empty author or media type leaves the
    world as it is. *)
Lemma search_log fuel c w o w' :
  PublicationSearch env fuel c w = (o, w') ->
  (CatalogInfo.Author c <> "" /\ CatalogInfo.Media c <> "") \/ w' = w.
Proof.
  intros Hrun.
  destruct (decide (CatalogInfo.Author c = "")) as [Ha|Ha].
  { rewrite PublicationSearch_rejects in Hrun by (by left). injection Hrun as _ <-.
    by right. }
  destruct (decide (CatalogInfo.Media c = "")) as [Hm|Hm].
  { rewrite PublicationSearch_rejects in Hrun by (by right). injection Hrun as _ <-.
    by right. }
  by left.
Qed.

Lemma search_exchanges fuel c w o w' exs :
  PublicationSearch env fuel c w = (o, w') ->
  log w' = log w ++ exs -> exs <> [] ->
  Issued env c w exs w' /\ SearchRun env c exs o.
Proof.
  intros Hrun Hlog Hne.
  destruct (search_log _ _ _ _ _ Hrun) as [[Ha Hm]| ->].
  - destruct (search_SearchRun _ _ _ _ _ Ha Hm Hrun) as (exs' & Hiss & Hsr).
    rewrite (Issued_log _ _ _ _ _ Hiss) in Hlog. apply app_inv_head in Hlog.
    by subst exs'.
  - exfalso. apply Hne. apply (f_equal length) in Hlog.
    rewrite length_app in Hlog. destruct exs; [done|simpl in Hlog; lia].
Qed.

(** *** Exchanges at which a search ends *)

Lemma exchangeError_endOf c ex e :
  exchangeError c ex = Some e -> endOf c ex = Some (Returns (None, Some e)).
Proof.
  unfold exchangeError, endOf, countResult, fetchResult.
  destruct (decide _).
  - destruct (replyResult c (Some hitResults.zero) ex) as [[t|] [e'|]]; simpl;
      try done; by intros [= ->].
  - destruct (replyResult c (Some searchResults.zero) ex) as [[t|] [e'|]]; simpl;
      try done; by intros [= ->].
Qed.

Lemma nullBody_endOf c ex : nullBody c ex <-> endOf c ex = Some Panics.
Proof.
  unfold nullBody, endOf, countResult, fetchResult, replyResult, decode,
    hitResults_Target, searchResults_Target.
  destruct (decide _); (split; [intros (body & -> & Hb); simpl; by rewrite Hb|]).
  - destruct (snd ex) as [cause|code body]; [done|].
    destruct (Z.eqb_spec code 200) as [->|Hne]; simpl; [|done].
    destruct (asHitResults body) as [cause|[r|]] eqn:Hb; simpl; try done.
    + by destruct (negb (hitResults.Success r)).
    + intros _. by exists body.
  - destruct (snd ex) as [cause|code body]; [done|].
    destruct (Z.eqb_spec code 200) as [->|Hne]; simpl; [|done].
    destruct (asSearchResults body) as [cause|[r|]] eqn:Hb; simpl; try done.
    intros _. by exists body.
Qed.

(** X2: a request that fails ends the search.  Whatever the position of
    an exchange among those of a search, when [issueRequest] makes an
    error of it (the transport failed, the status is not 200, or the
    body does not decode into the target of its endpoint), no request
    follows it, and [PublicationSearch] returns a nil list and that
    error: nothing is retried and nothing kept so far is returned. *)
Theorem failed_request_ends_search fuel c w o w' pre ex post e :
  PublicationSearch env fuel c w = (o, w') ->
  log w' = log w ++ pre ++ ex :: post ->
  exchangeError c ex = Some e ->
  post = [] /\ o = Returns (None, Some e).
Proof.
  intros Hrun Hlog He.
  destruct (search_exchanges _ _ _ _ _ _ Hrun Hlog) as [_ Hsr]; [by destruct pre|].
  apply (SearchRun_end _ _ _ Hsr pre ex post); [done|].
  by apply exchangeError_endOf.
Qed.

(** X3: a 200 response whose body is the JSON literal [null] makes the
    search panic.  The decoder leaves a nil pointer, which
    [publicationsCount] and [publications] dereference: the exchange is
    the last one and [PublicationSearch] does not return.  With a logger
    in place (the [Log] field is left out of the embedding) these are
    the only panics: a search that panics has made a last exchange of
    that kind. *)
Theorem null_body_panics fuel c w :
  (forall o w' pre ex post,
     PublicationSearch env fuel c w = (o, w') ->
     log w' = log w ++ pre ++ ex :: post ->
     nullBody c ex ->
     post = [] /\ o = Panics) /\
  (forall w',
     PublicationSearch env fuel c w = (Panics, w') ->
     exists pre ex, log w' = log w ++ pre ++ [ex] /\ nullBody c ex).
Proof.
  split.
  - intros o w' pre ex post Hrun Hlog Hnull.
    destruct (search_exchanges _ _ _ _ _ _ Hrun Hlog) as [_ Hsr]; [by destruct pre|].
    apply (SearchRun_end _ _ _ Hsr pre ex post); [done|].
    by apply nullBody_endOf.
  - intros w' Hrun.
    destruct (search_log _ _ _ _ _ Hrun) as [[Ha Hm]| ->].
    + destruct (search_SearchRun _ _ _ _ _ Ha Hm Hrun) as (exs & Hiss & Hsr).
      destruct (SearchRun_panics _ _ _ Hsr eq_refl) as (pre & ex & -> & Hend).
      exists pre, ex. split; [by apply (Issued_log env c)|]. by apply nullBody_endOf.
    + exfalso. unfold PublicationSearch in Hrun.
      destruct (String.eqb (CatalogInfo.Author c) "" || String.eqb (CatalogInfo.Media c) "")
        eqn:Hv; [discriminate|].
      assert (Ha : CatalogInfo.Author c <> "").
      { intros Heq. rewrite Heq in Hv. discriminate. }
      assert (Hm : CatalogInfo.Media c <> "").
      { intros Heq. rewrite Heq, orb_true_r in Hv. discriminate. }
      fold (PublicationSearch env fuel c w) in Hrun.
      rewrite <- (PublicationSearch_valid env fuel c Ha Hm) in Hrun.
      destruct (search_SearchRun _ _ _ _ _ Ha Hm Hrun) as (exs & Hiss & Hsr).
      destruct (SearchRun_panics _ _ _ Hsr eq_refl) as (pre & ex & -> & Hend).
      apply Issued_log in Hiss. apply (f_equal length) in Hiss.
      rewrite !length_app in Hiss. simpl in Hiss. lia.
Qed.

(** *** Buckets that complete *)

Lemma kept_le_retrieved c exs :
  Z.of_nat (length (flat_map (keptOfPage c) exs)) <= retrieved exs.
Proof.
  induction exs as [|ex exs IH]; simpl; [done|].
  rewrite length_app, Nat2Z.inj_add. unfold keptOfPage at 1, len.
  assert (Hle : forall l : list resourceInfo,
            (length (omap (keep c) l) <= length l)%nat).
  { induction l as [|p l IHl]; simpl; [done|]. destruct (keep c p); simpl; unfold omap in *; lia. }
  specialize (Hle (elems (pageOf ex))). lia.
Qed.

Lemma BucketRun_next c year acc seg r :
  BucketRun env c year acc seg r ->
  forall acc', r = Returns (NextYear acc') ->
    exists cnt fetches n,
      seg = cnt :: fetches /\ isCount c year cnt /\ Forall (isFetch c year) fetches /\
      reportsTotal cnt n /\ retrieved fetches = n /\
      (forall init last, fetches = init ++ [last] -> retrieved init < n) /\
      elems acc' = elems acc ++ flat_map (keptOfPage c) fetches.
Proof.
  destruct 1 as [cause Hu|cnt n e Hcnt Hc|cnt Hcnt Hc|cnt Hcnt Hc
                |cnt total fetches r Hcnt Hc Hnz Hloop]; intros acc' Hr; try discriminate.
  - injection Hr as <-. exists cnt, [], 0. split_and!; auto.
    + by apply countResult_total with c.
    + intros [|? ?] last; discriminate.
    + simpl. by rewrite app_nil_r.
  - destruct r as [[cur acc''|e]| |]; simpl in Hr; try discriminate.
    destruct (Z.gtb_spec cur total) as [Hgt|Hle]; [discriminate|]. injection Hr as ->.
    destruct (LoopRun_exit_inv _ _ _ _ _ _ _ Hloop _ _ eq_refl) as (Hcur & Hge & Hinit & Hacc).
    exists cnt, fetches, total. split_and!; auto.
    + by apply LoopRun_fetches in Hloop.
    + by apply countResult_total with c.
    + lia.
Qed.

Lemma BucketRun_return c year acc seg r :
  BucketRun env c year acc seg r ->
  forall res err, r = Returns (Return (res, err)) -> res = None /\ err <> None.
Proof.
  destruct 1 as [cause Hu|cnt n e Hcnt Hc|cnt Hcnt Hc|cnt Hcnt Hc
                |cnt total fetches r Hcnt Hc Hnz Hloop]; intros res err Hr;
    try discriminate; try (by injection Hr as <- <-).
  destruct r as [[cur acc''|e]| |]; simpl in Hr; try discriminate.
  - destruct (cur >? total); [|discriminate]. by injection Hr as <- <-.
  - by injection Hr as <- <-.
Qed.

Lemma SearchRun_success c exs o :
  SearchRun env c exs o ->
  forall res, o = Returns (res, None) ->
    exists seg1 acc1 seg2,
      exs = seg1 ++ seg2 /\
      BucketRun env c "unknown" None seg1 (Returns (NextYear acc1)) /\
      BucketRun env c (yearFilter env) acc1 seg2 (Returns (NextYear res)).
Proof.
  destruct 1 as [seg1 r1 Hb1 Hstop|seg1 acc1 seg2 r2 Hb1 Hb2]; intros res Ho.
  - destruct r1 as [[acc|[res' err]]| |]; simpl in Ho; try discriminate.
    + by destruct (Hstop acc).
    + injection Ho as -> ->. by destruct (BucketRun_return _ _ _ _ _ Hb1 _ _ eq_refl).
  - destruct r2 as [[acc|[res' err]]| |]; simpl in Ho; try discriminate.
    + injection Ho as ->. by exists seg1, acc1, seg2.
    + injection Ho as -> ->. by destruct (BucketRun_return _ _ _ _ _ Hb2 _ _ eq_refl).
Qed.

(** X1: a search that succeeds has retrieved what was announced.  Its
    exchanges are the count request of the unknown-year bucket, the
    fetch requests of that bucket, and the same for the current year;
    for each bucket the pages fetched hold exactly as many resources as
    the count response announced, no fetch request was issued once that
    total had been reached, and the list returned is no longer than the
    two totals together. *)
Theorem successful_search_retrieves_totals fuel c w res w' :
  PublicationSearch env fuel c w = (Returns (res, None), w') ->
  exists cnt1 fetches1 n1 cnt2 fetches2 n2,
    log w' = log w ++ (cnt1 :: fetches1) ++ (cnt2 :: fetches2) /\
    isCount c "unknown" cnt1 /\ Forall (isFetch c "unknown") fetches1 /\
    isCount c (yearFilter env) cnt2 /\ Forall (isFetch c (yearFilter env)) fetches2 /\
    reportsTotal cnt1 n1 /\ reportsTotal cnt2 n2 /\
    retrieved fetches1 = n1 /\ retrieved fetches2 = n2 /\
    (forall init last, fetches1 = init ++ [last] -> retrieved init < n1) /\
    (forall init last, fetches2 = init ++ [last] -> retrieved init < n2) /\
    len res <= n1 + n2.
Proof.
  intros Hrun.
  assert (Hvalid : CatalogInfo.Author c <> "" /\ CatalogInfo.Media c <> "").
  { split; intros Hempty.
    - rewrite PublicationSearch_rejects in Hrun by (by left). discriminate.
    - rewrite PublicationSearch_rejects in Hrun by (by right). discriminate. }
  destruct Hvalid as [Ha Hm].
  destruct (search_SearchRun _ _ _ _ _ Ha Hm Hrun) as (exs & Hiss & Hsr).
  destruct (SearchRun_success _ _ _ Hsr _ eq_refl) as (seg1 & acc1 & seg2 & -> & Hb1 & Hb2).
  destruct (BucketRun_next _ _ _ _ _ Hb1 _ eq_refl)
    as (cnt1 & f1 & n1 & -> & Hc1 & Hf1 & Ht1 & Hr1 & Hi1 & Hacc1).
  destruct (BucketRun_next _ _ _ _ _ Hb2 _ eq_refl)
    as (cnt2 & f2 & n2 & -> & Hc2 & Hf2 & Ht2 & Hr2 & Hi2 & Hacc2).
  exists cnt1, f1, n1, cnt2, f2, n2. split_and!; auto.
  - by apply (Issued_log env c).
  - unfold len. rewrite Hacc2, Hacc1. simpl. rewrite length_app, Nat2Z.inj_add.
    pose proof (kept_le_retrieved c f1). pose proof (kept_le_retrieved c f2). lia.
Qed.

(** *** A count response with a negative total *)

Lemma BucketRun_negative c year acc seg r :
  BucketRun env c year acc seg r ->
  forall pre ex post n, seg = pre ++ ex :: post ->
    rawurl (fst ex) = CatalogInfo.URL c +:+ "search/count" ->
    reportsTotal ex n -> n < 0 ->
    post = [] /\
    r = Returns (Return (None, Some (Errorf
          ("Received more publications than expected; expected "
           +:+ sprintf_d n +:+ " currently have 0")))).
Proof.
  destruct 1 as [cause Hu|cnt n' e Hcnt Hc|cnt Hcnt Hc|cnt Hcnt Hc
                |cnt total fetches r Hcnt Hc Hnz Hloop];
    intros pre ex post n Heq Hurl Hn Hneg;
    apply (reportsTotal_countResult c) in Hn.
  - by destruct pre.
  - destruct pre as [|? [|? ?]]; try discriminate. injection Heq as <- <-. congruence.
  - destruct pre as [|? [|? ?]]; try discriminate. injection Heq as <- <-. congruence.
  - destruct pre as [|? [|? ?]]; try discriminate. injection Heq as <- <-.
    rewrite Hc in Hn. injection Hn as <-. lia.
  - destruct pre as [|p pre]; simpl in Heq.
    + injection Heq as <- <-. rewrite Hc in Hn. injection Hn as ->.
      assert (Hle0 : n <= 0) by lia.
      destruct (LoopRun_reached _ _ _ _ _ _ _ Hle0 Hloop) as [-> ->].
      split; [done|]. simpl. destruct (Z.gtb_spec 0 n) as [_|Hle]; [done|lia].
    + injection Heq as _ Heq. exfalso.
      apply LoopRun_fetches, fetches_not_count in Hloop.
      rewrite Heq, Forall_app, Forall_cons in Hloop.
      by destruct Hloop as (_ & Hex & _).
Qed.

(** X4: a count response that announces a negative total ends the search
    with the count-mismatch error.  The loop over the pages is not
    entered, so no fetch request is issued; the retrieved count of 0 is
    above the total, and [PublicationSearch] returns a nil list and the
    error that names both numbers. *)
Theorem negative_total_is_a_mismatch fuel c w o w' pre ex post n :
  PublicationSearch env fuel c w = (o, w') ->
  log w' = log w ++ pre ++ ex :: post ->
  rawurl (fst ex) = CatalogInfo.URL c +:+ "search/count" ->
  reportsTotal ex n -> n < 0 ->
  post = [] /\
  o = Returns (None, Some (Errorf
        ("Received more publications than expected; expected "
         +:+ sprintf_d n +:+ " currently have 0"))).
Proof.
  intros Hrun Hlog Hurl Hn Hneg.
  destruct (search_exchanges _ _ _ _ _ _ Hrun Hlog) as [_ Hsr]; [by destruct pre|].
  remember (pre ++ ex :: post) as exs eqn:Heq.
  destruct Hsr as [seg1 r1 Hb1 Hstop|seg1 acc1 seg2 r2 Hb1 Hb2].
  - destruct (BucketRun_negative _ _ _ _ _ Hb1 _ _ _ _ Heq Hurl Hn Hneg) as [-> ->]. done.
  - apply app_eq_app in Heq as [l [[-> Hl]|[-> ->]]].
    + destruct l as [|x l]; simpl in Hl.
      * subst seg2.
        destruct (BucketRun_negative _ _ _ _ _ Hb2 [] ex post n eq_refl Hurl Hn Hneg)
          as [-> ->]. done.
      * injection Hl as <- ->.
        by destruct (BucketRun_negative _ _ _ _ _ Hb1 pre ex l n eq_refl Hurl Hn Hneg)
          as [_ [=]].
    + destruct (BucketRun_negative _ _ _ _ _ Hb2 l ex post n eq_refl Hurl Hn Hneg)
        as [-> ->]. done.
Qed.

(** *** The errors of a search *)

Lemma fetchResult_error c year ex pubs e :
  isFetch c year ex -> fetchResult c ex = Returns (pubs, Some e) ->
  exchangeError c ex = Some e.
Proof.
  intros [Hurl _]. unfold exchangeError, fetchResult. rewrite Hurl.
  destruct (decide _) as [Heq|_]; [by apply fetch_url_not_count_url in Heq|].
  destruct (replyResult c (Some searchResults.zero) ex) as [[t|] [e'|]]; simpl;
    try done; by intros [= _ ->].
Qed.

Lemma countResult_error c year ex n e :
  isCount c year ex -> countResult c ex = Returns (n, Some e) ->
  exchangeError c ex = Some e \/
  exists body r,
    snd ex = Response 200 body /\ asHitResults body = DecodedTo (Some r) /\
    hitResults.Success r = false /\
    e = Errorf "failed to retrieve total number of matches on author, media and year".
Proof.
  intros [Hurl _]. unfold exchangeError, countResult, replyResult, decode, hitResults_Target.
  rewrite decide_True by done.
  destruct (snd ex) as [cause|code body]; simpl; [by intros [= _ <-]; left|].
  destruct (Z.eqb_spec code 200) as [->|Hne]; simpl; [|by intros [= _ <-]; left].
  destruct (asHitResults body) as [cause|[r|]] eqn:Hb; simpl;
    [by intros [= _ <-]; left| |done].
  destruct (hitResults.Success r) eqn:Hs; simpl; [done|].
  intros [= _ <-]. right. by exists body, r.
Qed.

Lemma LoopRun_error_inv c year totalCount cur acc exs r :
  LoopRun env c year totalCount cur acc exs r ->
  forall e, r = Returns (LoopReturn e) ->
    (exists cause,
       urlError env (CatalogInfo.URL c +:+ "search") = Some cause /\ e = ParseFailed cause) \/
    (exists pre ex, exs = pre ++ [ex] /\ exchangeError c ex = Some e).
Proof.
  induction 1 as [cur acc Hge|cur acc cause Hlt Hu|cur acc ex' pubs e' Hlt Hex Hf
                 |cur acc ex' Hlt Hex Hf|cur acc ex' pubs exs r Hlt Hex Hf Hrun IH
                 |cur acc Hlt]; intros e Hr; try discriminate.
  - injection Hr as <-. left. by exists cause.
  - injection Hr as <-. right. exists [], ex'. split; [done|].
    by apply fetchResult_error with year pubs.
  - destruct (IH _ Hr) as [Hparse|(pre & ex & -> & He)]; [by left|].
    right. by exists (ex' :: pre), ex.
Qed.

Lemma BucketRun_fails c year acc seg r :
  BucketRun env c year acc seg r ->
  forall res err, r = Returns (Return (res, Some err)) ->
    forall pre, FailsBy env c (pre ++ seg) err.
Proof.
  destruct 1 as [cause Hu|cnt n e Hcnt Hc|cnt Hcnt Hc|cnt Hcnt Hc
                |cnt total fetches r Hcnt Hc Hnz Hloop]; intros res err Hr pre;
    try discriminate.
  - injection Hr as _ <-. apply FailsBy_parse with "search/count"; [by left|done].
  - injection Hr as _ <-.
    destruct (countResult_error _ _ _ _ _ Hcnt Hc) as [He|(body & r & Hreply & Hb & Hs & ->)].
    + by apply FailsBy_request.
    + apply FailsBy_count with body r; [by destruct Hcnt|done..].
  - destruct r as [[cur acc'|e]| |]; simpl in Hr; try discriminate.
    + destruct (Z.gtb_spec cur total) as [Hgt|Hle]; [|discriminate].
      injection Hr as _ <-.
      destruct (LoopRun_exit_inv _ _ _ _ _ _ _ Hloop _ _ eq_refl)
        as (Hcur & Hge & Hinit & Hacc).
      simpl in Hcur. subst cur.
      apply FailsBy_mismatch.
      * by destruct Hcnt.
      * by apply countResult_total with c.
      * apply LoopRun_fetches in Hloop. eapply Forall_impl; [exact Hloop|].
        by intros ex [Hurl _].
      * lia.
      * intros init last Heq. specialize (Hinit _ _ Heq). lia.
    + injection Hr as _ <-.
      destruct (LoopRun_error_inv _ _ _ _ _ _ _ Hloop _ eq_refl)
        as [(cause & Hu & ->)|(pre' & ex & -> & He)].
      * apply FailsBy_parse with "search"; [by right|done].
      * change (pre ++ cnt :: pre' ++ [ex]) with (pre ++ (cnt :: pre') ++ [ex]).
        rewrite app_assoc. by apply FailsBy_request.
Qed.

(** X5: every error of [PublicationSearch] has one of five causes, and
    the list next to it is nil.  Either an argument is empty and nothing
    has been done; or the query is valid and [url.Parse] has rejected the
    URL of an endpoint, or the last request has failed (transport,
    status or decoding), or the last count response has reported
    failure, or the pages of the last bucket visited hold more resources
    than its count response announced, the last page having taken the
    count above the total. *)
Theorem search_error_has_a_cause fuel c w res err w' :
  PublicationSearch env fuel c w = (Returns (res, Some err), w') ->
  res = None /\
  (((CatalogInfo.Author c = "" \/ CatalogInfo.Media c = "") /\ w' = w /\
    err = Errorf ("arguments must be non-null:  author=" +:+ CatalogInfo.Author c
                  +:+ ", media=" +:+ CatalogInfo.Media c +:+ "'")) \/
   (CatalogInfo.Author c <> "" /\ CatalogInfo.Media c <> "" /\
    exists exs, log w' = log w ++ exs /\ FailsBy env c exs err)).
Proof.
  intros Hrun.
  destruct (decide (CatalogInfo.Author c = "")) as [Ha|Ha].
  { rewrite PublicationSearch_rejects in Hrun by (by left). injection Hrun as <- <- <-.
    split; [done|]. left. split_and!; auto. }
  destruct (decide (CatalogInfo.Media c = "")) as [Hm|Hm].
  { rewrite PublicationSearch_rejects in Hrun by (by right). injection Hrun as <- <- <-.
    split; [done|]. left. split_and!; auto. }
  destruct (search_SearchRun _ _ _ _ _ Ha Hm Hrun) as (exs & Hiss & Hsr).
  apply Issued_log in Hiss.
  remember (Returns (res, Some err)) as o eqn:Ho.
  destruct Hsr as [seg1 r1 Hb1 Hstop|seg1 acc1 seg2 r2 Hb1 Hb2].
  - destruct r1 as [[acc|[res' err']]| |]; simpl in Ho; try discriminate.
    injection Ho as -> ->.
    destruct (BucketRun_return _ _ _ _ _ Hb1 _ _ eq_refl) as [-> _].
    split; [done|]. right. split_and!; auto. exists seg1. split; [done|].
    by apply (BucketRun_fails _ _ _ _ _ Hb1 None err eq_refl []).
  - destruct r2 as [[acc|[res' err']]| |]; simpl in Ho; try discriminate.
    injection Ho as -> ->.
    destruct (BucketRun_return _ _ _ _ _ Hb2 _ _ eq_refl) as [-> _].
    split; [done|]. right. split_and!; auto. exists (seg1 ++ seg2). split; [done|].
    by apply (BucketRun_fails _ _ _ _ _ Hb2 None err eq_refl).
Qed.

(** *** Requests, clock readings and the counter *)

Lemma wrap64_add_l a b : wrap64 (wrap64 a + b) = wrap64 (a + b).
Proof.
  unfold wrap64.
  replace ((a + 2 ^ 63) mod 2 ^ 64 - 2 ^ 63 + b + 2 ^ 63)
    with ((a + 2 ^ 63) mod 2 ^ 64 + b) by lia.
  rewrite Zplus_mod_idemp_l. f_equal. f_equal. lia.
Qed.

Lemma Issued_world c w exs w' :
  Issued env c w exs w' ->
  clockReads w' = (clockReads w + length exs)%nat /\
  (int64 (timestampIncrement w) ->
     timestampIncrement w' = wrap64 (timestampIncrement w + Z.of_nat (length exs))) /\
  Forall (fun ex => urlError env (rawurl (fst ex)) = None) exs.
Proof.
  induction 1 as [w|w endpt year exs w' He Hy Hu _ (IHr & IHc & IHu)].
  - split_and!; [simpl; lia| |constructor].
    intros Hi. simpl. rewrite Z.add_0_r. by rewrite wrap64_id.
  - split_and!.
    + rewrite IHr. simpl. lia.
    + intros _. rewrite IHc by apply wrap64_range. simpl timestampIncrement.
      rewrite wrap64_add_l. f_equal. simpl length. lia.
    + by constructor.
Qed.

(** X6: every request of a search takes one clock reading and one
    increment of the counter, and nothing else does.  After a search
    that has issued [n] requests the clock has been read [n] more times
    and the counter has advanced by [n] in [int64] arithmetic; the
    request number [i] carries the token made from the reading number
    [i] and the counter after [i] increments; and every request went to
    a URL that [url.Parse] accepts. *)
Theorem one_token_per_request fuel c w o w' :
  PublicationSearch env fuel c w = (o, w') ->
  exists exs,
    log w' = log w ++ exs /\
    clockReads w' = (clockReads w + length exs)%nat /\
    (int64 (timestampIncrement w) ->
       timestampIncrement w' = wrap64 (timestampIncrement w + Z.of_nat (length exs))) /\
    tokensOf exs
      = map sprintf_d
          (tokenValues env (length exs) (timestampIncrement w) (clockReads w)) /\
    Forall (fun ex => urlError env (rawurl (fst ex)) = None) exs.
Proof.
  intros Hrun. destruct (search_Issued _ _ _ _ _ _ Hrun) as [exs Hiss].
  destruct (Issued_world _ _ _ _ Hiss) as (Hr & Hc & Hu).
  exists exs. split_and!; auto.
  - by apply (Issued_log env c).
  - by apply (Issued_tokens env c w exs w').
Qed.

(** *** The length of a token *)

Lemma pretty_N_go_length_le (k : nat) : forall x s,
  (x < 10 ^ N.of_nat k)%N ->
  (String.length (pretty_N_go x s) <= k + String.length s)%nat.
Proof.
  induction k as [|k IH]; intros x s Hx.
  - assert (x = 0%N) as -> by (simpl in Hx; lia). rewrite pretty_N_go_0. simpl. lia.
  - destruct (decide (x = 0%N)) as [->|Hpos]; [rewrite pretty_N_go_0; lia|].
    rewrite pretty_N_go_step by lia.
    etransitivity; [apply IH|simpl; lia].
    apply N.Div0.div_lt_upper_bound.
    rewrite Nat2N.inj_succ, N.pow_succ_r' in Hx. exact Hx.
Qed.

Lemma pretty_N_go_length (k : nat) : forall x s,
  (10 ^ N.of_nat k <= x < 10 ^ N.of_nat (S k))%N ->
  String.length (pretty_N_go x s) = (S k + String.length s)%nat.
Proof.
  induction k as [|k IH]; intros x s [Hlo Hhi].
  - change (10 ^ N.of_nat 0)%N with 1%N in Hlo. change (10 ^ N.of_nat 1)%N with 10%N in Hhi.
    rewrite pretty_N_go_step by lia.
    rewrite N.div_small by done. by rewrite pretty_N_go_0.
  - rewrite pretty_N_go_step.
    + rewrite IH; [simpl; lia|]. split.
      * apply N.div_le_lower_bound; [done|].
        rewrite Nat2N.inj_succ, N.pow_succ_r' in Hlo. exact Hlo.
      * apply N.Div0.div_lt_upper_bound.
        rewrite (Nat2N.inj_succ (S k)), N.pow_succ_r' in Hhi. exact Hhi.
    + eapply N.lt_le_trans; [|exact Hlo]. apply N.neq_0_lt_0, N.pow_nonzero. done.
Qed.

Lemma sprintf_d_pos z :
  0 < z -> sprintf_d z = pretty_N_go (Z.to_N z) "".
Proof.
  intros Hz. destruct z as [|p|p]; try lia.
  unfold sprintf_d, pretty, pretty_Z, pretty, pretty_positive, pretty, pretty_N.
  by rewrite decide_False.
Qed.

(** X7: the tokens have 13 digits, as the comment of [makeTimestamp]
    promises, from 9 September 2001 on.  For a clock reading that is not
    negative and a counter below 7 * 10^11, the token has 13 characters
    exactly when the milliseconds of the reading plus the incremented
    counter reach 10^12; so it has 13 characters for every reading from
    10^18 nanoseconds (2001-09-09T01:46:40Z) on, and fewer before the
    sum reaches 10^12. *)
Theorem token_has_13_digits w t w' :
  makeTimestamp env w = (Returns t, w') ->
  0 <= now env (clockReads w) < 2 ^ 63 ->
  0 <= timestampIncrement w < 7 * 10 ^ 11 ->
  (String.length t = 13%nat <->
     10 ^ 12 <= Z.quot (now env (clockReads w)) 1000000 + (timestampIncrement w + 1)) /\
  (10 ^ 18 <= now env (clockReads w) -> String.length t = 13%nat) /\
  (String.length t <= 13)%nat.
Proof.
  intros [= <- _] Hnow Hinc.
  rewrite timestampValue_exact by (unfold int64; lia).
  change (Z.quot 1000000 1) with 1000000.
  set (v := Z.quot (now env (clockReads w)) 1000000 + (timestampIncrement w + 1)).
  assert (Hq : 0 <= Z.quot (now env (clockReads w)) 1000000 <= 9223372036854).
  { split; [apply Z.quot_pos; lia|].
    change 9223372036854 with (Z.quot (2 ^ 63) 1000000). apply Z.quot_le_mono; lia. }
  assert (Hv : 0 < v < 10 ^ 13) by (unfold v; lia).
  rewrite sprintf_d_pos by lia.
  assert (Hhigh : 10 ^ 12 <= v -> String.length (pretty_N_go (Z.to_N v) "") = 13%nat).
  { intros Hlo. apply (pretty_N_go_length 12). split.
    - change (10 ^ N.of_nat 12)%N with (Z.to_N (10 ^ 12)). lia.
    - change (10 ^ N.of_nat 13)%N with (Z.to_N (10 ^ 13)). lia. }
  split_and!.
  - split; [|exact Hhigh]. intros Hlen.
    destruct (Z.le_gt_cases (10 ^ 12) v) as [Hge|Hlt]; [done|].
    pose proof (pretty_N_go_length_le 12 (Z.to_N v) "") as Hle.
    simpl String.length in Hle. rewrite Hlen in Hle.
    assert (Hlt' : (Z.to_N v < 10 ^ N.of_nat 12)%N)
      by (change (10 ^ N.of_nat 12)%N with (Z.to_N (10 ^ 12)); lia).
    specialize (Hle Hlt'). lia.
  - intros Hlate. apply Hhigh. unfold v.
    assert (10 ^ 12 <= Z.quot (now env (clockReads w)) 1000000); [|lia].
    change (10 ^ 12) with (Z.quot (10 ^ 18) 1000000). apply Z.quot_le_mono; lia.
  - pose proof (pretty_N_go_length_le 13 (Z.to_N v) "") as Hle.
    simpl String.length in Hle. rewrite Nat.add_0_r in Hle. apply Hle.
    change (10 ^ N.of_nat 13)%N with (Z.to_N (10 ^ 13)). lia.
Qed.

End WithEnv.

End Runs.

(** ** The media types of a configuration *)

Module MediaTypeFacts.

Import Go Booklist BooklistConfig.

Lemma asciiLower_empty s : asciiLower s = "" <-> s = "".
Proof. destruct s; simpl; split; congruence. Qed.

(** Every entry of [MediaTypes] maps the lower case of its value to that
    value, and the values are non-empty ASCII strings. *)
Lemma MediaTypes_entry k v :
  MediaTypes !! k = Some v ->
  k = asciiLower v /\ k ∈ mediaTypeNames /\ v <> "" /\ isASCII v = true.
Proof.
  intros Hk. apply elem_of_list_to_map_2 in Hk.
  repeat (apply elem_of_cons in Hk as [[= -> ->]|Hk];
          [split_and!; [reflexivity|set_solver|discriminate|reflexivity]|]).
  by apply elem_of_nil in Hk.
Qed.

Lemma MediaTypes_name k : k ∈ mediaTypeNames -> is_Some (MediaTypes !! k).
Proof.
  intros Hk. unfold mediaTypeNames in Hk.
  repeat (apply elem_of_cons in Hk as [->|Hk]; [by vm_compute; eexists|]).
  by apply elem_of_nil in Hk.
Qed.

Section WithToLower.

Context (ToLower : string -> string).

(** On a string of ASCII characters [strings.ToLower] replaces the
    letters A to Z by a to z; and it maps no string but the empty one to
    the empty string. *)
Hypothesis ToLower_ascii : forall s, isASCII s = true -> ToLower s = asciiLower s.
Hypothesis ToLower_nonempty : forall s, s <> "" -> ToLower s <> "".

Lemma ToLower_value k v : MediaTypes !! k = Some v -> MediaTypes !! ToLower v = Some v.
Proof.
  intros Hk. destruct (MediaTypes_entry _ _ Hk) as (Hlower & _ & _ & Hascii).
  rewrite ToLower_ascii by done. by rewrite <- Hlower.
Qed.

(** X8: the case of a media type name is ignored.  A name made of ASCII
    characters is accepted by the format checker exactly when it is
    empty or its lower case is one of the nine names of [MediaTypes];
    and two such names that differ only in the case of their letters are
    accepted alike and converted to the same catalog name, as the
    default media type and as the media type of an author. *)
Theorem media_type_case_is_ignored :
  (forall s, isASCII s = true ->
     (IsFormat ToLower s = true <-> s = "" \/ asciiLower s ∈ mediaTypeNames)) /\
  (forall s t url authors first last,
     isASCII s = true -> isASCII t = true -> asciiLower s = asciiLower t ->
     IsFormat ToLower s = IsFormat ToLower t /\
     Config.Media (convertMediaType ToLower (Config.mk url s authors))
       = Config.Media (convertMediaType ToLower (Config.mk url t authors)) /\
     convertMediaType ToLower (Config.mk url "" [AuthorInfo.mk first last s])
       = convertMediaType ToLower (Config.mk url "" [AuthorInfo.mk first last t])).
Proof.
  split.
  - intros s Hs. unfold IsFormat. rewrite ToLower_ascii by done.
    destruct (String.eqb_spec s "") as [->|Hne]; [by split; [left|]|].
    destruct (MediaTypes !! asciiLower s) as [v|] eqn:Hk.
    + split; [|done]. intros _. right. by destruct (MediaTypes_entry _ _ Hk) as (_ & ? & _).
    + split; [done|]. intros [?|Hin]; [done|].
      apply MediaTypes_name in Hin as [v Hv]. congruence.
  - intros s t url authors first last Hs Ht Heq.
    assert (Hempty : s = "" <-> t = "").
    { by rewrite <- (asciiLower_empty s), <- (asciiLower_empty t), Heq. }
    unfold IsFormat, convertMediaType. simpl.
    rewrite !(ToLower_ascii s), !(ToLower_ascii t), Heq by done.
    destruct (String.eqb_spec s "") as [Hs0|Hs0], (String.eqb_spec t "") as [Ht0|Ht0];
      try (by apply Hempty in Hs0); try (by apply Hempty in Ht0).
    + subst s t. done.
    + split_and!; [done|done|].
      destruct (String.eqb_spec (asciiLower t) "") as [Hz|_];
        [exfalso; apply Ht0; by apply asciiLower_empty|done].
Qed.

(** X9: after [convertMediaType] every media type of a configuration is
    empty or a catalog name, whatever the configuration held.  The URL
    and the names of the authors are left as they were and the authors
    keep their order; a media type is non-empty afterwards exactly when
    it was non-empty and accepted by the format checker, so that a name
    the checker rejects is erased rather than kept; and with a non-empty
    URL and non-empty author names the result is a configuration as the
    search expects it. *)
Theorem conversion_leaves_catalog_names config :
  let config' := convertMediaType ToLower config in
  Config.URL config' = Config.URL config /\
  convertedMedia (Config.Media config') /\
  (Config.Media config' <> "" <->
     Config.Media config <> "" /\ IsFormat ToLower (Config.Media config) = true) /\
  Forall2 (fun a a' =>
             AuthorInfo.Firstname a' = AuthorInfo.Firstname a /\
             AuthorInfo.Lastname a' = AuthorInfo.Lastname a /\
             convertedMedia (AuthorInfo.Media a') /\
             (AuthorInfo.Media a' <> "" <->
                AuthorInfo.Media a <> "" /\ IsFormat ToLower (AuthorInfo.Media a) = true))
          (Config.Authors config) (Config.Authors config') /\
  (Config.URL config <> "" ->
   Forall (fun a => AuthorInfo.Firstname a <> "" /\ AuthorInfo.Lastname a <> "")
          (Config.Authors config) ->
   validated config').
Proof.
  assert (Hfield : forall m,
            let m' := default "" (MediaTypes !! ToLower m) in
            m <> "" ->
            convertedMedia m' /\ (m' <> "" <-> m <> "" /\ IsFormat ToLower m = true)).
  { intros m m' Hm. unfold m', IsFormat, convertedMedia.
    destruct (String.eqb_spec m "") as [|_]; [done|].
    destruct (MediaTypes !! ToLower m) as [v|] eqn:Hk; simpl.
    - destruct (MediaTypes_entry _ _ Hk) as (_ & _ & Hv & _).
      split; [right; by exists (ToLower m)|]. by split.
    - split; [by left|]. split; [done|]. by intros [_ ?]. }
  assert (Hauthors :
    Forall2 (fun a a' =>
               AuthorInfo.Firstname a' = AuthorInfo.Firstname a /\
               AuthorInfo.Lastname a' = AuthorInfo.Lastname a /\
               convertedMedia (AuthorInfo.Media a') /\
               (AuthorInfo.Media a' <> "" <->
                  AuthorInfo.Media a <> "" /\ IsFormat ToLower (AuthorInfo.Media a) = true))
            (Config.Authors config)
            (Config.Authors (convertMediaType ToLower config))).
  { simpl. induction (Config.Authors config) as [|a authors IH]; simpl; constructor; [|done].
    destruct (String.eqb_spec (ToLower (AuthorInfo.Media a)) "") as [Hlc|Hlc]; simpl.
    - assert (Hm : AuthorInfo.Media a = "").
      { destruct (decide (AuthorInfo.Media a = "")) as [|Hne]; [done|].
        by destruct (ToLower_nonempty _ Hne). }
      rewrite Hm. split_and!; [done|done|by left|]. split; [done|]. by intros [? _].
    - assert (Hm : AuthorInfo.Media a <> "").
      { intros Hm. apply Hlc. rewrite Hm. by rewrite ToLower_ascii. }
      destruct (Hfield _ Hm) as [Hc Hiff]. by split_and!. }
  assert (Hmedia : convertedMedia (Config.Media (convertMediaType ToLower config)) /\
            (Config.Media (convertMediaType ToLower config) <> "" <->
               Config.Media config <> "" /\ IsFormat ToLower (Config.Media config) = true)).
  { simpl. destruct (String.eqb_spec (Config.Media config) "") as [Hm|Hm]; simpl.
    - rewrite Hm. split; [by left|]. split; [done|]. by intros [? _].
    - by apply Hfield. }
  destruct Hmedia as [Hc Hiff].
  intros config'. split_and!; try done.
  intros Hurl Hnames. split; [done|]. split; [done|].
  unfold config'. revert Hauthors Hnames. generalize (Config.Authors config).
  generalize (Config.Authors (convertMediaType ToLower config)).
  intros l' l. induction 1 as [|a a' l l' (Hf & Hl & Hca & _) _ IH];
    intros Hnames; constructor.
  - apply Forall_cons in Hnames as [[? ?] _]. rewrite Hf, Hl. by split_and!.
  - apply IH. by apply Forall_cons in Hnames as [_ ?].
Qed.

(** X10: converting twice is converting once.  The value of every
    entry of [MediaTypes] is itself accepted and converted to itself, so
    that [convertMediaType] leaves a configuration it has produced as it
    is. *)
Theorem conversion_is_idempotent config :
  convertMediaType ToLower (convertMediaType ToLower config)
    = convertMediaType ToLower config.
Proof.
  assert (Hempty : ToLower "" = "") by (by rewrite ToLower_ascii).
  assert (Hfield : forall m,
            let m' := default "" (MediaTypes !! ToLower m) in
            (m' = "" \/ MediaTypes !! ToLower m' = Some m')).
  { intros m m'. unfold m'. destruct (MediaTypes !! ToLower m) as [v|] eqn:Hk; simpl.
    - right. by apply ToLower_value with (ToLower m).
    - by left. }
  unfold convertMediaType at 1 3. simpl. f_equal.
  - destruct (String.eqb_spec (Config.Media config) "") as [Hm|Hm]; simpl.
    + by rewrite Hm.
    + destruct (Hfield (Config.Media config)) as [H0|Hv].
      * by rewrite H0.
      * destruct (String.eqb_spec (default "" (MediaTypes !! ToLower (Config.Media config))) "");
          simpl; [done|]. by rewrite Hv.
  - rewrite map_map. apply map_ext. intros a.
    destruct (String.eqb_spec (ToLower (AuthorInfo.Media a)) "") as [Hlc|Hlc]; simpl.
    + destruct (String.eqb_spec (ToLower (AuthorInfo.Media a)) ""); [done|congruence].
    + destruct (Hfield (AuthorInfo.Media a)) as [H0|Hv].
      * rewrite H0, Hempty. done.
      * destruct (String.eqb_spec
                    (ToLower (default "" (MediaTypes !! ToLower (AuthorInfo.Media a)))) "")
          as [Hz|_]; simpl.
        -- rewrite Hz in Hv. by vm_compute in Hv.
        -- by rewrite Hv.
Qed.

End WithToLower.

End MediaTypeFacts.

(** ** Counting runes *)

Module Utf8Facts.

Import Utf8 Stdout.




















End Utf8Facts.

(** ** The run over the authors and what it prints *)

Module Printing.

Import Go Booklist Run Main Utf8 Stdout BooklistConfig GoFacts Filter Tokens Search
  Utf8Facts.

(** *** The lines of the results *)





Section WithEnv.

Context (env : Env).

(** *** The loop over the authors *)

(** The model that prints and the model that only searches agree on the
    searches. *)
Lemma rangeAuthors_searches fuel config defaultMedia authors : forall stdout w,
  fst (Stdout.rangeAuthors env fuel config defaultMedia authors stdout w)
    = Main.rangeAuthors env fuel config defaultMedia authors w.
Proof.
  induction authors as [|a authors IH]; intros stdout w; simpl; [done|].
  unfold_go.
  destruct (PublicationSearch env fuel _ w) as [[[[l|] [e|]]| |] w1]; try done; apply IH.
Qed.

Lemma rangeAuthors_run fuel config authors : forall stdout w o w' out,
  Stdout.rangeAuthors env fuel config (defaultMediaOf config) authors stdout w
    = (o, w', out) ->
  (o = Returns None ->
     exists results,
       Searched env fuel config authors w results w' /\
       out = stdout ++ concat (zip_with (written config) authors results)) /\
  (o <> Returns None ->
     exists before a after results w1,
       authors = before ++ a :: after /\
       Searched env fuel config before w results w1 /\
       out = stdout ++ concat (zip_with (written config) before results)
               ++ [heading (catalogInfoFor config (defaultMediaOf config) a)] /\
       match o with
       | Returns (Some e) =>
         exists res,
           PublicationSearch env fuel (catalogInfoFor config (defaultMediaOf config) a) w1
             = (Returns (res, Some e), w')
       | Returns None => False
       | Panics =>
         PublicationSearch env fuel (catalogInfoFor config (defaultMediaOf config) a) w1
           = (Panics, w')
       | Unfinished =>
         PublicationSearch env fuel (catalogInfoFor config (defaultMediaOf config) a) w1
           = (Unfinished, w')
       end).
Proof.
  induction authors as [|a authors IH]; intros stdout w o w' out; simpl.
  - intros [= <- <- <-]. split; [|done]. intros _. exists [].
    split; [constructor|]. simpl. by rewrite app_nil_r.
  - destruct (PublicationSearch env fuel _ w) as [[[res [e|]]| |] w1] eqn:Hsearch.
    + intros [= <- <- <-]. split; [done|]. intros _.
      exists [], a, authors, [], w. split_and!; [done|constructor|by simpl|by exists res].
    + assert (Hnext :
        Stdout.rangeAuthors env fuel config (defaultMediaOf config) authors
          ((stdout ++ [heading (catalogInfoFor config (defaultMediaOf config) a)])
             ++ resultLines res) w1 = (o, w', out) ->
        (o = Returns None ->
           exists results,
             Searched env fuel config (a :: authors) w results w' /\
             out = stdout ++ concat (zip_with (written config) (a :: authors) results)) /\
        (o <> Returns None ->
           exists before a0 after results w0,
             a :: authors = before ++ a0 :: after /\
             Searched env fuel config before w results w0 /\
             out = stdout ++ concat (zip_with (written config) before results)
                     ++ [heading (catalogInfoFor config (defaultMediaOf config) a0)] /\
             match o with
             | Returns (Some e) =>
               exists res,
                 PublicationSearch env fuel
                   (catalogInfoFor config (defaultMediaOf config) a0) w0
                   = (Returns (res, Some e), w')
             | Returns None => False
             | Panics =>
               PublicationSearch env fuel
                 (catalogInfoFor config (defaultMediaOf config) a0) w0 = (Panics, w')
             | Unfinished =>
               PublicationSearch env fuel
                 (catalogInfoFor config (defaultMediaOf config) a0) w0 = (Unfinished, w')
             end)).
      { intros Hrun. destruct (IH _ _ _ _ _ Hrun) as [Hok Hfail]. split.
        - intros Ho. destruct (Hok Ho) as (results & Hs & ->).
          exists (res :: results). split; [by apply Searched_cons with w1|].
          simpl. unfold written at 2. simpl. by rewrite <- !app_assoc.
        - intros Ho.
          destruct (Hfail Ho) as (before & a0 & after & results & w0 & -> & Hs & -> & Hend).
          exists (a :: before), a0, after, (res :: results), w0.
          split_and!; [done|by apply Searched_cons with w1| |done].
          simpl. unfold written at 2. simpl. by rewrite <- !app_assoc. }
      destruct res as [l|]; [exact Hnext|].
      unfold resultLines in Hnext. simpl in Hnext. rewrite app_nil_r in Hnext. exact Hnext.
    + intros [= <- <- <-]. split; [done|]. intros _.
      exists [], a, authors, [], w. split_and!; [done|constructor|by simpl|done].
    + intros [= <- <- <-]. split; [done|]. intros _.
      exists [], a, authors, [], w. split_and!; [done|constructor|by simpl|done].
Qed.

Lemma Searched_rangeAuthors fuel config before rest w results w1 :
  Searched env fuel config before w results w1 ->
  Main.rangeAuthors env fuel config (defaultMediaOf config) (before ++ rest) w
    = Main.rangeAuthors env fuel config (defaultMediaOf config) rest w1.
Proof.
  induction 1 as [w|a authors w res w1 results w' Hsearch _ IH]; [done|].
  simpl. unfold_go. by rewrite Hsearch.
Qed.

(** X12: the first author whose search fails ends the run.
    [printSearchResults] returns no error exactly when the searches for
    all the authors of the configuration, made one after the other in
    the order of the configuration, return no error; and it returns an
    error exactly when that is the error of the search for some author,
    the searches for the authors before that one having returned no
    error.  The world it leaves is the one that search left: the authors
    after it are not searched. *)
Theorem first_failing_author_ends_the_run fuel config w :
  (forall w',
     Main.printSearchResults env fuel config w = (Returns None, w') <->
     exists results, Searched env fuel config (Config.Authors config) w results w') /\
  (forall e w',
     Main.printSearchResults env fuel config w = (Returns (Some e), w') <->
     exists before a after results w1 res,
       Config.Authors config = before ++ a :: after /\
       Searched env fuel config before w results w1 /\
       PublicationSearch env fuel (catalogInfoFor config (defaultMediaOf config) a) w1
         = (Returns (res, Some e), w')).
Proof.
  unfold Main.printSearchResults. split.
  - intros w'. split.
    + intros Hrun.
      rewrite <- (rangeAuthors_searches fuel config _ _ [] w) in Hrun.
      destruct (Stdout.rangeAuthors env fuel config (defaultMediaOf config)
                  (Config.Authors config) [] w) as [[o w2] out] eqn:Hout.
      simpl in Hrun. injection Hrun as -> ->.
      destruct (rangeAuthors_run _ _ _ _ _ _ _ _ Hout) as [Hok _].
      destruct (Hok eq_refl) as (results & Hs & _). by exists results.
    + intros (results & Hs).
      rewrite <- (app_nil_r (Config.Authors config)).
      by rewrite (Searched_rangeAuthors _ _ _ [] _ _ _ Hs).
  - intros e w'. split.
    + intros Hrun.
      rewrite <- (rangeAuthors_searches fuel config _ _ [] w) in Hrun.
      destruct (Stdout.rangeAuthors env fuel config (defaultMediaOf config)
                  (Config.Authors config) [] w) as [[o w2] out] eqn:Hout.
      simpl in Hrun. injection Hrun as -> ->.
      destruct (rangeAuthors_run _ _ _ _ _ _ _ _ Hout) as [_ Hfail].
      destruct (Hfail ltac:(done))
        as (before & a & after & results & w1 & Hauthors & Hs & _ & res & Hsearch).
      by exists before, a, after, results, w1, res.
    + intros (before & a & after & results & w1 & res & -> & Hs & Hsearch).
      rewrite (Searched_rangeAuthors _ _ _ (a :: after) _ _ _ Hs).
      simpl. unfold_go. by rewrite Hsearch.
Qed.

(** X14: what a run prints follows the authors.  For every author
    searched, the heading with the author's name and media type is
    written before the search, and the lines of the results after it.  A
    run that ends without an error has written these for all the authors
    of the configuration, in their order; a run that ends otherwise has
    written them for the authors before the one whose search failed, and
    the heading of that author as its last line.  The searches and the
    value returned are those of the model without the output. *)
Theorem output_follows_the_authors fuel config w o w' out :
  Stdout.printSearchResults env fuel config w = (o, w', out) ->
  Main.printSearchResults env fuel config w = (o, w') /\
  (o = Returns None ->
     exists results,
       Searched env fuel config (Config.Authors config) w results w' /\
       out = concat (zip_with (written config) (Config.Authors config) results)) /\
  (o <> Returns None ->
     exists before a after results w1,
       Config.Authors config = before ++ a :: after /\
       Searched env fuel config before w results w1 /\
       out = concat (zip_with (written config) before results)
               ++ [heading (catalogInfoFor config (defaultMediaOf config) a)]).
Proof.
  unfold Stdout.printSearchResults, Main.printSearchResults. intros Hout.
  split.
  { by rewrite <- (rangeAuthors_searches fuel config _ _ [] w), Hout. }
  destruct (rangeAuthors_run _ _ _ _ _ _ _ _ Hout) as [Hok Hfail]. split.
  - intros Ho. destruct (Hok Ho) as (results & Hs & ->). by exists results.
  - intros Ho. destruct (Hfail Ho) as (before & a & after & results & w1 & ? & ? & -> & _).
    by exists before, a, after, results, w1.
Qed.

Lemma rangeAuthors_requests fuel config authors : forall w o w',
  Main.rangeAuthors env fuel config (defaultMediaOf config) authors w = (o, w') ->
  exists searched rest segs,
    authors = searched ++ rest /\
    log w' = log w ++ concat segs /\
    Forall2 (fun a seg =>
               Forall (fun ex =>
                         sentBySearch env
                           (catalogInfoFor config (defaultMediaOf config) a) (fst ex) /\
                         CatalogInfo.Media
                           (catalogInfoFor config (defaultMediaOf config) a) <> "")
                      seg)
            searched segs /\
    (o = Returns None -> rest = []).
Proof.
  induction authors as [|a authors IH]; intros w o w'; simpl.
  - unfold_go. intros [= <- <-]. exists [], [], []. split_and!; auto.
    simpl. by rewrite app_nil_r.
  - unfold_go.
    destruct (PublicationSearch env fuel _ w) as [o1 w1] eqn:Hsearch.
    destruct (search_Issued _ _ _ _ _ _ Hsearch) as [exs Hiss].
    pose proof (Issued_log _ _ _ _ _ Hiss) as Hlog.
    assert (Hsent : Forall (fun ex =>
                      sentBySearch env
                        (catalogInfoFor config (defaultMediaOf config) a) (fst ex) /\
                      CatalogInfo.Media
                        (catalogInfoFor config (defaultMediaOf config) a) <> "") exs).
    { destruct (Runs.search_log _ _ _ _ _ _ Hsearch) as [[_ Hm]|Hsame].
      - eapply Forall_impl; [exact (Issued_sentBySearch _ _ _ _ _ Hiss)|]. by intros ex.
      - rewrite Hsame in Hlog. apply (f_equal length) in Hlog.
        rewrite length_app in Hlog. destruct exs; [constructor|simpl in Hlog; lia]. }
    assert (Hstop : forall o : Outcome (option Error), o <> Returns None -> w' = w1 ->
              exists searched rest segs,
                a :: authors = searched ++ rest /\
                log w' = log w ++ concat segs /\
                Forall2 (fun a seg =>
                           Forall (fun ex =>
                                     sentBySearch env
                                       (catalogInfoFor config (defaultMediaOf config) a)
                                       (fst ex) /\
                                     CatalogInfo.Media
                                       (catalogInfoFor config (defaultMediaOf config) a)
                                       <> "")
                                  seg)
                        searched segs /\
                (o = Returns None -> rest = [])).
    { intros o' Ho' ->. exists [a], authors, [exs]. split_and!; auto.
      - simpl. by rewrite app_nil_r.
      - done. }
    destruct o1 as [[res [e|]]| |].
    + intros [= <- <-]. by apply Hstop.
    + intros Hrun. destruct (IH _ _ _ Hrun) as (searched & rest & segs & -> & Hl & Hf & Hr).
      exists (a :: searched), rest, (exs :: segs). split_and!; auto.
      rewrite Hl, Hlog. simpl. by rewrite <- app_assoc.
    + intros [= <- <-]. by apply Hstop.
    + intros [= <- <-]. by apply Hstop.
Qed.

(** X13: the requests of a run name the author and the media type they
    are made for.  The requests of [printSearchResults] are those of the
    searches for the authors of the configuration, in their order, up to
    the last author searched; every request of the search for an author
    carries the author as "Lastname, Firstname" as its search term, has
    the shape of the requests of a search for that author with the media
    type chosen for that author, and is sent to the URL that [url.Parse]
    makes of the configured URL followed by "search/count" or "search",
    with the cache-bust token as its only query parameter.  Where that
    string parses to a URL without a query and without a fragment that is
    written back unchanged, the request goes to the configured URL
    followed by the endpoint, "?_=" and the token; for a configured URL
    that holds a '?' or a '#' this is not the case. *)
Theorem requests_name_the_author fuel config w o w' :
  Main.printSearchResults env fuel config w = (o, w') ->
  exists searched rest segs,
    Config.Authors config = searched ++ rest /\
    log w' = log w ++ concat segs /\
    Forall2 (fun a seg =>
               Forall (fun ex =>
                         sentBySearch env
                           (catalogInfoFor config (defaultMediaOf config) a) (fst ex) /\
                         searchFilter.SearchTerm (payload (fst ex))
                           = AuthorInfo.Lastname a +:+ ", " +:+ AuthorInfo.Firstname a /\
                         exists endpt token,
                           (endpt = "search/count" \/ endpt = "search") /\
                           query (fst ex) = [("_", token)] /\
                           urlString (fst ex)
                             = URL.toString
                                 (URL.withRawQuery
                                    (urlParsed env (Config.URL config +:+ endpt))
                                    ("_=" +:+ token)) /\
                           (urlParsed env (Config.URL config +:+ endpt)
                              = plainURL (Config.URL config +:+ endpt) ->
                            urlString (fst ex)
                              = (Config.URL config +:+ endpt) +:+ "?_=" +:+ token))
                      seg)
            searched segs /\
    (o = Returns None -> rest = []).
Proof.
  intros Hrun. apply rangeAuthors_requests in Hrun
    as (searched & rest & segs & Hauthors & Hlog & Hall & Hrest).
  exists searched, rest, segs. split_and!; auto.
  eapply Forall2_impl; [exact Hall|]. intros a seg Hseg. simpl in Hseg.
  eapply Forall_impl; [exact Hseg|]. intros ex [Hsent _].
  split; [done|].
  destruct Hsent as (endpt & year & token & He & _ & _ & _ & Hurl & Hq & _ & Hpay).
  split.
  - by rewrite Hpay.
  - exists endpt, token. simpl in Hurl. split_and!; auto.
    intros Hplain. rewrite Hurl, Hplain. apply toString_plainURL.
Qed.

(** X15: the requests of a run carry media types the catalog knows.
    For a configuration as [ValidateConfig] returns it, the format
    filter of every request [printSearchResults] makes holds one of the
    catalog names of [MediaTypes]: the media type of the author, the
    default "Book", or no request at all for an author who is left with
    an empty media type. *)
Theorem requests_carry_catalog_media_types fuel config w o w' :
  validated config ->
  Main.printSearchResults env fuel config w = (o, w') ->
  exists exs,
    log w' = log w ++ exs /\
    Forall (fun ex =>
              exists year media name,
                searchFilter.FacetFilters (payload (fst ex))
                  = Some [ {[ "facetDisplay" := year; "facetValue" := year;
                              "facetName" := "Year" ]};
                           {[ "facetDisplay" := media; "facetValue" := media;
                              "facetName" := "Format" ]} ] /\
                MediaTypes !! name = Some media)
           exs.
Proof.
  intros (_ & _ & Hauthors) Hrun.
  apply rangeAuthors_requests in Hrun
    as (searched & rest & segs & Heq & Hlog & Hall & _).
  exists (concat segs). split; [done|].
  rewrite Heq in Hauthors. apply Forall_app in Hauthors as [Hsearched _].
  clear Heq Hlog. induction Hall as [|a seg searched segs Hseg _ IH]; [constructor|].
  apply Forall_cons in Hsearched as [(_ & _ & Hmedia) Hsearched].
  simpl. apply Forall_app. split; [|by apply IH].
  eapply Forall_impl; [exact Hseg|].
  intros ex [(endpt & year & token & _ & _ & _ & _ & _ & _ & _ & Hpay) Hne].
  rewrite Hpay. simpl searchFilter.FacetFilters.
  assert (Hname : exists name,
            MediaTypes !! name
              = Some (CatalogInfo.Media (catalogInfoFor config (defaultMediaOf config) a))).
  { revert Hne. unfold catalogInfoFor, defaultMediaOf, DefaultMediaType. simpl.
    destruct (String.eqb_spec (AuthorInfo.Media a) "") as [Ha|Ha]; simpl.
    - destruct (String.eqb_spec (Config.Media config) "") as [->|_]; [done|].
      intros _. by exists "book".
    - intros _. by destruct Hmedia as [?|?]. }
  destruct Hname as [name Hname].
  by exists year, (CatalogInfo.Media (catalogInfoFor config (defaultMediaOf config) a)), name.
Qed.

End WithEnv.

End Printing.

(** ** Further properties at concrete catalogs and configurations *)

Module FurtherExamples.

Import Go Booklist Run Main Trace BooklistConfig Utf8 Scenarios FurtherScenarios
  GoFacts Filter Tokens Search Runs MediaTypeFacts Utf8Facts Printing.

(** What a run prints for two authors, the second of whom is left
    without a media type. *)
Example printed_lines_scenario :
  snd (Stdout.printSearchResults envTwoHits 5 configThree initialWorld)
    = [ "Grafton, Sue -- Large Prints:" +:+ Stdout.newline;
        "  [Book]  X" +:+ Stdout.newline;
        "King, Stephan -- s:" +:+ Stdout.newline ].
Proof. vm_compute. reflexivity. Qed.

Example aligned_lines_scenario :
  Stdout.resultLines (Some [ PublicationInfo.mk "Book" "X";
                             PublicationInfo.mk "Large Print" "Y is for yesterday" ])
    = [ "  [Book       ]  X" +:+ Stdout.newline;
        "  [Large Print]  Y is for yesterday" +:+ Stdout.newline ].
Proof. vm_compute. reflexivity. Qed.

(** Two buckets of three publications each, fetched in pages of two and
    of one. *)
Lemma successful_search_retrieves_totals_witness :
  let run := PublicationSearch envPages 5 grafton initialWorld in
  exists cnt1 fetches1 n1 cnt2 fetches2 n2,
    log (snd run) = (cnt1 :: fetches1) ++ (cnt2 :: fetches2) /\
    reportsTotal cnt1 n1 /\ reportsTotal cnt2 n2 /\
    retrieved fetches1 = n1 /\ retrieved fetches2 = n2 /\
    4 <= n1 + n2.
Proof.
  intros run.
  destruct (successful_search_retrieves_totals envPages 5 grafton initialWorld
              (Some [ PublicationInfo.mk "Book" "X";
                      PublicationInfo.mk "Large Print" "Y is for yesterday";
                      PublicationInfo.mk "Large Print" "Y is for yesterday";
                      PublicationInfo.mk "Book" "X" ])
              (snd run))
    as (cnt1 & f1 & n1 & cnt2 & f2 & n2 & Hlog & _ & _ & _ & _ & Ht1 & Ht2 & Hr1 & Hr2
        & _ & _ & Hlen).
  - vm_compute. reflexivity.
  - exists cnt1, f1, n1, cnt2, f2, n2.
    split; [exact Hlog|]. split; [exact Ht1|]. split; [exact Ht2|].
    split; [exact Hr1|]. split; [exact Hr2|exact Hlen].
Defined.

(** The page request that follows the first count request is answered
    with status 503. *)
Lemma failed_request_ends_search_witness :
  let run := PublicationSearch envFetchFails 5 grafton initialWorld in
  let w1 := worldAfter (exchangeAt envFetchFails grafton "search/count"
                          (yearFilters grafton "unknown") initialWorld) initialWorld in
  fst run = Returns (None, Some (PostStatus
              (requestAt envFetchFails grafton "search" (yearFilters grafton "unknown") w1)
              503)) /\
  length (log (snd run)) = 2%nat.
Proof.
  intros run w1.
  destruct (failed_request_ends_search envFetchFails 5 grafton initialWorld
              (fst run) (snd run)
              [exchangeAt envFetchFails grafton "search/count"
                 (yearFilters grafton "unknown") initialWorld]
              (exchangeAt envFetchFails grafton "search"
                 (yearFilters grafton "unknown") w1)
              []
              (PostStatus
                 (requestAt envFetchFails grafton "search" (yearFilters grafton "unknown") w1)
                 503)) as [_ Ho].
  - apply surjective_pairing.
  - vm_compute. reflexivity.
  - vm_compute. reflexivity.
  - split; [exact Ho|]. vm_compute. reflexivity.
Defined.

(** The page request is answered with the document [null]. *)
Lemma null_body_panics_witness :
  let run := PublicationSearch envNull 5 grafton initialWorld in
  fst run = Panics /\
  exists pre ex, log (snd run) = pre ++ [ex] /\ nullBody grafton ex.
Proof.
  intros run.
  destruct (null_body_panics envNull 5 grafton initialWorld) as [Hpanics Honly].
  pose (w1 := worldAfter (exchangeAt envNull grafton "search/count"
                            (yearFilters grafton "unknown") initialWorld) initialWorld).
  assert (Ho : fst run = Panics).
  { destruct (Hpanics (fst run) (snd run)
                [exchangeAt envNull grafton "search/count"
                   (yearFilters grafton "unknown") initialWorld]
                (exchangeAt envNull grafton "search" (yearFilters grafton "unknown") w1)
                []) as [_ Ho].
    - apply surjective_pairing.
    - vm_compute. reflexivity.
    - exists nullDocument. split; vm_compute; reflexivity.
    - exact Ho. }
  split; [exact Ho|].
  destruct (Honly (snd run)) as (pre & ex & Hlog & Hnull).
  - rewrite <- Ho. apply surjective_pairing.
  - exists pre, ex. split; [exact Hlog|exact Hnull].
Defined.

(** The first count response announces a total of minus one. *)
Lemma negative_total_is_a_mismatch_witness :
  let run := PublicationSearch envNegative 5 grafton initialWorld in
  fst run = Returns (None, Some (Errorf
              "Received more publications than expected; expected -1 currently have 0")) /\
  length (log (snd run)) = 1%nat.
Proof.
  intros run.
  destruct (negative_total_is_a_mismatch envNegative 5 grafton initialWorld
              (fst run) (snd run) []
              (exchangeAt envNegative grafton "search/count"
                 (yearFilters grafton "unknown") initialWorld)
              [] (-1)) as [_ Ho].
  - apply surjective_pairing.
  - vm_compute. reflexivity.
  - reflexivity.
  - exists (hitsBody true (-1)), (hitResults.mk true (-1)).
    split; [vm_compute; reflexivity|]. split; [reflexivity|]. split; reflexivity.
  - lia.
  - split; [exact Ho|]. vm_compute. reflexivity.
Defined.

(** The page of 2024 holds two publications where one was announced. *)
Lemma search_error_has_a_cause_witness :
  let run := PublicationSearch envTooMany 5 grafton initialWorld in
  exists exs,
    log (snd run) = exs /\
    FailsBy envTooMany grafton exs (Errorf
      "Received more publications than expected; expected 1 currently have 2").
Proof.
  intros run.
  destruct (search_error_has_a_cause envTooMany 5 grafton initialWorld None
              (Errorf "Received more publications than expected; expected 1 currently have 2")
              (snd run)) as [_ [(Hempty & _)|(_ & _ & exs & Hlog & Hfails)]].
  - vm_compute. reflexivity.
  - exfalso. destruct Hempty as [Hempty|Hempty]; discriminate Hempty.
  - exists exs. split; [exact Hlog|exact Hfails].
Defined.

(** The three requests of the search that finds one of two publications. *)
Lemma one_token_per_request_witness :
  let run := PublicationSearch envTwoHits 5 grafton initialWorld in
  exists exs,
    log (snd run) = exs /\
    clockReads (snd run) = length exs /\
    timestampIncrement (snd run) = wrap64 (1 + Z.of_nat (length exs)) /\
    tokensOf exs = map sprintf_d (tokenValues envTwoHits (length exs) 1 0).
Proof.
  intros run.
  destruct (one_token_per_request envTwoHits 5 grafton initialWorld (fst run) (snd run))
    as (exs & Hlog & Hreads & Hcounter & Htokens & _).
  - apply surjective_pairing.
  - exists exs. split; [exact Hlog|]. split; [exact Hreads|].
    split; [|exact Htokens]. apply Hcounter. unfold int64. simpl. lia.
Defined.

(** The first token of a process started in June 2024. *)
Lemma token_has_13_digits_witness :
  exists t w',
    makeTimestamp envTwoHits initialWorld = (Returns t, w') /\
    String.length t = 13%nat.
Proof.
  exists "1718000000002", (mkWorld 2 1 []).
  assert (Hrun : makeTimestamp envTwoHits initialWorld
                 = (Returns "1718000000002", mkWorld 2 1 []))
    by (vm_compute; reflexivity).
  split; [exact Hrun|].
  destruct (token_has_13_digits envTwoHits initialWorld "1718000000002"
              (mkWorld 2 1 []) Hrun) as (_ & Hlate & _).
  - simpl. unfold june2024. lia.
  - simpl. lia.
  - apply Hlate. simpl. unfold june2024. lia.
Defined.

(** The lower case of a non-empty string is not empty. *)
Lemma asciiLower_nonempty s : s <> "" -> asciiLower s <> "".
Proof. intros Hs Hl. apply Hs. by apply asciiLower_empty. Qed.

(** Media type names in upper and in mixed case. *)
Lemma media_type_case_is_ignored_witness :
  IsFormat asciiLower "Book On CD" = true /\
  IsFormat asciiLower "BLU-RAY" = IsFormat asciiLower "Blu-ray" /\
  Config.Media (convertMediaType asciiLower (Config.mk baseURL "EBOOK" []))
    = Config.Media (convertMediaType asciiLower (Config.mk baseURL "eBook" [])).
Proof.
  destruct (media_type_case_is_ignored asciiLower (fun s _ => eq_refl)) as [Hnames Hcase].
  split.
  - apply (Hnames "Book On CD"); [reflexivity|]. right.
    change (asciiLower "Book On CD") with "book on cd". unfold mediaTypeNames.
    do 4 (apply elem_of_cons; right). apply elem_of_cons. left. reflexivity.
  - destruct (Hcase "BLU-RAY" "Blu-ray" baseURL [] "" "") as (Hformat & _ & _);
      [reflexivity..|].
    split; [exact Hformat|].
    destruct (Hcase "EBOOK" "eBook" baseURL [] "" "") as (_ & Hmedia & _);
      [reflexivity..|].
    exact Hmedia.
Defined.

(** A parsed configuration with a name in upper case, a name in mixed
    case, an author without a media type and a name that is no media
    type. *)
Lemma conversion_leaves_catalog_names_witness :
  validated (convertMediaType asciiLower configParsed) /\
  Config.URL (convertMediaType asciiLower configParsed) = baseURL /\
  convertedMedia (Config.Media (convertMediaType asciiLower configParsed)).
Proof.
  destruct (conversion_leaves_catalog_names asciiLower (fun s _ => eq_refl)
              asciiLower_nonempty configParsed) as (Hurl & Hmedia & _ & _ & Hvalid).
  split; [|split; [exact Hurl|exact Hmedia]].
  apply Hvalid.
  - discriminate.
  - repeat constructor; discriminate.
Defined.

Lemma conversion_is_idempotent_witness :
  convertMediaType asciiLower (convertMediaType asciiLower configParsed)
    = Config.mk baseURL "eBook"
        [ AuthorInfo.mk "Sue" "Grafton" "Large Print";
          AuthorInfo.mk "Stephan" "King" "";
          AuthorInfo.mk "Lee" "Child" "" ].
Proof.
  rewrite (conversion_is_idempotent asciiLower (fun s _ => eq_refl) configParsed).
  vm_compute. reflexivity.
Defined.


(** The search for the first author succeeds, the second author is left
    without a media type, and the third author is not searched. *)
Lemma first_failing_author_ends_the_run_witness :
  exists w',
    Main.printSearchResults envTwoHits 5 configThree initialWorld
      = (Returns (Some (Errorf
           "arguments must be non-null:  author=King, Stephan, media='")), w') /\
    length (log w') = 3%nat.
Proof.
  pose (r1 := PublicationSearch envTwoHits 5
                (catalogInfoFor configThree (defaultMediaOf configThree) sue) initialWorld).
  exists (snd r1). split; [|vm_compute; reflexivity].
  destruct (first_failing_author_ends_the_run envTwoHits 5 configThree initialWorld)
    as [_ Hfail].
  apply Hfail.
  exists [sue], king, [lee], [Some [PublicationInfo.mk "Book" "X"]], (snd r1), None.
  split; [reflexivity|]. split.
  - apply Stdout.Searched_cons with (snd r1); [vm_compute; reflexivity|].
    apply Stdout.Searched_nil.
  - vm_compute. reflexivity.
Defined.

(** The requests of the run for three authors with media types. *)
Lemma requests_name_the_author_witness :
  let run := Main.printSearchResults envTwoHits 5 configAll initialWorld in
  exists segs,
    log (snd run) = concat segs /\
    Forall2 (fun a seg =>
               Forall (fun ex =>
                         searchFilter.SearchTerm (payload (fst ex))
                           = AuthorInfo.Lastname a +:+ ", " +:+ AuthorInfo.Firstname a /\
                         exists endpt token,
                           (endpt = "search/count" \/ endpt = "search") /\
                           query (fst ex) = [("_", token)] /\
                           urlString (fst ex)
                             = ("https://catalog.library.loudoun.gov/" +:+ endpt)
                                 +:+ "?_=" +:+ token)
                      seg)
            (Config.Authors configAll) segs.
Proof.
  intros run.
  destruct (requests_name_the_author envTwoHits 5 configAll initialWorld (fst run) (snd run))
    as (searched & rest & segs & Hauthors & Hlog & Hall & Hrest).
  - apply surjective_pairing.
  - exists segs. split; [exact Hlog|].
    assert (Hnil : rest = []) by (apply Hrest; vm_compute; reflexivity).
    rewrite Hauthors, Hnil, app_nil_r.
    eapply Forall2_impl; [exact Hall|]. intros a seg Hseg.
    eapply Forall_impl; [exact Hseg|].
    intros ex (_ & Hterm & endpt & token & He & Hq & _ & Hplain).
    split; [exact Hterm|]. exists endpt, token.
    split; [exact He|]. split; [exact Hq|].
    apply Hplain. destruct He as [->| ->]; vm_compute; reflexivity.
Defined.

(** What the run for the three authors without a default prints. *)
Lemma output_follows_the_authors_witness :
  let run := Stdout.printSearchResults envTwoHits 5 configThree initialWorld in
  exists before a after results w1,
    Config.Authors configThree = before ++ a :: after /\
    Stdout.Searched envTwoHits 5 configThree before initialWorld results w1 /\
    snd run = concat (zip_with (Stdout.written configThree) before results)
                ++ [Stdout.heading
                      (catalogInfoFor configThree (defaultMediaOf configThree) a)].
Proof.
  intros run.
  destruct (output_follows_the_authors envTwoHits 5 configThree initialWorld
              (fst (fst run)) (snd (fst run)) (snd run)) as (_ & _ & Hfail).
  - unfold run.
    destruct (Stdout.printSearchResults envTwoHits 5 configThree initialWorld)
      as [[o w'] out]. reflexivity.
  - apply Hfail. vm_compute. discriminate.
Defined.

(** The requests of the run for three authors carry "Large Print",
    "Book" and "eBook". *)
Lemma requests_carry_catalog_media_types_witness :
  let run := Main.printSearchResults envTwoHits 5 configAll initialWorld in
  exists exs,
    log (snd run) = exs /\
    Forall (fun ex =>
              exists year media name,
                searchFilter.FacetFilters (payload (fst ex))
                  = Some [ {[ "facetDisplay" := year; "facetValue" := year;
                              "facetName" := "Year" ]};
                           {[ "facetDisplay" := media; "facetValue" := media;
                              "facetName" := "Format" ]} ] /\
                MediaTypes !! name = Some media)
           exs.
Proof.
  intros run.
  destruct (requests_carry_catalog_media_types envTwoHits 5 configAll initialWorld
              (fst run) (snd run)) as (exs & Hlog & Hall).
  - split; [discriminate|]. split.
    + right. exists "dvd". vm_compute. reflexivity.
    + apply Forall_cons. split.
      { split; [discriminate|]. split; [discriminate|].
        right. exists "large print". vm_compute. reflexivity. }
      apply Forall_cons. split.
      { split; [discriminate|]. split; [discriminate|].
        right. exists "book". vm_compute. reflexivity. }
      apply Forall_cons. split; [|constructor].
      split; [discriminate|]. split; [discriminate|].
      right. exists "ebook". vm_compute. reflexivity.
  - apply surjective_pairing.
  - exists exs. split; [exact Hlog|exact Hall].
Defined.

End FurtherExamples.
